(** * Relay of OpenAI-style responses: a shallow embedding of
      [relay/channel/openai/main.go]

    The file embeds the three functions of the source file
    ([GenerateFixedContentMessage], [StreamHandler], [Handler]) and proves
    properties of the frame pipeline, of the injection flag and of the
    full-body relay.

    Go strings are byte sequences, so they are modelled by [string] (a list
    of 8-bit characters); [len], slicing, [strings.HasPrefix] and
    [strings.TrimSuffix] are written out on that representation.  Go's
    [int] is modelled by [Z] with the 64-bit wrap-around written out where
    the source adds. *)

From Stdlib Require Import ZArith Lia Ascii String List.
From stdpp Require Import base strings list gmap pretty.

Set Warnings "-register-all".

Local Open Scope string_scope.
Local Open Scope list_scope.

(** ** Go string primitives *)

Module GoString.

(** [s[:n]] for [n <= len(s)]. *)
Fixpoint take (n : nat) (s : string) : string :=
  match n, s with
  | S n', String c s' => String c (take n' s')
  | _, _ => EmptyString
  end.

(** [s[n:]] for [n <= len(s)]. *)
Fixpoint drop (n : nat) (s : string) : string :=
  match n, s with
  | S n', String _ s' => drop n' s'
  | _, _ => s
  end.

(** [strings.HasPrefix(s, p)]. *)
Definition HasPrefix (s p : string) : bool := String.prefix p s.

(** [strings.TrimSuffix(s, suffix)]: [s] without the trailing [suffix]
    when it ends with it, [s] itself otherwise. *)
Fixpoint TrimSuffix (s suffix : string) : string :=
  if String.eqb s suffix then EmptyString
  else match s with
       | EmptyString => EmptyString
       | String c s' => String c (TrimSuffix s' suffix)
       end.

Definition LF : ascii := ascii_of_nat 10.
Definition CR : ascii := ascii_of_nat 13.

End GoString.

(** ** Data model

    The response types are declared in other files of the package; each
    record below keeps the fields the source file reads or writes. *)

(** JSON values, as far as the source builds them ([map[string]interface{}]
    literals) and the reference codec reads them. *)
Inductive json : Type :=
| JNull
| JBool (b : bool)
| JNum (n : Z)
| JStr (s : string)
| JArr (items : list json)
| JObj (fields : list (string * json)).

(** Modelled from the spec: a choice of [ChatCompletionsStreamResponse],
    whose declaration is not in the source file: the text delta the source
    reads as [choice.Delta.Content] and the nullable [choice.FinishReason]. *)
Record ChatCompletionsStreamResponseChoice := {
  Delta_Content : string;
  FinishReason : option string
}.

(** Modelled from the spec: [ChatCompletionsStreamResponse], the list of
    choices of a chat-mode event. *)
Record ChatCompletionsStreamResponse := {
  Choices : list ChatCompletionsStreamResponseChoice
}.

(** Modelled from the spec: a choice of [CompletionsStreamResponse]
    (declared outside the source file): [choice.Text] and a non-nullable
    [choice.FinishReason]. *)
Record CompletionsStreamResponseChoice := {
  Text : string;
  CFinishReason : string
}.

(** Modelled from the spec: [CompletionsStreamResponse], the list of
    choices of a legacy-completion event. *)
Record CompletionsStreamResponse := {
  CChoices : list CompletionsStreamResponseChoice
}.

(** Modelled from the spec: the upstream error record (type + message); its
    declaration is not in the source file. *)
Record Error := {
  Error_Message : string;
  Error_Type : string
}.

(** Modelled from the spec: [ErrorWithStatusCode] (declared outside the
    source file), built at line 168 from an error record and a status
    code. *)
Record ErrorWithStatusCode := {
  Err : Error;
  StatusCode : Z
}.

(** Modelled from the spec: [Usage] (declared outside the source file), the
    three token counts set at lines 192-196. *)
Record Usage := {
  PromptTokens : Z;
  CompletionTokens : Z;
  TotalTokens : Z
}.

(** Modelled from the spec: [Message] (declared outside the source file):
    the role and the raw JSON bytes of the content ([json.RawMessage],
    which the source overwrites at line 185). *)
Record Message := {
  Role : string;
  Content : string
}.

(** Modelled from the spec: a choice of the full-body response (declared
    outside the source file), holding a message. *)
Record TextResponseChoice := {
  Index : Z;
  Message_ : Message;
  TFinishReason : string
}.

(** Modelled from the spec: [SlimTextResponse] (declared outside the source
    file): the choices, the usage and the error record. *)
Record SlimTextResponse := {
  TChoices : list TextResponseChoice;
  TUsage : Usage;
  TError : Error
}.

(** A Go result pair [(value, err)]: the value, or the error's message. *)
Inductive result (A : Type) : Type :=
| Ok (a : A)
| Failed (err : string).
Arguments Ok {A} a.
Arguments Failed {A} err.

(** [http.StatusInternalServerError]. *)
Definition StatusInternalServerError : Z := 500.

(** ** External collaborators

    Everything the source calls but does not define: the JSON codec of the
    Go standard library, the identifier and clock sources, the relay-mode
    constants, the token counter and the error wrapper.  [GetUUID k] and
    [GetTimestamp k] are the results of the [k]-th call of a session, so
    successive calls may differ.  The two stream decoders return [None]
    where [json.Unmarshal] returns an error (the source only logs it); the
    other codec functions return the error, which the source wraps.
    [EOFWithLastRead] is the one trait of the reader behind [resp.Body]
    that the scanner of line 48 can observe: whether [Read] returns
    [io.EOF] together with the last bytes of the body ([true]) or by a
    further, empty read ([false]). *)
Class Collaborators := {
  EOFWithLastRead : bool;
  RelayModeChatCompletions : Z;
  RelayModeCompletions : Z;
  unmarshalChat : string -> option ChatCompletionsStreamResponse;
  unmarshalCompletions : string -> option CompletionsStreamResponse;
  jsonMarshal : json -> result string;
  GetUUID : nat -> string;
  GetTimestamp : nat -> Z;
  ErrorWrapper : string -> string -> Z -> ErrorWithStatusCode;
  unmarshalResponse : string -> result SlimTextResponse;
  marshalResponse : SlimTextResponse -> result string;
  StringContent : Message -> string;
  CountTokenText : string -> string -> Z
}.

(** ** GenerateFixedContentMessage *)

Section FixedContent.
Context `{Collaborators}.

Definition LFLF : string :=
  String GoString.LF (String GoString.LF EmptyString).

(** The [content] map literal of the source, keys in source order. *)
Definition fixedContentMap (uuid : string) (created : Z)
    (fixedContent : string) : json :=
  let modifiedFixedContent := LFLF +:+ fixedContent in
  JObj [ ("id", JStr ("chatcmpl-" +:+ uuid));
         ("object", JStr "chat.completion");
         ("created", JNum created);
         ("choices",
          JArr [ JObj [ ("index", JNum 0);
                        ("finish_reason", JStr "stop");
                        ("delta", JObj [ ("content", JStr modifiedFixedContent);
                                         ("role", JStr "") ]) ] ]) ].

(** [k] is the number of messages generated before this one. *)
Definition GenerateFixedContentMessage (k : nat) (fixedContent : string)
    : string :=
  match jsonMarshal (fixedContentMap (GetUUID k) (GetTimestamp k) fixedContent) with
  | Failed _ => ""
  | Ok jsonBytes => "data: " +:+ jsonBytes
  end.
End FixedContent.

(** ** StreamHandler *)

(** What the producer goroutine hands to [dataChan], labelled by the send
    site: line 80 (the synthetic message), line 122 (an upstream frame) and
    line 127 (the closing signal). *)
Inductive sent : Type :=
| Injected (msg : string)
| Forwarded (data : string)
| DoneSignal.

Definition doneSignal : string := "data: [DONE]".

Definition payload (x : sent) : string :=
  match x with
  | Injected msg => msg
  | Forwarded data => data
  | DoneSignal => doneSignal
  end.

Definition is_injected (x : sent) : bool :=
  match x with Injected _ => true | _ => false end.

Definition is_forwarded (x : sent) : bool :=
  match x with Forwarded _ => true | _ => false end.

(** The variables of the goroutine: the flag, the accumulated text, and
    the number of synthetic messages generated so far. *)
Record scan_state := {
  needInjectFixedMessageBeforeNextSend : bool;
  responseText : string;
  generated : nat
}.

Definition scan_init : scan_state :=
  {| needInjectFixedMessageBeforeNextSend := false;
     responseText := "";
     generated := 0 |}.

(** [bufio.MaxScanTokenSize]: the largest buffer of the scanner that
    [bufio.NewScanner] returns (line 48); the source never calls
    [scanner.Buffer]. *)
Definition MaxScanTokenSize : N := 65536.

(** The pending bytes [cur] of the current token fill the whole buffer, so
    [Scan] can read nothing more. *)
Definition buffer_full (cur : string) : bool :=
  (MaxScanTokenSize <=? N.of_nat (String.length cur))%N.

(** The scanner of line 48 with the split function of lines 50-61, run by
    the loop condition of line 65.  [cur] holds the bytes of the current
    token read so far, [body] what the reader has yet to deliver.

    The split function ends a token at the first line feed, and at end of
    input returns a last token without line feed unless it is empty.
    [Scan] calls it on its buffer only: when the buffer is full
    ([MaxScanTokenSize] bytes) and holds no line feed, [Scan] sets
    [ErrTooLong] and returns false, which ends the loop of line 65 (the
    source never reads [scanner.Err]), so the rest of the body is lost.  The
    one shape on which readers differ is a last token of exactly
    [MaxScanTokenSize] bytes without line feed: [Scan] returns it when the
    end of input was reported together with its last bytes
    ([eofWithData]), and stops with [ErrTooLong] when the end of input
    would have taken a further read. *)
Fixpoint scan_from (eofWithData : bool) (cur : string) (body : string)
    : list string :=
  match body with
  | EmptyString =>
      if String.eqb cur "" then []
      else if buffer_full cur && negb eofWithData then []
      else [cur]
  | String c rest =>
      if buffer_full cur then []
      else if Ascii.eqb c GoString.LF
      then cur :: scan_from eofWithData "" rest
      else scan_from eofWithData (cur +:+ String c EmptyString) rest
  end.

Definition scanLines `{Collaborators} (body : string) : list string :=
  scan_from EOFWithLastRead "" body.

Section Stream.
Context `{Collaborators}.
Variable relayMode : Z.
Variable fixedContent : string.

(** Lines 77-84. *)
Definition inject_before_send (st : scan_state) : scan_state * list sent :=
  if needInjectFixedMessageBeforeNextSend st then
    if negb (String.eqb fixedContent "") then
      let fixedContentMessage :=
        GenerateFixedContentMessage (generated st) fixedContent in
      ({| needInjectFixedMessageBeforeNextSend := false;
          responseText := responseText st;
          generated := S (generated st) |},
       [Injected fixedContentMessage])
    else (st, [])
  else (st, []).

(** Lines 100-105. *)
Definition chat_choice (st : scan_state)
    (choice : ChatCompletionsStreamResponseChoice) : scan_state :=
  {| responseText := responseText st +:+ Delta_Content choice;
     needInjectFixedMessageBeforeNextSend :=
       match FinishReason choice with
       | Some r => if String.eqb r "stop" then true
                   else needInjectFixedMessageBeforeNextSend st
       | None => needInjectFixedMessageBeforeNextSend st
       end;
     generated := generated st |}.

(** Lines 113-118. *)
Definition completions_choice (st : scan_state)
    (choice : CompletionsStreamResponseChoice) : scan_state :=
  {| responseText := responseText st +:+ Text choice;
     needInjectFixedMessageBeforeNextSend :=
       if String.eqb (CFinishReason choice) "stop" then true
       else needInjectFixedMessageBeforeNextSend st;
     generated := generated st |}.

(** Lines 121-123. *)
Definition send_unless_pending (data : string) (st : scan_state)
    : scan_state * list sent :=
  if negb (needInjectFixedMessageBeforeNextSend st)
  then (st, [Forwarded data]) else (st, []).

(** Lines 86-120: [None] stands for [continue]. *)
Definition parse_frame (data : string) (st : scan_state) : option scan_state :=
  if String.eqb (GoString.take 6 data) "data: " then
    if String.eqb data "data: [DONE]" then None
    else
      let jsonData := GoString.drop 6 data in
      if (relayMode =? RelayModeChatCompletions)%Z then
        match unmarshalChat jsonData with
        | None => None
        | Some streamResponse =>
            Some (fold_left chat_choice (Choices streamResponse) st)
        end
      else if (relayMode =? RelayModeCompletions)%Z then
        match unmarshalCompletions jsonData with
        | None => None
        | Some streamResponse =>
            Some (fold_left completions_choice (CChoices streamResponse) st)
        end
      else Some st
  else Some st.

(** One iteration of [for scanner.Scan()], lines 69-123. *)
Definition loop_body (st : scan_state) (data : string)
    : scan_state * list sent :=
  if (String.length data <? 6)%nat then (st, [])
  else if negb (String.eqb (GoString.take 6 data) "data: ")
          && negb (String.eqb (GoString.take 6 data) "[DONE]")
  then (st, [])
  else
    let '(st1, injected) := inject_before_send st in
    match parse_frame data st1 with
    | None => (st1, injected)
    | Some st2 =>
        let '(st3, forwarded) := send_unless_pending data st2 in
        (st3, injected ++ forwarded)
    end.

(** The frame passes the two filters of lines 70-75. *)
Definition accepted (data : string) : bool :=
  negb (String.length data <? 6)%nat
  && (String.eqb (GoString.take 6 data) "data: "
      || String.eqb (GoString.take 6 data) "[DONE]").

(** The frame is accepted and parsing it raises the flag (lines 103 and
    116): it carries finish-reason stop. *)
Definition carries_stop (data : string) : bool :=
  accepted data
  && match parse_frame data scan_init with
     | Some st => needInjectFixedMessageBeforeNextSend st
     | None => false
     end.

(** The frame is accepted, is not skipped by a [continue] and does not
    raise the flag: with no injection pending it reaches line 122. *)
Definition forwardable (data : string) : bool :=
  accepted data
  && match parse_frame data scan_init with
     | Some st => negb (needInjectFixedMessageBeforeNextSend st)
     | None => false
     end.

(** The text the frame adds to the accumulator. *)
Definition frame_text (data : string) : string :=
  if accepted data then
    match parse_frame data scan_init with
    | Some st => responseText st
    | None => ""
    end
  else "".

(** The loop over the scanner's tokens. *)
Fixpoint scan_loop (st : scan_state) (frames : list string)
    : scan_state * list sent :=
  match frames with
  | [] => (st, [])
  | data :: rest =>
      let '(st1, out1) := loop_body st data in
      let '(st2, out2) := scan_loop st1 rest in
      (st2, out1 ++ out2)
  end.

(** The goroutine, lines 65-129: all sends on [dataChan] in order; the
    send on [stopChan] follows the last of them. *)
Definition producer (frames : list string) : scan_state * list sent :=
  let '(st, out) := scan_loop scan_init frames in
  (st, out ++ [DoneSignal]).

(** The consumer, lines 133-139: the [Data] of the event rendered for one
    received value. *)
Definition render (data : string) : string :=
  let data := if GoString.HasPrefix data "data: [DONE]"
              then GoString.take 12 data else data in
  GoString.TrimSuffix data (String GoString.CR EmptyString).

(** The events written to the client, in order.  The channels are
    unbuffered and the producer sends on [stopChan] last, so the consumer
    renders every value sent on [dataChan] and then stops. *)
Definition client_stream (frames : list string) : list string :=
  map (fun x => render (payload x)) (snd (producer frames)).

Definition stream_text (frames : list string) : string :=
  responseText (fst (producer frames)).

(** [StreamHandler] on the tokens read from the body; [closeErr] is the
    result of [resp.Body.Close()].  Returns the error, the text, and the
    client stream written on the way. *)
Definition StreamHandler_frames (frames : list string)
    (closeErr : option string)
    : option ErrorWithStatusCode * string * list string :=
  let out := client_stream frames in
  match closeErr with
  | Some err =>
      (Some (ErrorWrapper err "close_response_body_failed"
               StatusInternalServerError), "", out)
  | None => (None, stream_text frames, out)
  end.

Definition StreamHandler (body : string) (closeErr : option string)
    : option ErrorWithStatusCode * string * list string :=
  StreamHandler_frames (scanLines body) closeErr.

End Stream.

(** ** Handler *)

(** The upstream response as [Handler] uses it: the outcome of
    [io.ReadAll(resp.Body)], the outcome of [resp.Body.Close()], the status
    code and the header map. *)
Record Response := {
  resp_Body : result string;
  resp_Close : option string;
  resp_StatusCode : Z;
  resp_Header : gmap string (list string)
}.

(** Modelled from the spec: the client's response writer (the framework's,
    not in the source file).  Writing the status code records it, setting a
    header stores one value under its key, and writing the body appends to
    what the client receives; status and headers recorded before the first
    body write are the ones the client sees. *)
Record ResponseWriter := {
  rw_status : Z;
  rw_header : gmap string string;
  rw_body : string
}.

(** The calls [Handler] makes on its collaborators, in order. *)
Inductive effect : Type :=
| EMarshal (v : json)
| ECountTokenText (text model : string)
| EMarshalResponse (r : SlimTextResponse)
| EWriteHeader (code : Z)
| EHeaderSet (k v : string)
| EWrite (body : string)
| EWriteFailed (body : string).

Definition apply_effect (w : ResponseWriter) (e : effect) : ResponseWriter :=
  match e with
  | EWriteHeader code =>
      {| rw_status := code; rw_header := rw_header w; rw_body := rw_body w |}
  | EHeaderSet k v =>
      {| rw_status := rw_status w; rw_header := <[k := v]> (rw_header w);
         rw_body := rw_body w |}
  | EWrite body =>
      {| rw_status := rw_status w; rw_header := rw_header w;
         rw_body := rw_body w +:+ body |}
  | _ => w
  end.

(** What the client's writer holds after a run. *)
Definition client_view (w : ResponseWriter) (trace : list effect)
    : ResponseWriter :=
  fold_left apply_effect trace w.

(** What [Handler] gives back: its three results, or a run-time panic
    (indexing an empty header value). *)
Inductive handler_result : Type :=
| Return (err : option ErrorWithStatusCode) (usage : option Usage)
         (text : string)
| Panic.

(** Go's [int] addition on a 64-bit platform. *)
Definition int_add (a b : Z) : Z :=
  ((a + b + 2 ^ 63) mod 2 ^ 64 - 2 ^ 63)%Z.

Section Handler.
Context `{Collaborators}.

Definition wrapped (err code : string) : handler_result :=
  Return (Some (ErrorWrapper err code StatusInternalServerError)) None "".

(** Lines 173-175: each choice overwrites the text, the last one stays. *)
Definition lastChoiceText (choices : list TextResponseChoice) : string :=
  fold_left (fun _ choice => StringContent (Message_ choice)) choices "".

Definition set_content (choice : TextResponseChoice) (encoded : string)
    : TextResponseChoice :=
  {| Index := Index choice;
     Message_ := {| Role := Role (Message_ choice); Content := encoded |};
     TFinishReason := TFinishReason choice |}.

(** Lines 178-186: the loop over the choices, which stops at the first
    encoding error. *)
Fixpoint append_fixed (fixedContent : string)
    (choices : list TextResponseChoice)
    : result (list TextResponseChoice) * list effect :=
  match choices with
  | [] => (Ok [], [])
  | choice :: rest =>
      let modifiedContent :=
        StringContent (Message_ choice) +:+ LFLF +:+ fixedContent in
      match jsonMarshal (JStr modifiedContent) with
      | Failed err => (Failed err, [EMarshal (JStr modifiedContent)])
      | Ok encodedContent =>
          let '(r, trace) := append_fixed fixedContent rest in
          (match r with
           | Ok rest' => Ok (set_content choice encodedContent :: rest')
           | Failed err => Failed err
           end,
           EMarshal (JStr modifiedContent) :: trace)
      end
  end.

(** Lines 177-187. *)
Definition inject_fixed (fixedContent : string) (r : SlimTextResponse)
    : result SlimTextResponse * list effect :=
  if negb (String.eqb fixedContent "") then
    let '(cs, trace) := append_fixed fixedContent (TChoices r) in
    (match cs with
     | Ok choices =>
         Ok {| TChoices := choices; TUsage := TUsage r; TError := TError r |}
     | Failed err => Failed err
     end, trace)
  else (Ok r, []).

(** Lines 190-197. *)
Definition backfill_usage (promptTokens : Z) (model responseText : string)
    (r : SlimTextResponse) : SlimTextResponse * list effect :=
  if (TotalTokens (TUsage r) =? 0)%Z then
    let completionTokens := CountTokenText responseText model in
    ({| TChoices := TChoices r;
        TUsage := {| PromptTokens := promptTokens;
                     CompletionTokens := completionTokens;
                     TotalTokens := int_add promptTokens completionTokens |};
        TError := TError r |},
     [ECountTokenText responseText model])
  else (r, []).

(** Lines 207-209 over the entries in the order of the iteration; [v[0]]
    panics on an empty slice. *)
Fixpoint copy_headers (entries : list (string * list string))
    : bool * list effect :=
  match entries with
  | [] => (true, [])
  | (k, v) :: rest =>
      match v with
      | [] => (false, [])
      | v0 :: _ =>
          let '(ok, trace) := copy_headers rest in
          (ok, EHeaderSet k v0 :: trace)
      end
  end.

(** Lines 199-215. *)
Definition write_response (resp : Response) (writeErr : option string)
    (responseText : string) (r : SlimTextResponse)
    : handler_result * list effect :=
  match marshalResponse r with
  | Failed err =>
      (wrapped err "remarshal_response_body_failed", [EMarshalResponse r])
  | Ok modifiedResponseBody =>
      let '(ok, sets) := copy_headers (map_to_list (resp_Header resp)) in
      let before_write :=
        [EMarshalResponse r; EWriteHeader (resp_StatusCode resp)] ++ sets in
      if ok then
        match writeErr with
        | Some err =>
            (wrapped err "write_modified_response_body_failed",
             before_write ++ [EWriteFailed modifiedResponseBody])
        | None =>
            (Return None (Some (TUsage r)) responseText,
             before_write ++ [EWrite modifiedResponseBody])
        end
      else (Panic, before_write)
  end.

(** [Handler]; [writeErr] is the outcome of [c.Writer.Write]. *)
Definition Handler (resp : Response) (writeErr : option string)
    (promptTokens : Z) (model : string) (fixedContent : string)
    : handler_result * list effect :=
  match resp_Body resp with
  | Failed err => (wrapped err "read_response_body_failed", [])
  | Ok responseBody =>
      match resp_Close resp with
      | Some err => (wrapped err "close_response_body_failed", [])
      | None =>
          match unmarshalResponse responseBody with
          | Failed err => (wrapped err "unmarshal_response_body_failed", [])
          | Ok textResponse =>
              if negb (String.eqb (Error_Type (TError textResponse)) "") then
                (Return (Some {| Err := TError textResponse;
                                 StatusCode := resp_StatusCode resp |})
                        None "", [])
              else
                let responseText := lastChoiceText (TChoices textResponse) in
                let '(injected, trace1) :=
                  inject_fixed fixedContent textResponse in
                match injected with
                | Failed err =>
                    (wrapped err "encode_modified_content_failed", trace1)
                | Ok textResponse1 =>
                    let '(textResponse2, trace2) :=
                      backfill_usage promptTokens model responseText
                        textResponse1 in
                    let '(res, trace3) :=
                      write_response resp writeErr responseText
                        textResponse2 in
                    (res, trace1 ++ trace2 ++ trace3)
                end
          end
      end
  end.

End Handler.

(** ** A reference JSON codec

    The theorems below hold for every codec.  To run the model on concrete
    frames a small codec is provided: a recursive-descent reader for JSON
    texts made of objects, arrays, strings with the short escapes, integers
    and the three literals, and a printer that writes object keys in sorted
    order without white space, as [json.Marshal] does for maps. *)

Module RefCodec.

Definition is_ws (c : ascii) : bool :=
  let n := nat_of_ascii c in
  (n =? 32)%nat || (n =? 9)%nat || (n =? 10)%nat || (n =? 13)%nat.

Fixpoint skip_ws (s : string) : string :=
  match s with
  | String c r => if is_ws c then skip_ws r else s
  | EmptyString => EmptyString
  end.

Definition is_digit (c : ascii) : bool :=
  let n := nat_of_ascii c in (48 <=? n)%nat && (n <=? 57)%nat.

Definition unescape (c : ascii) : option ascii :=
  match nat_of_ascii c with
  | 34 => Some c          (* quote *)
  | 92 => Some c          (* backslash *)
  | 47 => Some c          (* slash *)
  | 110 => Some (ascii_of_nat 10)
  | 114 => Some (ascii_of_nat 13)
  | 116 => Some (ascii_of_nat 9)
  | 98 => Some (ascii_of_nat 8)
  | 102 => Some (ascii_of_nat 12)
  | _ => None
  end.

(** The characters after an opening quote, up to the closing one. *)
Fixpoint read_string (s : string) : option (string * string) :=
  match s with
  | EmptyString => None
  | String c r =>
      match nat_of_ascii c with
      | 34 => Some (EmptyString, r)
      | 92 =>
          match r with
          | String e r' =>
              match unescape e, read_string r' with
              | Some d, Some (body, rest) => Some (String d body, rest)
              | _, _ => None
              end
          | EmptyString => None
          end
      | n =>
          if (n <? 32)%nat then None
          else match read_string r with
               | Some (body, rest) => Some (String c body, rest)
               | None => None
               end
      end
  end.

Fixpoint read_digits (acc : Z) (s : string) : Z * string :=
  match s with
  | String c r =>
      if is_digit c
      then read_digits (10 * acc + Z.of_nat (nat_of_ascii c - 48)) r
      else (acc, s)
  | EmptyString => (acc, s)
  end.

Definition starts_with_digit (s : string) : bool :=
  match s with String c _ => is_digit c | EmptyString => false end.

Definition read_literal (lit : string) (v : json) (s : string)
    : option (json * string) :=
  if GoString.HasPrefix s lit
  then Some (v, GoString.drop (String.length lit) s) else None.

Fixpoint read_value (fuel : nat) (s : string) : option (json * string) :=
  match fuel with
  | O => None
  | S fuel' =>
      match skip_ws s with
      | EmptyString => None
      | String c r =>
          match nat_of_ascii c with
          | 110 => read_literal "null" JNull (String c r)
          | 116 => read_literal "true" (JBool true) (String c r)
          | 102 => read_literal "false" (JBool false) (String c r)
          | 34 =>
              match read_string r with
              | Some (body, rest) => Some (JStr body, rest)
              | None => None
              end
          | 45 =>
              if starts_with_digit r
              then let '(n, rest) := read_digits 0 r in Some (JNum (- n), rest)
              else None
          | 91 =>
              match skip_ws r with
              | String d r' =>
                  if (nat_of_ascii d =? 93)%nat then Some (JArr [], r')
                  else match read_elements fuel' (String d r') with
                       | Some (items, rest) => Some (JArr items, rest)
                       | None => None
                       end
              | EmptyString => None
              end
          | 123 =>
              match skip_ws r with
              | String d r' =>
                  if (nat_of_ascii d =? 125)%nat then Some (JObj [], r')
                  else match read_members fuel' (String d r') with
                       | Some (fields, rest) => Some (JObj fields, rest)
                       | None => None
                       end
              | EmptyString => None
              end
          | _ =>
              if is_digit c
              then let '(n, rest) := read_digits 0 (String c r) in
                   Some (JNum n, rest)
              else None
          end
      end
  end
with read_elements (fuel : nat) (s : string) : option (list json * string) :=
  match fuel with
  | O => None
  | S fuel' =>
      match read_value fuel' s with
      | Some (v, rest) =>
          match skip_ws rest with
          | String c r =>
              match nat_of_ascii c with
              | 93 => Some ([v], r)
              | 44 =>
                  match read_elements fuel' r with
                  | Some (vs, rest') => Some (v :: vs, rest')
                  | None => None
                  end
              | _ => None
              end
          | EmptyString => None
          end
      | None => None
      end
  end
with read_members (fuel : nat) (s : string)
    : option (list (string * json) * string) :=
  match fuel with
  | O => None
  | S fuel' =>
      match skip_ws s with
      | String q r =>
          if (nat_of_ascii q =? 34)%nat then
            match read_string r with
            | Some (key, rest) =>
                match skip_ws rest with
                | String colon rest1 =>
                    if (nat_of_ascii colon =? 58)%nat then
                      match read_value fuel' rest1 with
                      | Some (v, rest2) =>
                          match skip_ws rest2 with
                          | String c r2 =>
                              match nat_of_ascii c with
                              | 125 => Some ([(key, v)], r2)
                              | 44 =>
                                  match read_members fuel' r2 with
                                  | Some (kvs, rest') =>
                                      Some ((key, v) :: kvs, rest')
                                  | None => None
                                  end
                              | _ => None
                              end
                          | EmptyString => None
                          end
                      | None => None
                      end
                    else None
                | EmptyString => None
                end
            | None => None
            end
          else None
      | EmptyString => None
      end
  end.

(** A whole text: one value, then white space only. *)
Definition parse (s : string) : option json :=
  match read_value (2 * String.length s + 2) s with
  | Some (v, rest) =>
      match skip_ws rest with
      | EmptyString => Some v
      | String _ _ => None
      end
  | None => None
  end.

(** *** From values to the response records *)

(** The value of a key; a later duplicate overrides an earlier one. *)
Fixpoint field (k : string) (fs : list (string * json)) : option json :=
  match fs with
  | [] => None
  | (k', v) :: rest =>
      match field k rest with
      | Some v' => Some v'
      | None => if String.eqb k k' then Some v else None
      end
  end.

(** A string field: absent or null leaves the zero value. *)
Definition string_field (k : string) (fs : list (string * json))
    : option string :=
  match field k fs with
  | None | Some JNull => Some ""
  | Some (JStr s) => Some s
  | Some _ => None
  end.

Definition nullable_string_field (k : string) (fs : list (string * json))
    : option (option string) :=
  match field k fs with
  | None | Some JNull => Some None
  | Some (JStr s) => Some (Some s)
  | Some _ => None
  end.

Definition int_field (k : string) (fs : list (string * json)) : option Z :=
  match field k fs with
  | None | Some JNull => Some 0%Z
  | Some (JNum n) => Some n
  | Some _ => None
  end.

Definition object_field (k : string) (fs : list (string * json))
    : option (list (string * json)) :=
  match field k fs with
  | None | Some JNull => Some []
  | Some (JObj o) => Some o
  | Some _ => None
  end.

Definition array_field (k : string) (fs : list (string * json))
    : option (list json) :=
  match field k fs with
  | None | Some JNull => Some []
  | Some (JArr l) => Some l
  | Some _ => None
  end.

Definition as_object (v : json) : option (list (string * json)) :=
  match v with
  | JNull => Some []
  | JObj o => Some o
  | _ => None
  end.

(** [mapM] over [option]. *)
Fixpoint sequence {A B} (f : A -> option B) (l : list A) : option (list B) :=
  match l with
  | [] => Some []
  | x :: r =>
      match f x, sequence f r with
      | Some y, Some ys => Some (y :: ys)
      | _, _ => None
      end
  end.

Definition chat_choice_of (v : json)
    : option ChatCompletionsStreamResponseChoice :=
  match as_object v with
  | Some o =>
      match object_field "delta" o with
      | Some d =>
          match string_field "content" d, nullable_string_field "finish_reason" o with
          | Some c, Some r => Some {| Delta_Content := c; FinishReason := r |}
          | _, _ => None
          end
      | None => None
      end
  | None => None
  end.

Definition decodeChat (s : string) : option ChatCompletionsStreamResponse :=
  match parse s with
  | Some v =>
      match as_object v with
      | Some o =>
          match array_field "choices" o with
          | Some items =>
              match sequence chat_choice_of items with
              | Some cs => Some {| Choices := cs |}
              | None => None
              end
          | None => None
          end
      | None => None
      end
  | None => None
  end.

Definition completions_choice_of (v : json)
    : option CompletionsStreamResponseChoice :=
  match as_object v with
  | Some o =>
      match string_field "text" o, string_field "finish_reason" o with
      | Some t, Some r => Some {| Text := t; CFinishReason := r |}
      | _, _ => None
      end
  | None => None
  end.

Definition decodeCompletions (s : string)
    : option CompletionsStreamResponse :=
  match parse s with
  | Some v =>
      match as_object v with
      | Some o =>
          match array_field "choices" o with
          | Some items =>
              match sequence completions_choice_of items with
              | Some cs => Some {| CChoices := cs |}
              | None => None
              end
          | None => None
          end
      | None => None
      end
  | None => None
  end.

(** *** Printing *)

Definition QUOTE : ascii := ascii_of_nat 34.
Definition BACKSLASH : ascii := ascii_of_nat 92.

Definition hex_digit (n : nat) : ascii :=
  ascii_of_nat (if (n <? 10)%nat then 48 + n else 87 + n).

Definition unicode_escape (n : nat) : string :=
  String BACKSLASH
    (String "u" (String "0" (String "0"
      (String (hex_digit (n / 16)) (String (hex_digit (n mod 16)) ""))))).

Definition escape_char (c : ascii) : string :=
  match nat_of_ascii c with
  | 34 => String BACKSLASH (String QUOTE "")
  | 92 => String BACKSLASH (String BACKSLASH "")
  | 10 => String BACKSLASH "n"
  | 13 => String BACKSLASH "r"
  | 9 => String BACKSLASH "t"
  | 60 => unicode_escape 60
  | 62 => unicode_escape 62
  | 38 => unicode_escape 38
  | n => if (n <? 32)%nat then unicode_escape n else String c ""
  end.

Fixpoint escape (s : string) : string :=
  match s with
  | EmptyString => EmptyString
  | String c r => escape_char c +:+ escape r
  end.

Definition quoted (s : string) : string :=
  String QUOTE (escape s +:+ String QUOTE "").

Fixpoint insert_sorted (kv : string * string) (l : list (string * string))
    : list (string * string) :=
  match l with
  | [] => [kv]
  | kv' :: r =>
      if String.leb (fst kv) (fst kv') then kv :: l
      else kv' :: insert_sorted kv r
  end.

Fixpoint join (sep : string) (l : list string) : string :=
  match l with
  | [] => ""
  | [x] => x
  | x :: r => x +:+ sep +:+ join sep r
  end.

Fixpoint print (v : json) : string :=
  match v with
  | JNull => "null"
  | JBool true => "true"
  | JBool false => "false"
  | JNum n => pretty n
  | JStr s => quoted s
  | JArr items => "[" +:+ join "," (map print items) +:+ "]"
  | JObj fields =>
      let printed :=
        (fix go (fs : list (string * json)) : list (string * string) :=
           match fs with
           | [] => []
           | (k, x) :: r => insert_sorted (k, print x) (go r)
           end) fields in
      "{" +:+ join "," (map (fun kv => quoted (fst kv) +:+ ":" +:+ snd kv) printed)
          +:+ "}"
  end.

(** *** The full-body response *)

Definition usage_of (o : list (string * json)) : option Usage :=
  match int_field "prompt_tokens" o, int_field "completion_tokens" o,
        int_field "total_tokens" o with
  | Some p, Some c, Some t =>
      Some {| PromptTokens := p; CompletionTokens := c; TotalTokens := t |}
  | _, _, _ => None
  end.

Definition error_of (o : list (string * json)) : option Error :=
  match string_field "message" o, string_field "type" o with
  | Some m, Some t => Some {| Error_Message := m; Error_Type := t |}
  | _, _ => None
  end.

(** The content is kept as JSON text; the reference codec keeps its
    printed form. *)
Definition message_of (o : list (string * json)) : option Message :=
  match string_field "role" o with
  | Some r =>
      Some {| Role := r;
              Content := match field "content" o with
                         | Some v => print v
                         | None => ""
                         end |}
  | None => None
  end.

Definition text_choice_of (v : json) : option TextResponseChoice :=
  match as_object v with
  | Some o =>
      match int_field "index" o, object_field "message" o,
            string_field "finish_reason" o with
      | Some i, Some m, Some r =>
          match message_of m with
          | Some msg =>
              Some {| Index := i; Message_ := msg; TFinishReason := r |}
          | None => None
          end
      | _, _, _ => None
      end
  | None => None
  end.

Definition response_of (v : json) : option SlimTextResponse :=
  match as_object v with
  | Some o =>
      match array_field "choices" o, object_field "usage" o,
            object_field "error" o with
      | Some items, Some u, Some e =>
          match sequence text_choice_of items, usage_of u, error_of e with
          | Some cs, Some us, Some er =>
              Some {| TChoices := cs; TUsage := us; TError := er |}
          | _, _, _ => None
          end
      | _, _, _ => None
      end
  | None => None
  end.

Definition decodeResponse (s : string) : result SlimTextResponse :=
  match parse s with
  | Some v =>
      match response_of v with
      | Some r => Ok r
      | None => Failed "json: cannot unmarshal value"
      end
  | None => Failed "invalid character"
  end.

(** The content as a string when it is a JSON string, its bytes
    otherwise. *)
Definition contentString (m : Message) : string :=
  match parse (Content m) with
  | Some (JStr s) => s
  | _ => Content m
  end.

Definition raw (text : string) : string :=
  if String.eqb text "" then "null" else text.

Definition print_choice (c : TextResponseChoice) : string :=
  "{" +:+ quoted "index" +:+ ":" +:+ pretty (Index c) +:+ ","
      +:+ quoted "message" +:+ ":{"
      +:+ quoted "role" +:+ ":" +:+ quoted (Role (Message_ c)) +:+ ","
      +:+ quoted "content" +:+ ":" +:+ raw (Content (Message_ c)) +:+ "},"
      +:+ quoted "finish_reason" +:+ ":" +:+ quoted (TFinishReason c) +:+ "}".

Definition encodeResponse (r : SlimTextResponse) : result string :=
  Ok ("{" +:+ quoted "choices" +:+ ":["
            +:+ join "," (map print_choice (TChoices r)) +:+ "],"
            +:+ quoted "usage" +:+ ":{"
            +:+ quoted "prompt_tokens" +:+ ":" +:+ pretty (PromptTokens (TUsage r)) +:+ ","
            +:+ quoted "completion_tokens" +:+ ":" +:+ pretty (CompletionTokens (TUsage r)) +:+ ","
            +:+ quoted "total_tokens" +:+ ":" +:+ pretty (TotalTokens (TUsage r)) +:+ "},"
            +:+ quoted "error" +:+ ":{"
            +:+ quoted "message" +:+ ":" +:+ quoted (Error_Message (TError r)) +:+ ","
            +:+ quoted "type" +:+ ":" +:+ quoted (Error_Type (TError r)) +:+ "}}").

(** A toy token counter: one token per four bytes, rounded up. *)
Definition countTokens (text model : string) : Z :=
  (Z.of_nat (String.length text) + 3) / 4.

Definition wrapError (err code : string) (status : Z) : ErrorWithStatusCode :=
  {| Err := {| Error_Message := err; Error_Type := "one_api_error" |};
     StatusCode := status |}.

(** Single quotes stand for double quotes in the sample texts below. *)
Fixpoint dq (s : string) : string :=
  match s with
  | EmptyString => EmptyString
  | String c r =>
      String (if (nat_of_ascii c =? 39)%nat then QUOTE else c) (dq r)
  end.

#[export] Instance reference : Collaborators := {|
  EOFWithLastRead := false;
  RelayModeChatCompletions := 1%Z;
  RelayModeCompletions := 2%Z;
  unmarshalChat := decodeChat;
  unmarshalCompletions := decodeCompletions;
  jsonMarshal := fun v => Ok (print v);
  GetUUID := fun k => "uuid-" +:+ pretty k;
  GetTimestamp := fun k => (1700000000 + Z.of_nat k)%Z;
  ErrorWrapper := wrapError;
  unmarshalResponse := decodeResponse;
  marshalResponse := encodeResponse;
  StringContent := contentString;
  CountTokenText := countTokens
|}.

End RefCodec.

(** ** Vocabulary of the claims *)

(** In-order concatenation. *)
Definition joined (l : list string) : string := fold_right String.append "" l.

Definition count_injected (out : list sent) : nat :=
  length (List.filter is_injected out).

Definition count_forwarded (out : list sent) : nat :=
  length (List.filter is_forwarded out).

(** The delta content of the single choice of a message such as
    [GenerateFixedContentMessage] builds. *)
Definition synthetic_delta_content (v : json) : option string :=
  match v with
  | JObj top =>
      match RefCodec.field "choices" top with
      | Some (JArr [JObj choice]) =>
          match RefCodec.field "delta" choice with
          | Some (JObj delta) =>
              match RefCodec.field "content" delta with
              | Some (JStr s) => Some s
              | _ => None
              end
          | _ => None
          end
      | _ => None
      end
  | _ => None
  end.

(** The spellings of the terminal marker: the bare form the frame filter
    admits (line 73) and the event form (lines 87 and 134). *)
Definition terminal_marker (s : string) : bool :=
  GoString.HasPrefix s "[DONE]" || GoString.HasPrefix s doneSignal.

(** Exactly one terminal marker, and in canonical form. *)
Definition exactly_one_canonical_marker (events : list string) : Prop :=
  length (List.filter terminal_marker events) = 1%nat
  /\ Forall (fun e => terminal_marker e = true -> e = doneSignal) events.

Section ChatStreams.
Context `{Collaborators}.

(** A delta frame of a chat-mode stream: an event payload line whose
    JSON decodes, other than the terminal marker. *)
Definition chat_delta (data : string)
    : option ChatCompletionsStreamResponse :=
  if GoString.HasPrefix data "data: " && negb (String.eqb data doneSignal)
  then unmarshalChat (GoString.drop 6 data)
  else None.

Definition is_stop_choice (c : ChatCompletionsStreamResponseChoice) : bool :=
  match FinishReason c with
  | Some r => String.eqb r "stop"
  | None => false
  end.

Definition has_stop (r : ChatCompletionsStreamResponse) : bool :=
  existsb is_stop_choice (Choices r).

Definition is_chat_delta (data : string) : bool :=
  match chat_delta data with Some _ => true | None => false end.

(** The delta contents of a frame, choice by choice. *)
Definition delta_contents (data : string) : list string :=
  match chat_delta data with
  | Some r => map Delta_Content (Choices r)
  | None => []
  end.

(** A bare terminal marker: a line that begins [[DONE]] without the
    event prefix, the second spelling that the filter of line 73 lets
    through. *)
Definition is_bare_marker (data : string) : bool :=
  GoString.HasPrefix data "[DONE]".

(** A delta frame or a bare terminal marker. *)
Definition delta_or_bare_marker (data : string) : bool :=
  is_chat_delta data || is_bare_marker data.

(** A frame of a well-formed chat-mode stream without finish-reason
    stop: a delta frame none of whose choices stops, the terminal marker
    in either spelling ([data: [DONE]] or the bare [[DONE]]), or a line
    the relay ignores (shorter than six bytes, or with neither prefix). *)
Definition well_formed_no_stop (data : string) : Prop :=
  (exists r, chat_delta data = Some r /\ has_stop r = false)
  \/ data = doneSignal
  \/ is_bare_marker data = true
  \/ (String.length data < 6)%nat
  \/ (GoString.HasPrefix data "data: " = false
      /\ GoString.HasPrefix data "[DONE]" = false).
End ChatStreams.

Section StopVocabulary.
Context `{Collaborators}.
Variable relayMode : Z.
Variable fixedContent : string.

(** The last frame of the input that passes the filters, if any. *)
Fixpoint last_accepted (frames : list string) : option string :=
  match frames with
  | [] => None
  | d :: rest =>
      match last_accepted rest with
      | Some x => Some x
      | None => if accepted d then Some d else None
      end
  end.

(** The stop-carrying frame is the last accepted frame of the input. *)
Definition stop_is_last (frames : list string) : bool :=
  match last_accepted frames with
  | Some d => carries_stop relayMode d
  | None => false
  end.

(** The output in which each stop-carrying frame is replaced by a
    synthetic message and every other frame is forwarded if it is
    forwardable; [k] numbers the synthetic messages. *)
Fixpoint stops_replaced (k : nat) (frames : list string) : list sent :=
  match frames with
  | [] => []
  | d :: rest =>
      if carries_stop relayMode d
      then Injected (GenerateFixedContentMessage k fixedContent)
           :: stops_replaced (S k) rest
      else (if forwardable relayMode d then [Forwarded d] else [])
           ++ stops_replaced k rest
  end.
End StopVocabulary.

(** The kinds of calls in a trace of [Handler]. *)
Definition is_count_tokens (e : effect) : bool :=
  match e with ECountTokenText _ _ => true | _ => false end.

Definition is_marshal (e : effect) : bool :=
  match e with EMarshal _ => true | _ => false end.

Definition is_header_set (e : effect) : bool :=
  match e with EHeaderSet _ _ => true | _ => false end.

(** The calls that reach the client's writer. *)
Definition is_writer_effect (e : effect) : bool :=
  match e with
  | EWriteHeader _ | EHeaderSet _ _ | EWrite _ | EWriteFailed _ => true
  | _ => false
  end.

(** ** Sample frames *)

Module Samples.
Import RefCodec.

(** A delta frame with content [Hi] and no finish reason. *)
Definition frame_hi : string :=
  "data: "
  +:+ dq "{'choices':[{'delta':{'content':'Hi'},'finish_reason':null}]}".

(** A delta frame with content [ there] and no finish reason. *)
Definition frame_there : string :=
  "data: "
  +:+ dq "{'choices':[{'delta':{'content':' there'},'finish_reason':null}]}".

(** A delta frame with content [ there] and finish reason stop. *)
Definition frame_there_stop : string :=
  "data: "
  +:+ dq "{'choices':[{'delta':{'content':' there'},'finish_reason':'stop'}]}".

(** The decoded forms. *)
Definition delta (content : string) (reason : option string)
    : ChatCompletionsStreamResponse :=
  {| Choices := [ {| Delta_Content := content; FinishReason := reason |} ] |}.
End Samples.

(** ** Sample responses *)

Module ResponseSamples.
Import RefCodec.

(** One choice with content [Hello]; upstream reports no usage. *)
Definition body_no_usage : string :=
  dq ("{'choices':[{'index':0,'message':{'role':'assistant',"
      +:+ "'content':'Hello'},'finish_reason':'stop'}],"
      +:+ "'usage':{'prompt_tokens':0,'completion_tokens':0,"
      +:+ "'total_tokens':0}}").

(** The same choice; upstream reports 9 + 2 = 11 tokens. *)
Definition body_with_usage : string :=
  dq ("{'choices':[{'index':0,'message':{'role':'assistant',"
      +:+ "'content':'Hello'},'finish_reason':'stop'}],"
      +:+ "'usage':{'prompt_tokens':9,'completion_tokens':2,"
      +:+ "'total_tokens':11}}").

(** An upstream error. *)
Definition body_error : string :=
  dq "{'error':{'message':'bad key','type':'invalid_request_error'}}".

Definition headers : gmap string (list string) :=
  <["Content-Type" := ["application/json"]]>
    (<["X-Request-Id" := ["abc"; "def"]]> ∅).

Definition response (status : Z) (body : string) : Response :=
  {| resp_Body := Ok body;
     resp_Close := None;
     resp_StatusCode := status;
     resp_Header := headers |}.

Definition hello : SlimTextResponse :=
  {| TChoices := [ {| Index := 0;
                      Message_ := {| Role := "assistant";
                                     Content := quoted "Hello" |};
                      TFinishReason := "stop" |} ];
     TUsage := {| PromptTokens := 9; CompletionTokens := 2;
                  TotalTokens := 11 |};
     TError := {| Error_Message := ""; Error_Type := "" |} |}.
End ResponseSamples.

(** ** Vocabulary of the further properties *)

(** The last byte of [s] is [c]. *)
Fixpoint ends_with_char (c : ascii) (s : string) : bool :=
  match s with
  | EmptyString => false
  | String a EmptyString => Ascii.eqb a c
  | String _ rest => ends_with_char c rest
  end.

Fixpoint contains_char (c : ascii) (s : string) : bool :=
  match s with
  | EmptyString => false
  | String a rest => Ascii.eqb a c || contains_char c rest
  end.

(** The body made of the given lines, each ended by a line feed. *)
Definition unlines (lines : list string) : string :=
  fold_right (fun l acc => l +:+ String GoString.LF acc) "" lines.

(** A line the scanner can hold: no line feed inside, and short enough
    to sit in the buffer together with the line feed that ends it. *)
Definition short_line (l : string) : Prop :=
  contains_char GoString.LF l = false
  /\ (N.of_nat (String.length l) < MaxScanTokenSize)%N.

(** A line the scanner cannot hold: no line feed among at least
    [MaxScanTokenSize] bytes. *)
Definition too_long_line (l : string) : Prop :=
  contains_char GoString.LF l = false
  /\ (MaxScanTokenSize <= N.of_nat (String.length l))%N.

(** The upstream frames among the values sent, in the order sent. *)
Definition forwarded_frames (out : list sent) : list string :=
  flat_map (fun x => match x with Forwarded d => [d] | _ => [] end) out.

Section CompletionsStreams.
Context `{Collaborators}.

(** An event of a legacy-completion stream: an event payload line whose
    JSON decodes, other than the terminal marker. *)
Definition completions_delta (data : string)
    : option CompletionsStreamResponse :=
  if GoString.HasPrefix data "data: " && negb (String.eqb data doneSignal)
  then unmarshalCompletions (GoString.drop 6 data)
  else None.

Definition completions_has_stop (r : CompletionsStreamResponse) : bool :=
  existsb (fun c => String.eqb (CFinishReason c) "stop") (CChoices r).

(** The text fragments of a frame, choice by choice. *)
Definition completions_texts (data : string) : list string :=
  match completions_delta data with
  | Some r => map Text (CChoices r)
  | None => []
  end.
End CompletionsStreams.

(** The member [key] of the top-level object of a JSON text, printed in
    canonical form (fields in key order, no insignificant white space).
    Two texts whose members [key] are byte-identical except for the order
    of their fields have the same canonical member. *)
Definition canonical_member (key body : string) : option string :=
  match RefCodec.parse body with
  | Some (JObj fields) =>
      option_map RefCodec.print (RefCodec.field key fields)
  | _ => None
  end.

(** The codes under which [Handler] wraps its own failures. *)
Definition handler_error_codes : list string :=
  [ "read_response_body_failed"; "close_response_body_failed";
    "unmarshal_response_body_failed"; "encode_modified_content_failed";
    "remarshal_response_body_failed"; "write_modified_response_body_failed" ].

(** ** Further samples *)

Module MoreSamples.
Import RefCodec.

(** Two choices, [Hello] and [Bye]; upstream reports its usage. *)
Definition body_two_choices : string :=
  dq ("{'choices':[{'index':0,'message':{'role':'assistant',"
      +:+ "'content':'Hello'},'finish_reason':'stop'},"
      +:+ "{'index':1,'message':{'role':'assistant',"
      +:+ "'content':'Bye'},'finish_reason':'length'}],"
      +:+ "'usage':{'prompt_tokens':9,'completion_tokens':3,"
      +:+ "'total_tokens':12}}").

Definition choice (i : Z) (content reason : string) : TextResponseChoice :=
  {| Index := i;
     Message_ := {| Role := "assistant"; Content := quoted content |};
     TFinishReason := reason |}.

Definition two_choices : SlimTextResponse :=
  {| TChoices := [ choice 0 "Hello" "stop"; choice 1 "Bye" "length" ];
     TUsage := {| PromptTokens := 9; CompletionTokens := 3;
                  TotalTokens := 12 |};
     TError := {| Error_Message := ""; Error_Type := "" |} |}.

(** A writer on which a middleware has already set a header. *)
Definition writer_with_cors : ResponseWriter :=
  {| rw_status := 0;
     rw_header := <["Access-Control-Allow-Origin" := "*"]> ∅;
     rw_body := "" |}.

(** Legacy-completion events. *)
Definition completion_hi : string :=
  "data: " +:+ dq "{'choices':[{'text':'Hi','finish_reason':''}]}".

Definition completion_there_stop : string :=
  "data: " +:+ dq "{'choices':[{'text':' there','finish_reason':'stop'}]}".
(** The response of [ResponseSamples.body_with_usage] whose choice has
    one more member, [logprobs], which [SlimTextResponse] does not
    declare. *)
Definition body_with_logprobs : string :=
  dq ("{'choices':[{'index':0,'message':{'role':'assistant',"
      +:+ "'content':'Hello'},'logprobs':null,'finish_reason':'stop'}],"
      +:+ "'usage':{'prompt_tokens':9,'completion_tokens':2,"
      +:+ "'total_tokens':11}}").

(** What the reference codec writes for [ResponseSamples.hello]. *)
Definition written_hello : string :=
  dq ("{'choices':[{'index':0,'message':{'role':'assistant',"
      +:+ "'content':'Hello'},'finish_reason':'stop'}],"
      +:+ "'usage':{'prompt_tokens':9,'completion_tokens':2,"
      +:+ "'total_tokens':11},'error':{'message':'','type':''}}").

(** The response of [ResponseSamples.response] with one more header key,
    under which there is no value. *)
Definition response_empty_header (status : Z) (body : string) : Response :=
  {| resp_Body := Ok body;
     resp_Close := None;
     resp_StatusCode := status;
     resp_Header := <["X-Empty" := []]> ResponseSamples.headers |}.

(** A line of 65536 bytes, none of them a line feed. *)
Definition long_line : string :=
  string_of_list_ascii (List.repeat "a"%char (N.to_nat MaxScanTokenSize)).

End MoreSamples.

(** * Properties *)

(** ** Strings *)

Module GoStringFacts.
Import GoString.

Lemma app_cons c (a b : string) : String c a +:+ b = String c (a +:+ b).
Proof. reflexivity. Qed.

Lemma app_nil_r (a : string) : a +:+ "" = a.
Proof. induction a as [|c a IH]; [reflexivity|]. rewrite app_cons. now f_equal. Qed.

Lemma app_assoc (a b c : string) : (a +:+ b) +:+ c = a +:+ (b +:+ c).
Proof.
  induction a as [|x a IH]; [reflexivity|]. rewrite !app_cons. now f_equal.
Qed.

Lemma HasPrefix_cons c d s p :
  HasPrefix (String d s) (String c p) = true <-> c = d /\ HasPrefix s p = true.
Proof.
  unfold HasPrefix; simpl. destruct (ascii_dec c d) as [->|Hne]; split.
  - intros Hp; split; [reflexivity | exact Hp].
  - intros [_ Hp]; exact Hp.
  - discriminate.
  - intros [E _]; contradiction.
Qed.

Lemma HasPrefix_nil s : HasPrefix s "" = true.
Proof. now destruct s. Qed.

Lemma HasPrefix_app p s : HasPrefix (p +:+ s) p = true.
Proof.
  induction p as [|c p IH]; [apply HasPrefix_nil|].
  rewrite app_cons. apply HasPrefix_cons. split; [reflexivity | exact IH].
Qed.

Lemma HasPrefix_split s p :
  HasPrefix s p = true -> s = p +:+ drop (String.length p) s.
Proof.
  revert s; induction p as [|c p IH]; intros s Hp; [reflexivity|].
  destruct s as [|d s]; [discriminate|].
  apply HasPrefix_cons in Hp as [-> Hp].
  rewrite app_cons. simpl. f_equal. now apply IH.
Qed.

Lemma take_app_exact p s : take (String.length p) (p +:+ s) = p.
Proof.
  induction p as [|c p IH]; [now destruct s|].
  rewrite app_cons. simpl. now f_equal.
Qed.

Lemma drop_app_exact p s : drop (String.length p) (p +:+ s) = s.
Proof.
  induction p as [|c p IH]; [reflexivity|]. rewrite app_cons. exact IH.
Qed.

Lemma length_app p s :
  String.length (p +:+ s) = (String.length p + String.length s)%nat.
Proof.
  induction p as [|c p IH]; [reflexivity|].
  rewrite app_cons. simpl. now f_equal.
Qed.

Lemma take_take_prefix n s p :
  take n s = p -> String.length p = n -> HasPrefix s p = true.
Proof.
  revert s p; induction n as [|n IH]; intros s p Ht Hl.
  - destruct p; [apply HasPrefix_nil | discriminate].
  - destruct s as [|d s]; simpl in Ht; subst p; [discriminate|].
    apply HasPrefix_cons. split; [reflexivity|].
    apply IH; [reflexivity | now injection Hl].
Qed.

End GoStringFacts.

Arguments GoString.take : simpl never.
Arguments GoString.drop : simpl never.

(** ** The frame splitter *)

(** Two events separated by a blank line, the second ended by a carriage
    return and a line feed: the blank line is a token of its own and the
    carriage return stays on its line. *)
Example scanLines_events (eofWithData : bool) :
  scan_from eofWithData ""
    ("data: a" +:+ String GoString.LF (String GoString.LF
       ("data: b" +:+ String GoString.CR (String GoString.LF ""))))
  = ["data: a"; ""; "data: b" +:+ String GoString.CR ""].
Proof. reflexivity. Qed.

(** A last line without line feed is a token; an empty rest is not. *)
Example scanLines_last_line (eofWithData : bool) :
  scan_from eofWithData "" ("x" +:+ String GoString.LF "[DONE]")
  = ["x"; "[DONE]"]
  /\ scan_from eofWithData "" ("x" +:+ String GoString.LF "") = ["x"]
  /\ scan_from eofWithData "" "" = [].
Proof. repeat split; reflexivity. Qed.

(** ** The frame loop *)

Section StreamFacts.
Context `{Collaborators}.
Variable relayMode : Z.

Abbreviation need := needInjectFixedMessageBeforeNextSend.

Lemma chat_fold_shift cs st :
  fold_left chat_choice cs st =
  {| need := need st || need (fold_left chat_choice cs scan_init);
     responseText :=
       responseText st +:+ responseText (fold_left chat_choice cs scan_init);
     generated := generated st |}.
Proof.
  revert st; induction cs as [|c cs IH]; intros st.
  - destruct st as [n t g]; simpl.
    now rewrite orb_false_r, GoStringFacts.app_nil_r.
  - simpl. rewrite IH. rewrite (IH (chat_choice scan_init c)).
    destruct st as [n t g]; unfold chat_choice; simpl.
    f_equal.
    + destruct (FinishReason c) as [r|]; [destruct (String.eqb r "stop")|];
        simpl; now destruct n.
    + now rewrite GoStringFacts.app_assoc.
Qed.

Lemma completions_fold_shift cs st :
  fold_left completions_choice cs st =
  {| need := need st || need (fold_left completions_choice cs scan_init);
     responseText :=
       responseText st
       +:+ responseText (fold_left completions_choice cs scan_init);
     generated := generated st |}.
Proof.
  revert st; induction cs as [|c cs IH]; intros st.
  - destruct st as [n t g]; simpl.
    now rewrite orb_false_r, GoStringFacts.app_nil_r.
  - simpl. rewrite IH. rewrite (IH (completions_choice scan_init c)).
    destruct st as [n t g]; unfold completions_choice; simpl.
    f_equal.
    + destruct (String.eqb (CFinishReason c) "stop"); simpl; now destruct n.
    + now rewrite GoStringFacts.app_assoc.
Qed.

(** Parsing a frame acts on the state by raising the flag and appending
    text; whether it skips the frame depends on the frame alone. *)
Lemma parse_frame_shift data st :
  parse_frame relayMode data st =
  match parse_frame relayMode data scan_init with
  | None => None
  | Some s0 =>
      Some {| need := need st || need s0;
              responseText := responseText st +:+ responseText s0;
              generated := generated st |}
  end.
Proof.
  assert (Hid : Some st =
                Some {| need := need st || false;
                        responseText := responseText st +:+ "";
                        generated := generated st |}).
  { destruct st as [n t g]; simpl.
    now rewrite orb_false_r, GoStringFacts.app_nil_r. }
  unfold parse_frame.
  destruct (String.eqb (GoString.take 6 data) "data: "); [|exact Hid].
  destruct (String.eqb data "data: [DONE]"); [reflexivity|].
  destruct (relayMode =? RelayModeChatCompletions)%Z.
  { destruct (unmarshalChat _) as [r|]; [|reflexivity].
    now rewrite chat_fold_shift. }
  destruct (relayMode =? RelayModeCompletions)%Z; [|exact Hid].
  destruct (unmarshalCompletions _) as [r|]; [|reflexivity].
  now rewrite completions_fold_shift.
Qed.

Variable fixedContent : string.

Abbreviation body := (loop_body relayMode fixedContent).
Abbreviation loop := (scan_loop relayMode fixedContent).

Lemma loop_body_ignored st data :
  accepted data = false -> body st data = (st, []).
Proof.
  unfold accepted, loop_body.
  remember (GoString.take 6 data) as p. intros Hacc.
  destruct (String.length data <? 6)%nat; [reflexivity|].
  rewrite andb_true_l in Hacc.
  apply orb_false_iff in Hacc as [-> ->]. reflexivity.
Qed.

(** One iteration on an accepted frame, in closed form.  The pending
    flag is consumed only when the fixed content is non-empty. *)
Lemma loop_body_accepted st data :
  accepted data = true ->
  let fires := need st && negb (String.eqb fixedContent "") in
  let stuck := need st && String.eqb fixedContent "" in
  body st data =
  ({| need := stuck || carries_stop relayMode data;
      responseText := responseText st +:+ frame_text relayMode data;
      generated := if fires then S (generated st) else generated st |},
   (if fires
    then [Injected (GenerateFixedContentMessage (generated st) fixedContent)]
    else [])
   ++ (if negb stuck && forwardable relayMode data
       then [Forwarded data] else [])).
Proof.
  intros Hacc. unfold carries_stop, forwardable, frame_text.
  rewrite Hacc. cbn zeta. unfold loop_body.
  unfold accepted in Hacc. apply andb_true_iff in Hacc as [Hlen Hpre].
  apply negb_true_iff in Hlen. rewrite Hlen.
  rewrite <- negb_orb, Hpre.
  unfold inject_before_send, send_unless_pending.
  destruct st as [n t g]; cbn [negb needInjectFixedMessageBeforeNextSend
                               responseText generated andb orb].
  destruct n; cbn [negb andb orb].
  - destruct (String.eqb fixedContent ""); simpl.
    + rewrite parse_frame_shift.
      destruct (parse_frame relayMode data scan_init) as [s0|]; simpl.
      * reflexivity.
      * now rewrite GoStringFacts.app_nil_r.
    + rewrite parse_frame_shift.
      destruct (parse_frame relayMode data scan_init) as [s0|]; simpl.
      * destruct (need s0); reflexivity.
      * now rewrite GoStringFacts.app_nil_r.
  - rewrite parse_frame_shift.
    destruct (parse_frame relayMode data scan_init) as [s0|]; simpl.
    + destruct (need s0); reflexivity.
    + now rewrite GoStringFacts.app_nil_r.
Qed.

Lemma scan_loop_cons st data rest :
  loop st (data :: rest) =
  (fst (loop (fst (body st data)) rest),
   snd (body st data) ++ snd (loop (fst (body st data)) rest)).
Proof.
  simpl. destruct (body st data) as [st1 out1]. simpl.
  destruct (loop st1 rest) as [st2 out2]. reflexivity.
Qed.

Lemma scan_loop_app st a b :
  loop st (a ++ b) =
  (fst (loop (fst (loop st a)) b),
   snd (loop st a) ++ snd (loop (fst (loop st a)) b)).
Proof.
  revert st; induction a as [|d a IH]; intros st.
  - simpl. now destruct (loop st b).
  - rewrite <- app_comm_cons, !scan_loop_cons, IH. simpl.
    now rewrite app_assoc.
Qed.

Lemma scan_loop_ignored st skipped :
  Forall (fun d => accepted d = false) skipped ->
  loop st skipped = (st, []).
Proof.
  induction 1 as [|d l Hd _ IH]; [reflexivity|].
  rewrite scan_loop_cons, (loop_body_ignored _ _ Hd). simpl.
  now rewrite IH.
Qed.

End StreamFacts.

(** ** Streams without finish-reason stop *)

Section PlainStreams.
Context `{Collaborators}.
Variable relayMode : Z.
Variable fixedContent : string.

Abbreviation need := needInjectFixedMessageBeforeNextSend.
Abbreviation loop := (scan_loop relayMode fixedContent).

(** With no injection pending and no stop-carrying frame, the loop
    forwards every forwardable frame, adds every frame's text and leaves
    the flag down. *)
Lemma scan_loop_plain st frames :
  need st = false ->
  Forall (fun d => carries_stop relayMode d = false) frames ->
  loop st frames =
  ({| need := false;
      responseText :=
        responseText st +:+ joined (map (frame_text relayMode) frames);
      generated := generated st |},
   map Forwarded (List.filter (forwardable relayMode) frames)).
Proof.
  intros Hneed Hall. revert st Hneed.
  induction Hall as [|d l Hd _ IH]; intros st Hneed.
  - destruct st as [n t g]; simpl in *; subst n.
    now rewrite GoStringFacts.app_nil_r.
  - rewrite scan_loop_cons.
    destruct (accepted d) eqn:Hacc.
    + rewrite (loop_body_accepted _ _ _ _ Hacc), Hneed, Hd. simpl.
      rewrite IH by reflexivity. simpl.
      rewrite GoStringFacts.app_assoc.
      destruct (forwardable relayMode d); reflexivity.
    + rewrite (loop_body_ignored _ _ _ _ Hacc). simpl.
      rewrite IH by exact Hneed.
      assert (Hf : forwardable relayMode d = false)
        by (unfold forwardable; now rewrite Hacc).
      assert (Ht : frame_text relayMode d = "")
        by (unfold frame_text; now rewrite Hacc).
      simpl. now rewrite Hf, Ht.
Qed.

End PlainStreams.

(** ** Chat-mode frames *)

Section ChatFacts.
Context `{Collaborators}.
Variable fixedContent : string.

Abbreviation need := needInjectFixedMessageBeforeNextSend.
Abbreviation chat := RelayModeChatCompletions.

Lemma joined_app a b : joined (a ++ b) = joined a +:+ joined b.
Proof.
  induction a as [|x a IH]; [reflexivity|].
  simpl. rewrite IH. now rewrite GoStringFacts.app_assoc.
Qed.

Lemma chat_fold_init cs :
  fold_left chat_choice cs scan_init =
  {| need := existsb is_stop_choice cs;
     responseText := joined (map Delta_Content cs);
     generated := 0 |}.
Proof.
  induction cs as [|c cs IH]; [reflexivity|].
  simpl. rewrite chat_fold_shift, IH. unfold chat_choice, is_stop_choice.
  simpl. f_equal.
  destruct (FinishReason c) as [r|]; [destruct (String.eqb r "stop")|];
    reflexivity.
Qed.

Lemma prefixed_accepted data :
  GoString.HasPrefix data "data: " = true ->
  (String.length data <? 6)%nat = false
  /\ String.eqb (GoString.take 6 data) "data: " = true.
Proof.
  intros Hp. pose proof (GoStringFacts.HasPrefix_split _ _ Hp) as Hs.
  split.
  - apply Nat.ltb_ge. rewrite Hs, GoStringFacts.length_app. simpl. lia.
  - apply String.eqb_eq. rewrite Hs.
    apply (GoStringFacts.take_app_exact "data: ").
Qed.

Lemma chat_delta_parse data r :
  chat_delta data = Some r ->
  accepted data = true
  /\ parse_frame chat data scan_init =
     Some (fold_left chat_choice (Choices r) scan_init).
Proof.
  unfold chat_delta. intros Hd.
  destruct (GoString.HasPrefix data "data: ") eqn:Hp; [|discriminate].
  destruct (String.eqb data doneSignal) eqn:Hm; [discriminate|].
  simpl in Hd. destruct (prefixed_accepted _ Hp) as [Hlen Htake].
  split.
  - unfold accepted. now rewrite Hlen, Htake.
  - unfold parse_frame. rewrite Htake. unfold doneSignal in Hm. rewrite Hm.
    rewrite Z.eqb_refl, Hd. reflexivity.
Qed.

Lemma not_prefixed_ignored data :
  GoString.HasPrefix data "data: " = false ->
  GoString.HasPrefix data "[DONE]" = false ->
  accepted data = false.
Proof.
  intros H1 H2. unfold accepted.
  destruct (String.eqb (GoString.take 6 data) "data: ") eqn:E1.
  { apply String.eqb_eq in E1.
    rewrite (GoStringFacts.take_take_prefix 6 data "data: " E1 eq_refl) in H1.
    discriminate. }
  destruct (String.eqb (GoString.take 6 data) "[DONE]") eqn:E2.
  { apply String.eqb_eq in E2.
    rewrite (GoStringFacts.take_take_prefix 6 data "[DONE]" E2 eq_refl) in H2.
    discriminate. }
  now rewrite andb_false_r.
Qed.

Lemma short_not_prefixed data p :
  (String.length data < String.length p)%nat ->
  GoString.HasPrefix data p = false.
Proof.
  intros Hlen. destruct (GoString.HasPrefix data p) eqn:Hp; [|reflexivity].
  apply GoStringFacts.HasPrefix_split in Hp. rewrite Hp in Hlen.
  rewrite GoStringFacts.length_app in Hlen. lia.
Qed.

(** How the loop sees a delta frame. *)
Lemma chat_delta_frame data r :
  chat_delta data = Some r ->
  accepted data = true
  /\ carries_stop chat data = has_stop r
  /\ forwardable chat data = negb (has_stop r)
  /\ frame_text chat data = joined (map Delta_Content (Choices r)).
Proof.
  intros Hd. destruct (chat_delta_parse _ _ Hd) as [Hacc Hparse].
  unfold carries_stop, forwardable, frame_text.
  rewrite Hacc, Hparse, chat_fold_init. repeat split; reflexivity.
Qed.

(** How the loop sees a bare terminal marker: it passes the filters, is
    not parsed, and is no delta frame. *)
Lemma bare_marker_frame data :
  is_bare_marker data = true ->
  accepted data = true
  /\ parse_frame chat data scan_init = Some scan_init
  /\ chat_delta data = None.
Proof.
  unfold is_bare_marker. intros Hp.
  pose proof (GoStringFacts.HasPrefix_split _ _ Hp) as Hs.
  assert (Hlen : (String.length data <? 6)%nat = false).
  { apply Nat.ltb_ge. rewrite Hs, GoStringFacts.length_app. simpl. lia. }
  assert (Htake : GoString.take 6 data = "[DONE]").
  { rewrite Hs. apply (GoStringFacts.take_app_exact "[DONE]"). }
  assert (Hdata : GoString.HasPrefix data "data: " = false).
  { destruct (GoString.HasPrefix data "data: ") eqn:Hd; [|reflexivity].
    rewrite Hs in Hd. rewrite GoStringFacts.app_cons in Hd.
    apply GoStringFacts.HasPrefix_cons in Hd as [Hc _]. discriminate Hc. }
  split; [|split].
  - unfold accepted. now rewrite Hlen, Htake.
  - unfold parse_frame. now rewrite Htake.
  - unfold chat_delta. now rewrite Hdata.
Qed.

(** A delta frame is no bare terminal marker. *)
Lemma chat_delta_not_bare data :
  is_chat_delta data = true -> is_bare_marker data = false.
Proof.
  unfold is_chat_delta, chat_delta, is_bare_marker.
  destruct (GoString.HasPrefix data "data: ") eqn:Hp; [|discriminate].
  intros _. apply GoStringFacts.HasPrefix_split in Hp.
  destruct (GoString.HasPrefix data "[DONE]") eqn:Hd; [|reflexivity].
  rewrite Hp in Hd. rewrite GoStringFacts.app_cons in Hd.
  apply GoStringFacts.HasPrefix_cons in Hd as [Hc _]. discriminate Hc.
Qed.

(** How the loop sees a frame of a well-formed stop-free chat stream. *)
Lemma well_formed_frame data :
  well_formed_no_stop data ->
  carries_stop chat data = false
  /\ forwardable chat data = delta_or_bare_marker data
  /\ frame_text chat data = joined (delta_contents data).
Proof.
  unfold carries_stop, forwardable, frame_text, delta_or_bare_marker,
    is_chat_delta, delta_contents.
  intros [(r & Hd & Hstop) | [-> | [Hbare | [Hshort | [Hp1 Hp2]]]]].
  - destruct (chat_delta_parse _ _ Hd) as [Hacc Hparse].
    rewrite Hacc, Hparse, Hd, chat_fold_init. simpl.
    unfold has_stop in Hstop. now rewrite Hstop.
  - split; [reflexivity|]. split; reflexivity.
  - destruct (bare_marker_frame _ Hbare) as (Hacc & Hparse & Hnone).
    rewrite Hacc, Hparse, Hnone, Hbare. repeat split; reflexivity.
  - assert (Hacc : accepted data = false).
    { unfold accepted. apply Nat.ltb_lt in Hshort. now rewrite Hshort. }
    assert (Hnone : chat_delta data = None).
    { unfold chat_delta.
      now rewrite (short_not_prefixed data "data: ") by exact Hshort. }
    assert (Hbare : is_bare_marker data = false).
    { unfold is_bare_marker.
      now rewrite (short_not_prefixed data "[DONE]") by exact Hshort. }
    now rewrite Hacc, Hnone, Hbare.
  - rewrite (not_prefixed_ignored _ Hp1 Hp2).
    unfold chat_delta, is_bare_marker. now rewrite Hp1, Hp2.
Qed.

Lemma well_formed_run frames :
  Forall well_formed_no_stop frames ->
  scan_loop chat fixedContent scan_init frames =
  ({| need := false;
      responseText := joined (flat_map delta_contents frames);
      generated := 0 |},
   map Forwarded (List.filter delta_or_bare_marker frames)).
Proof.
  intros Hwf.
  assert (Ht : joined (map (frame_text chat) frames)
               = joined (flat_map delta_contents frames)).
  { induction Hwf as [|d l Hd _ IH]; [reflexivity|].
    simpl. rewrite joined_app, IH.
    now destruct (well_formed_frame _ Hd) as (_ & _ & ->). }
  assert (Hf : List.filter (forwardable chat) frames
               = List.filter delta_or_bare_marker frames).
  { clear Ht. induction Hwf as [|d l Hd _ IH]; [reflexivity|].
    simpl. rewrite IH.
    destruct (well_formed_frame _ Hd) as (_ & -> & _).
    reflexivity. }
  rewrite scan_loop_plain; [|reflexivity|].
  - rewrite Ht, Hf. reflexivity.
  - eapply Forall_impl; [exact Hwf|].
    intros d Hd. now destruct (well_formed_frame _ Hd).
Qed.

(** Delta frames and bare markers are counted apart. *)
Lemma delta_or_bare_count frames :
  length (List.filter delta_or_bare_marker frames)
  = (length (List.filter is_chat_delta frames)
     + length (List.filter is_bare_marker frames))%nat.
Proof.
  induction frames as [|d l IH]; [reflexivity|].
  cbn [List.filter]. unfold delta_or_bare_marker at 1.
  destruct (is_chat_delta d) eqn:Hd.
  - rewrite (chat_delta_not_bare _ Hd). cbn [orb length]. now rewrite IH.
  - cbn [orb]. destruct (is_bare_marker d); cbn [length]; rewrite IH; lia.
Qed.

(** Without bare markers only the delta frames are left. *)
Lemma delta_or_bare_no_marker frames :
  List.filter is_bare_marker frames = [] ->
  List.filter delta_or_bare_marker frames = List.filter is_chat_delta frames.
Proof.
  induction frames as [|d l IH]; [reflexivity|].
  cbn [List.filter]. unfold delta_or_bare_marker at 1.
  destruct (is_bare_marker d); [discriminate|].
  intros Hl. rewrite orb_false_r.
  destruct (is_chat_delta d); now rewrite (IH Hl).
Qed.

End ChatFacts.


(** ** Claim C5 *)

Section ClaimC5.
Context `{Collaborators}.

(** C5 (amended).  For every well-formed chat-mode stream whose N delta
    frames all lack finish-reason stop, whatever the fixed content: the
    producer sends the N delta frames and, as they are, the B bare
    [[DONE]] lines of upstream, N + B frames in input order, and then the
    closing signal [data: [DONE]]; nothing is injected; and the text
    returned is the in-order concatenation of all delta contents.  When
    upstream sends no bare [[DONE]] line (its terminal marker, if any, is
    spelled [data: [DONE]]), the frames sent are exactly the N delta
    frames and the client receives N + 1 events. *)
Theorem no_stop_stream_forwards_all (fixedContent : string)
    (frames : list string) :
  Forall well_formed_no_stop frames ->
  snd (producer RelayModeChatCompletions fixedContent frames)
  = map Forwarded (List.filter delta_or_bare_marker frames)
    ++ [DoneSignal]
  /\ count_forwarded
       (snd (producer RelayModeChatCompletions fixedContent frames))
     = (length (List.filter is_chat_delta frames)
        + length (List.filter is_bare_marker frames))%nat
  /\ count_injected
       (snd (producer RelayModeChatCompletions fixedContent frames)) = 0%nat
  /\ StreamHandler_frames RelayModeChatCompletions fixedContent frames None
     = (None,
        joined (flat_map delta_contents frames),
        map render (List.filter delta_or_bare_marker frames)
        ++ [doneSignal])
  /\ (List.filter is_bare_marker frames = [] ->
      snd (producer RelayModeChatCompletions fixedContent frames)
      = map Forwarded (List.filter is_chat_delta frames) ++ [DoneSignal]
      /\ client_stream RelayModeChatCompletions fixedContent frames
         = map render (List.filter is_chat_delta frames) ++ [doneSignal]
      /\ length (client_stream RelayModeChatCompletions fixedContent frames)
         = S (length (List.filter is_chat_delta frames))).
Proof.
  intros Hwf.
  assert (Hrun := well_formed_run fixedContent frames Hwf).
  assert (Hout : snd (producer RelayModeChatCompletions fixedContent frames)
                 = map Forwarded
                     (List.filter delta_or_bare_marker frames)
                   ++ [DoneSignal]).
  { unfold producer. now rewrite Hrun. }
  assert (Hcount : forall l : list string,
             count_forwarded (map Forwarded l ++ [DoneSignal]) = length l
             /\ count_injected (map Forwarded l ++ [DoneSignal]) = 0%nat).
  { unfold count_forwarded, count_injected.
    induction l as [|x l [IH1 IH2]]; [split; reflexivity|].
    simpl. rewrite IH1, IH2. split; reflexivity. }
  split; [exact Hout|].
  split.
  { rewrite Hout, (proj1 (Hcount _)). apply delta_or_bare_count. }
  split; [rewrite Hout; apply Hcount|].
  assert (Hstream :
            client_stream RelayModeChatCompletions fixedContent frames
            = map render (List.filter delta_or_bare_marker frames)
              ++ [doneSignal]).
  { unfold client_stream. rewrite Hout, map_app, map_map. reflexivity. }
  split.
  - unfold StreamHandler_frames, stream_text. rewrite Hstream.
    unfold producer. rewrite Hrun. reflexivity.
  - intros Hnone. rewrite Hstream, Hout.
    rewrite (delta_or_bare_no_marker frames Hnone).
    repeat split. rewrite length_app, length_map. simpl. lia.
Qed.

End ClaimC5.

Lemma no_stop_stream_forwards_all_witness :
  Forall (well_formed_no_stop (H := RefCodec.reference))
    [Samples.frame_hi; ""; Samples.frame_there; ""; "[DONE]"]
  /\ StreamHandler_frames (H := RefCodec.reference) 1 "Ad text"
       [Samples.frame_hi; ""; Samples.frame_there; ""; "[DONE]"] None
     = (None, "Hi there",
        [Samples.frame_hi; Samples.frame_there; "[DONE]"; doneSignal]).
Proof.
  assert (Hwf : Forall (well_formed_no_stop (H := RefCodec.reference))
                  [Samples.frame_hi; ""; Samples.frame_there; ""; "[DONE]"]).
  { apply List.Forall_cons.
    { left. exists (Samples.delta "Hi" None). split; vm_compute; reflexivity. }
    apply List.Forall_cons; [right; right; right; left; simpl; lia|].
    apply List.Forall_cons.
    { left. exists (Samples.delta " there" None).
      split; vm_compute; reflexivity. }
    apply List.Forall_cons; [right; right; right; left; simpl; lia|].
    apply List.Forall_cons; [right; right; left; reflexivity|].
    apply List.Forall_nil. }
  split; [exact Hwf|].
  destruct (no_stop_stream_forwards_all (H := RefCodec.reference)
              "Ad text" _ Hwf) as (_ & _ & _ & Hres & _).
  etransitivity; [exact Hres|]. vm_compute. reflexivity.
Defined.

(** C5, as stated, fails on the code: a well-formed stream of two delta
    frames without finish-reason stop that upstream ends with the bare
    [[DONE]] marker has three of its frames forwarded, not two, and the
    client receives two terminal markers, not one. *)
Lemma bare_marker_stream_counterexample :
  Forall (well_formed_no_stop (H := RefCodec.reference))
    [Samples.frame_hi; Samples.frame_there; "[DONE]"]
  /\ length (List.filter (is_chat_delta (H := RefCodec.reference))
               [Samples.frame_hi; Samples.frame_there; "[DONE]"]) = 2%nat
  /\ count_forwarded
       (snd (producer (H := RefCodec.reference) 1 ""
               [Samples.frame_hi; Samples.frame_there; "[DONE]"])) = 3%nat
  /\ client_stream (H := RefCodec.reference) 1 ""
       [Samples.frame_hi; Samples.frame_there; "[DONE]"]
     = [Samples.frame_hi; Samples.frame_there; "[DONE]"; "data: [DONE]"]
  /\ length (List.filter terminal_marker
               (client_stream (H := RefCodec.reference) 1 ""
                  [Samples.frame_hi; Samples.frame_there; "[DONE]"]))
     = 2%nat.
Proof.
  split.
  { apply List.Forall_cons.
    { left. exists (Samples.delta "Hi" None). split; vm_compute; reflexivity. }
    apply List.Forall_cons.
    { left. exists (Samples.delta " there" None).
      split; vm_compute; reflexivity. }
    apply List.Forall_cons; [right; right; left; reflexivity|].
    apply List.Forall_nil. }
  repeat split; vm_compute; reflexivity.
Qed.

(** ** The accumulated text and the pending flag *)

Section FlagFacts.
Context `{Collaborators}.
Variable relayMode : Z.
Variable fixedContent : string.

Abbreviation need := needInjectFixedMessageBeforeNextSend.
Abbreviation loop := (scan_loop relayMode fixedContent).

(** The text is the concatenation of what each frame adds, whatever the
    fixed content and the state of the flag. *)
Lemma scan_loop_text st frames :
  responseText (fst (loop st frames))
  = responseText st +:+ joined (map (frame_text relayMode) frames).
Proof.
  revert st; induction frames as [|d l IH]; intros st.
  - simpl. now rewrite GoStringFacts.app_nil_r.
  - rewrite scan_loop_cons. cbn [fst]. rewrite IH.
    destruct (accepted d) eqn:Hacc.
    + rewrite (loop_body_accepted _ _ _ _ Hacc). simpl.
      now rewrite GoStringFacts.app_assoc.
    + rewrite (loop_body_ignored _ _ _ _ Hacc). simpl.
      unfold frame_text. rewrite Hacc. reflexivity.
Qed.

Lemma carries_stop_accepted d :
  carries_stop relayMode d = true -> accepted d = true.
Proof. unfold carries_stop. now intros [? _]%andb_true_iff. Qed.

Lemma carries_stop_not_forwardable d :
  carries_stop relayMode d = true -> forwardable relayMode d = false.
Proof.
  unfold carries_stop, forwardable.
  destruct (accepted d); [|discriminate]. simpl.
  destruct (parse_frame relayMode d scan_init) as [s0|]; [|discriminate].
  now intros ->.
Qed.

(** With empty fixed content a raised flag is never lowered, and while
    it is up nothing is sent. *)
Lemma empty_content_latch st frames :
  fixedContent = "" ->
  need st = true ->
  need (fst (loop st frames)) = true /\ snd (loop st frames) = [].
Proof.
  intros Hfc.
  assert (Hempty : String.eqb fixedContent "" = true)
    by (rewrite Hfc; reflexivity).
  revert st; induction frames as [|d l IH]; intros st Hneed.
  - split; [exact Hneed | reflexivity].
  - rewrite scan_loop_cons. cbn [fst snd].
    destruct (accepted d) eqn:Hacc.
    + rewrite (loop_body_accepted _ _ _ _ Hacc), Hneed, Hempty. simpl.
      apply IH. reflexivity.
    + rewrite (loop_body_ignored _ _ _ _ Hacc). simpl.
      apply IH. exact Hneed.
Qed.

(** With empty fixed content no synthetic message is sent. *)
Lemma empty_content_never_injects st frames :
  fixedContent = "" -> count_injected (snd (loop st frames)) = 0%nat.
Proof.
  intros Hfc.
  assert (Hempty : String.eqb fixedContent "" = true)
    by (rewrite Hfc; reflexivity).
  unfold count_injected.
  revert st; induction frames as [|d l IH]; intros st; [reflexivity|].
  rewrite scan_loop_cons. cbn [snd].
  rewrite List.filter_app, length_app, IH.
  destruct (accepted d) eqn:Hacc.
  - rewrite (loop_body_accepted _ _ _ _ Hacc), Hempty. cbn [snd].
    rewrite andb_false_r. simpl.
    now destruct (negb (need st && true) && forwardable relayMode d).
  - now rewrite (loop_body_ignored _ _ _ _ Hacc).
Qed.

(** With empty fixed content, a stop-carrying frame and every frame
    after it are withheld from the client. *)
Lemma empty_content_truncates pre s post :
  fixedContent = "" ->
  carries_stop relayMode s = true ->
  snd (producer relayMode fixedContent (pre ++ s :: post))
  = snd (loop scan_init pre) ++ [DoneSignal].
Proof.
  intros Hfc Hs.
  assert (Hempty : String.eqb fixedContent "" = true)
    by (rewrite Hfc; reflexivity).
  unfold producer.
  destruct (loop scan_init (pre ++ s :: post)) as [st out] eqn:Hrun.
  cbn [snd]. f_equal.
  rewrite scan_loop_app, scan_loop_cons in Hrun.
  injection Hrun as _ <-.
  set (st1 := fst (loop scan_init pre)).
  pose proof (carries_stop_accepted _ Hs) as Hacc.
  pose proof (carries_stop_not_forwardable _ Hs) as Hnf.
  rewrite (loop_body_accepted _ _ _ _ Hacc), Hs, Hnf, Hempty. cbn [fst snd].
  rewrite orb_true_r, andb_false_r, andb_false_r. simpl.
  destruct (empty_content_latch
              {| need := true;
                 responseText := responseText st1 +:+ frame_text relayMode s;
                 generated := generated st1 |} post Hfc eq_refl)
    as [_ ->].
  now rewrite app_nil_r.
Qed.

End FlagFacts.

(** ** Claim C1 *)

(** C1 (the code departs from the claim).  Chat mode, empty fixed content,
    frames: a delta, a delta with finish-reason stop, a further delta, the
    terminal marker.  Nothing is injected, but the flag raised by the stop
    stays up: the stop-carrying frame and the well-formed delta after it
    never reach the client, which receives the first delta and the closing
    marker only. *)
Theorem empty_content_stop_withholds_frames :
  producer (H := RefCodec.reference) 1 ""
    [Samples.frame_hi; Samples.frame_there_stop; Samples.frame_hi; doneSignal]
  = ({| needInjectFixedMessageBeforeNextSend := true;
        responseText := "Hi thereHi";
        generated := 0 |},
     [Forwarded Samples.frame_hi; DoneSignal])
  /\ client_stream (H := RefCodec.reference) 1 ""
       [Samples.frame_hi; Samples.frame_there_stop; Samples.frame_hi;
        doneSignal]
     = [Samples.frame_hi; doneSignal]
  /\ forwardable (H := RefCodec.reference) 1 Samples.frame_hi = true.
Proof. repeat split; vm_compute; reflexivity. Qed.

(** ** Claim C2 *)

Section ClaimC2.
Context `{Collaborators}.
Variable relayMode : Z.
Variable fixedContent : string.

Abbreviation need := needInjectFixedMessageBeforeNextSend.
Abbreviation loop := (scan_loop relayMode fixedContent).

(** A pending injection fires at the next accepted frame, ahead of
    whatever that frame and its successors send. *)
Lemma pending_injection_fires st skipped n post :
  fixedContent <> "" ->
  need st = true ->
  Forall (fun d => accepted d = false) skipped ->
  accepted n = true ->
  snd (loop st (skipped ++ n :: post))
  = Injected (GenerateFixedContentMessage (generated st) fixedContent)
    :: snd (loop {| need := false;
                    responseText := responseText st;
                    generated := S (generated st) |} (n :: post)).
Proof.
  intros Hfc Hneed Hskip Hacc.
  assert (Hne : String.eqb fixedContent "" = false)
    by (now apply String.eqb_neq).
  rewrite scan_loop_app, (scan_loop_ignored _ _ _ _ Hskip). cbn [fst snd].
  rewrite !scan_loop_cons.
  rewrite !(loop_body_accepted _ _ _ _ Hacc), Hneed, Hne. reflexivity.
Qed.

(** The case of a single stop-carrying frame [s] that is followed, after
    lines the relay ignores, by a further accepted frame [n]: the producer
    sends the forwardable frames before [s], then exactly one synthetic
    message, then the forwardable frames from [n] on, then the closing
    signal. *)
Lemma single_stop_injects_once pre s skipped n post :
  fixedContent <> "" ->
  Forall (fun d => carries_stop relayMode d = false) pre ->
  carries_stop relayMode s = true ->
  Forall (fun d => accepted d = false) skipped ->
  accepted n = true ->
  Forall (fun d => carries_stop relayMode d = false) (n :: post) ->
  snd (producer relayMode fixedContent (pre ++ s :: skipped ++ n :: post))
  = map Forwarded (List.filter (forwardable relayMode) pre)
    ++ Injected (GenerateFixedContentMessage 0 fixedContent)
       :: map Forwarded (List.filter (forwardable relayMode) (n :: post))
    ++ [DoneSignal]
  /\ count_injected
       (snd (producer relayMode fixedContent
               (pre ++ s :: skipped ++ n :: post))) = 1%nat.
Proof.
  intros Hfc Hpre Hs Hskip Hn Hpost.
  assert (Hne : String.eqb fixedContent "" = false)
    by (now apply String.eqb_neq).
  assert (Hout :
    snd (producer relayMode fixedContent (pre ++ s :: skipped ++ n :: post))
    = map Forwarded (List.filter (forwardable relayMode) pre)
      ++ Injected (GenerateFixedContentMessage 0 fixedContent)
         :: map Forwarded (List.filter (forwardable relayMode) (n :: post))
      ++ [DoneSignal]).
  { unfold producer.
    destruct (loop scan_init (pre ++ s :: skipped ++ n :: post))
      as [st out] eqn:Hrun.
    cbn [snd]. rewrite scan_loop_app, scan_loop_cons in Hrun.
    injection Hrun as _ <-.
    rewrite (scan_loop_plain _ _ scan_init _ eq_refl Hpre). cbn [fst snd].
    rewrite (loop_body_accepted _ _ _ _ (carries_stop_accepted _ _ Hs)).
    rewrite Hs, (carries_stop_not_forwardable _ _ Hs).
    cbn [fst snd andb orb negb app generated scan_init
         needInjectFixedMessageBeforeNextSend].
    rewrite pending_injection_fires by (assumption || reflexivity).
    rewrite scan_loop_plain by (assumption || reflexivity).
    cbn [snd generated]. rewrite <- app_assoc. reflexivity. }
  split; [exact Hout|].
  rewrite Hout. unfold count_injected.
  rewrite List.filter_app, length_app. cbn [List.filter is_injected length].
  rewrite List.filter_app, length_app.
  assert (Hnone : forall l, length (List.filter is_injected (map Forwarded l))
                            = 0%nat)
    by (induction l; [reflexivity | assumption]).
  rewrite !Hnone. reflexivity.
Qed.

(** With non-empty fixed content the flag at the end of the loop is raised
    exactly when the last accepted frame carries stop. *)
Lemma final_flag st frames :
  fixedContent <> "" ->
  need (fst (loop st frames))
  = match last_accepted frames with
    | Some d => carries_stop relayMode d
    | None => need st
    end.
Proof.
  intros Hfc.
  assert (Hne : String.eqb fixedContent "" = false)
    by (now apply String.eqb_neq).
  revert st; induction frames as [|d l IH]; intros st; [reflexivity|].
  rewrite scan_loop_cons. cbn [fst last_accepted]. rewrite IH.
  destruct (last_accepted l) as [x|]; [reflexivity|].
  destruct (accepted d) eqn:Hacc.
  - rewrite (loop_body_accepted _ _ _ _ Hacc), Hne. cbn [fst need].
    now rewrite andb_false_r.
  - now rewrite (loop_body_ignored _ _ _ _ Hacc).
Qed.

(** When the loop ends with the flag down, what it sent is the input with
    each stop-carrying frame replaced by a synthetic message, after the
    message still owed for a stop seen before. *)
Lemma scan_loop_replaces_stops st frames :
  fixedContent <> "" ->
  need (fst (loop st frames)) = false ->
  snd (loop st frames)
  = (if need st
     then [Injected (GenerateFixedContentMessage (generated st) fixedContent)]
     else [])
    ++ stops_replaced relayMode fixedContent
         (if need st then S (generated st) else generated st) frames.
Proof.
  intros Hfc.
  assert (Hne : String.eqb fixedContent "" = false)
    by (now apply String.eqb_neq).
  revert st; induction frames as [|d l IH]; intros st Hend.
  - cbn [scan_loop fst] in Hend. rewrite Hend. reflexivity.
  - rewrite scan_loop_cons in Hend. rewrite scan_loop_cons.
    cbn [fst snd] in *. cbn [stops_replaced].
    destruct (accepted d) eqn:Hacc.
    + rewrite (loop_body_accepted _ _ _ _ Hacc), Hne in Hend.
      rewrite (loop_body_accepted _ _ _ _ Hacc), Hne.
      cbn [fst snd] in *. rewrite andb_false_r, andb_true_r in *.
      cbn [orb negb andb] in *.
      rewrite (IH _ Hend). cbn [need generated].
      destruct (carries_stop relayMode d) eqn:Hs.
      * rewrite (carries_stop_not_forwardable _ _ Hs).
        now rewrite app_nil_r.
      * cbn [app]. now rewrite <- app_assoc.
    + rewrite (loop_body_ignored _ _ _ _ Hacc) in Hend.
      rewrite (loop_body_ignored _ _ _ _ Hacc). cbn [fst snd app] in *.
      assert (Hs : carries_stop relayMode d = false)
        by (unfold carries_stop; now rewrite Hacc).
      assert (Hf : forwardable relayMode d = false)
        by (unfold forwardable; now rewrite Hacc).
      rewrite Hs, Hf. cbn [app]. now apply IH.
Qed.

Lemma count_stops_replaced k frames :
  count_injected (stops_replaced relayMode fixedContent k frames)
  = length (List.filter (carries_stop relayMode) frames).
Proof.
  unfold count_injected. revert k; induction frames as [|d l IH]; intros k.
  - reflexivity.
  - cbn [stops_replaced List.filter].
    destruct (carries_stop relayMode d).
    + cbn [List.filter is_injected length]. now rewrite IH.
    + rewrite List.filter_app, length_app, IH.
      now destruct (forwardable relayMode d).
Qed.

(** C2 (amended).  With non-empty fixed content, for every stream whose
    last accepted frame does not carry finish-reason stop: the client
    output holds exactly one synthetic message for each stop-carrying
    frame, so exactly one when one frame carries stop.  The stop-carrying
    frame itself is withheld and the synthetic message stands in its place:
    immediately before the next frame that is forwarded, or immediately
    before the closing signal when no later frame is forwarded. *)
Theorem each_stop_replaced_by_synthetic frames :
  fixedContent <> "" ->
  stop_is_last relayMode frames = false ->
  snd (producer relayMode fixedContent frames)
  = stops_replaced relayMode fixedContent 0 frames ++ [DoneSignal]
  /\ count_injected (snd (producer relayMode fixedContent frames))
     = length (List.filter (carries_stop relayMode) frames).
Proof.
  intros Hfc Hlast.
  assert (Hend : need (fst (loop scan_init frames)) = false).
  { rewrite final_flag by exact Hfc. unfold stop_is_last in Hlast.
    destruct (last_accepted frames); [exact Hlast | reflexivity]. }
  assert (Hout : snd (producer relayMode fixedContent frames)
                 = stops_replaced relayMode fixedContent 0 frames
                   ++ [DoneSignal]).
  { unfold producer.
    pose proof (scan_loop_replaces_stops scan_init frames Hfc Hend) as Hrun.
    destruct (loop scan_init frames) as [st out]. cbn [snd] in *.
    now rewrite Hrun. }
  split; [exact Hout|].
  rewrite Hout. unfold count_injected.
  rewrite List.filter_app, length_app. cbn [List.filter is_injected length].
  rewrite Nat.add_0_r. apply count_stops_replaced.
Qed.

End ClaimC2.

(** C2, as stated, fails on the code in two ways.  Two stop-carrying
    frames, each followed by an accepted frame, give two synthetic
    messages; and a stop-carrying frame that ends the input gives none:
    the closing signal of line 127 is sent without looking at the flag. *)
Lemma stop_frames_counterexample :
  (existsb (carries_stop (H := RefCodec.reference) 1)
     [Samples.frame_there_stop; Samples.frame_hi;
      Samples.frame_there_stop; doneSignal] = true
   /\ count_injected
        (snd (producer (H := RefCodec.reference) 1 "Ad text"
                [Samples.frame_there_stop; Samples.frame_hi;
                 Samples.frame_there_stop; doneSignal])) = 2%nat)
  /\ (existsb (carries_stop (H := RefCodec.reference) 1)
        [Samples.frame_hi; Samples.frame_there_stop] = true
      /\ snd (producer (H := RefCodec.reference) 1 "Ad text"
                [Samples.frame_hi; Samples.frame_there_stop])
         = [Forwarded Samples.frame_hi; DoneSignal]).
Proof. repeat split; vm_compute; reflexivity. Qed.

Example single_stop_injects_once_run :
  snd (producer (H := RefCodec.reference) 1 "Ad text"
         ([Samples.frame_hi] ++ Samples.frame_there_stop
            :: [""] ++ doneSignal :: []))
  = [Forwarded Samples.frame_hi;
     Injected (GenerateFixedContentMessage (H := RefCodec.reference) 0 "Ad text");
     DoneSignal]
  /\ count_injected
       (snd (producer (H := RefCodec.reference) 1 "Ad text"
               ([Samples.frame_hi] ++ Samples.frame_there_stop
                  :: [""] ++ doneSignal :: []))) = 1%nat.
Proof.
  apply (single_stop_injects_once (H := RefCodec.reference) 1 "Ad text"
           [Samples.frame_hi] Samples.frame_there_stop [""] doneSignal []).
  - discriminate.
  - apply List.Forall_cons; [vm_compute; reflexivity | apply List.Forall_nil].
  - vm_compute; reflexivity.
  - apply List.Forall_cons; [vm_compute; reflexivity | apply List.Forall_nil].
  - vm_compute; reflexivity.
  - apply List.Forall_cons; [vm_compute; reflexivity | apply List.Forall_nil].
Qed.

Lemma each_stop_replaced_by_synthetic_witness :
  snd (producer (H := RefCodec.reference) 1 "Ad text"
         [ Samples.frame_there_stop; ""; Samples.frame_hi;
           Samples.frame_there_stop; doneSignal ])
  = stops_replaced (H := RefCodec.reference) 1 "Ad text" 0
      [ Samples.frame_there_stop; ""; Samples.frame_hi;
        Samples.frame_there_stop; doneSignal ]
    ++ [DoneSignal]
  /\ count_injected
       (snd (producer (H := RefCodec.reference) 1 "Ad text"
               [ Samples.frame_there_stop; ""; Samples.frame_hi;
                 Samples.frame_there_stop; doneSignal ]))
     = length (List.filter (carries_stop (H := RefCodec.reference) 1)
                 [ Samples.frame_there_stop; ""; Samples.frame_hi;
                   Samples.frame_there_stop; doneSignal ]).
Proof.
  apply (each_stop_replaced_by_synthetic (H := RefCodec.reference)
           1 "Ad text").
  - discriminate.
  - vm_compute. reflexivity.
Defined.

(** On that input the output is: a synthetic message, the delta [Hi], a
    second synthetic message, the closing signal. *)
Example two_stops_replaced :
  stops_replaced (H := RefCodec.reference) 1 "Ad text" 0
    [ Samples.frame_there_stop; ""; Samples.frame_hi;
      Samples.frame_there_stop; doneSignal ]
  = [ Injected (GenerateFixedContentMessage (H := RefCodec.reference)
                  0 "Ad text");
      Forwarded Samples.frame_hi;
      Injected (GenerateFixedContentMessage (H := RefCodec.reference)
                  1 "Ad text") ].
Proof. vm_compute. reflexivity. Qed.

(** ** Claim C3 *)

Section ClaimC3.
Context `{Collaborators}.

(** C3 (amended).  Frames: a chat delta frame with content [Hi], a chat
    delta frame with content [ there] and finish-reason stop, a bare
    [[DONE]] frame; fixed content [Ad text].  The relay forwards frame 1,
    holds frame 2 back (it is never sent), injects at frame 3 one
    synthetic message whose delta content is two line feeds followed by
    [Ad text], forwards the bare [[DONE]] frame as it is, and closes with
    [data: [DONE]]; the returned text is [Hi there]. *)
Theorem scenario_hi_there (frame1 frame2 : string) :
  chat_delta frame1
  = Some {| Choices := [ {| Delta_Content := "Hi";
                            FinishReason := None |} ] |} ->
  chat_delta frame2
  = Some {| Choices := [ {| Delta_Content := " there";
                            FinishReason := Some "stop" |} ] |} ->
  producer RelayModeChatCompletions "Ad text" [frame1; frame2; "[DONE]"]
  = ({| needInjectFixedMessageBeforeNextSend := false;
        responseText := "Hi there";
        generated := 1 |},
     [ Forwarded frame1;
       Injected (GenerateFixedContentMessage 0 "Ad text");
       Forwarded "[DONE]";
       DoneSignal ])
  /\ synthetic_delta_content
       (fixedContentMap (GetUUID 0) (GetTimestamp 0) "Ad text")
     = Some (LFLF +:+ "Ad text")
  /\ StreamHandler_frames RelayModeChatCompletions "Ad text"
       [frame1; frame2; "[DONE]"] None
     = (None, "Hi there",
        [ render frame1;
          render (GenerateFixedContentMessage 0 "Ad text");
          "[DONE]";
          doneSignal ]).
Proof.
  intros H1 H2.
  destruct (chat_delta_frame _ _ H1) as (Ha1 & Hs1 & Hf1 & Ht1).
  destruct (chat_delta_frame _ _ H2) as (Ha2 & Hs2 & Hf2 & Ht2).
  assert (Hrun :
    producer RelayModeChatCompletions "Ad text" [frame1; frame2; "[DONE]"]
    = ({| needInjectFixedMessageBeforeNextSend := false;
          responseText := "Hi there";
          generated := 1 |},
       [ Forwarded frame1;
         Injected (GenerateFixedContentMessage 0 "Ad text");
         Forwarded "[DONE]";
         DoneSignal ])).
  { unfold producer. rewrite !scan_loop_cons.
    rewrite (loop_body_accepted _ _ _ _ Ha1), Hs1, Hf1, Ht1.
    cbn [fst snd andb orb negb scan_init needInjectFixedMessageBeforeNextSend
         responseText generated has_stop existsb is_stop_choice Choices
         FinishReason].
    rewrite (loop_body_accepted _ _ _ _ Ha2), Hs2, Hf2, Ht2.
    cbn [fst snd andb orb negb scan_init needInjectFixedMessageBeforeNextSend
         responseText generated has_stop existsb is_stop_choice Choices
         FinishReason String.eqb Ascii.eqb Bool.eqb].
    reflexivity. }
  split; [exact Hrun|]. split; [reflexivity|].
  unfold StreamHandler_frames, client_stream, stream_text.
  rewrite Hrun. reflexivity.
Qed.

End ClaimC3.

(** C3, as stated, fails on the code: the second frame is not forwarded
    and the bare [[DONE]] frame is. *)
Lemma scenario_hi_there_counterexample :
  snd (producer (H := RefCodec.reference) 1 "Ad text"
         [Samples.frame_hi; Samples.frame_there_stop; "[DONE]"])
  <> [ Forwarded Samples.frame_hi;
       Forwarded Samples.frame_there_stop;
       Injected (GenerateFixedContentMessage (H := RefCodec.reference)
                   0 "Ad text");
       DoneSignal ].
Proof.
  intros E.
  apply (f_equal (fun out => match out with
                             | _ :: x :: _ => is_forwarded x
                             | _ => false
                             end)) in E.
  vm_compute in E. discriminate E.
Qed.

Lemma scenario_hi_there_witness :
  StreamHandler_frames (H := RefCodec.reference) 1 "Ad text"
    [Samples.frame_hi; Samples.frame_there_stop; "[DONE]"] None
  = (None, "Hi there",
     [ Samples.frame_hi;
       "data: "
       +:+ RefCodec.dq
             ("{'choices':[{'delta':{'content':'"
              +:+ String RefCodec.BACKSLASH "n"
              +:+ String RefCodec.BACKSLASH "n"
              +:+ "Ad text','role':''},'finish_reason':'stop','index':0}],"
              +:+ "'created':1700000000,'id':'chatcmpl-uuid-0',"
              +:+ "'object':'chat.completion'}");
       "[DONE]";
       doneSignal ]).
Proof.
  destruct (scenario_hi_there (H := RefCodec.reference)
              Samples.frame_hi Samples.frame_there_stop)
    as (_ & _ & Hres).
  - vm_compute; reflexivity.
  - vm_compute; reflexivity.
  - etransitivity; [exact Hres|]. vm_compute. reflexivity.
Defined.

(** ** Claim C4 *)

Section MarkerFacts.
Import GoString.

Lemma TrimSuffix_is_prefix s suffix :
  exists t, s = TrimSuffix s suffix +:+ t.
Proof.
  induction s as [|c s [t IH]].
  - exists "". now destruct suffix.
  - cbn [TrimSuffix]. destruct (String.eqb (String c s) suffix).
    + exists (String c s). reflexivity.
    + exists t. rewrite GoStringFacts.app_cons. now f_equal.
Qed.

Lemma HasPrefix_app_l a t p :
  HasPrefix a p = true -> HasPrefix (a +:+ t) p = true.
Proof.
  revert a; induction p as [|c p IH]; intros a Hp.
  - apply GoStringFacts.HasPrefix_nil.
  - destruct a as [|d a]; [discriminate|].
    apply GoStringFacts.HasPrefix_cons in Hp as [-> Hp].
    rewrite GoStringFacts.app_cons.
    apply GoStringFacts.HasPrefix_cons. split; [reflexivity | now apply IH].
Qed.

(** Rendering cannot create the marker prefix. *)
Lemma render_no_marker data :
  HasPrefix data doneSignal = false ->
  HasPrefix (render data) doneSignal = false.
Proof.
  intros Hp. unfold render. unfold doneSignal in Hp. rewrite Hp.
  destruct (HasPrefix (TrimSuffix data (String CR "")) doneSignal) eqn:E;
    [|reflexivity].
  destruct (TrimSuffix_is_prefix data (String CR "")) as [t Ht].
  apply (HasPrefix_app_l _ t) in E. rewrite <- Ht in E.
  unfold doneSignal in E. congruence.
Qed.

Lemma filter_none {A} (f : A -> bool) (l : list A) :
  Forall (fun x => f x = false) l -> List.filter f l = [].
Proof.
  induction 1 as [|x l Hx _ IH]; [reflexivity|].
  cbn [List.filter]. now rewrite Hx.
Qed.

Lemma marker_prefix_split data :
  HasPrefix data doneSignal = true ->
  String.eqb (take 6 data) "data: " = true
  /\ HasPrefix (drop 6 data) "[DONE]" = true.
Proof.
  intros Hp. apply GoStringFacts.HasPrefix_split in Hp.
  rewrite Hp. generalize (drop (String.length doneSignal) data) as t.
  intros t. split; [reflexivity|].
  change (drop 6 (doneSignal +:+ t)) with ("[DONE]" +:+ t).
  apply GoStringFacts.HasPrefix_app.
Qed.
End MarkerFacts.

Section MarkerPrefix.
Context `{Collaborators}.
Variable relayMode : Z.
Variable fixedContent : string.

Hypothesis mode_parses :
  relayMode = RelayModeChatCompletions \/ relayMode = RelayModeCompletions.
Hypothesis chat_rejects_marker :
  forall j, GoString.HasPrefix j "[DONE]" = true -> unmarshalChat j = None.
Hypothesis completions_rejects_marker :
  forall j, GoString.HasPrefix j "[DONE]" = true ->
            unmarshalCompletions j = None.
Hypothesis object_not_marker :
  forall fields j, jsonMarshal (JObj fields) = Ok j ->
                   GoString.HasPrefix j "[DONE]" = false.

Lemma marker_prefixed_not_forwardable data :
  GoString.HasPrefix data doneSignal = true ->
  forwardable relayMode data = false.
Proof using mode_parses chat_rejects_marker completions_rejects_marker.
  intros Hp. destruct (marker_prefix_split _ Hp) as [Htake Hjson].
  unfold forwardable, parse_frame. rewrite Htake.
  destruct (String.eqb data "data: [DONE]"); [apply andb_false_r|].
  destruct mode_parses as [-> | ->].
  - rewrite Z.eqb_refl, (chat_rejects_marker _ Hjson). apply andb_false_r.
  - destruct (RelayModeCompletions =? RelayModeChatCompletions)%Z.
    + rewrite (chat_rejects_marker _ Hjson). apply andb_false_r.
    + rewrite Z.eqb_refl, (completions_rejects_marker _ Hjson).
      apply andb_false_r.
Qed.

Lemma synthetic_not_marker k :
  GoString.HasPrefix (GenerateFixedContentMessage k fixedContent) doneSignal
  = false.
Proof using object_not_marker.
  unfold GenerateFixedContentMessage, fixedContentMap.
  destruct (jsonMarshal _) as [j|] eqn:Hj; [|reflexivity].
  apply object_not_marker in Hj.
  destruct (GoString.HasPrefix ("data: " +:+ j) doneSignal) eqn:E;
    [|reflexivity].
  apply marker_prefix_split in E as [_ E].
  change (GoString.drop 6 ("data: " +:+ j)) with j in E. congruence.
Qed.

(** Nothing the loop sends is rendered with the marker prefix. *)
Lemma scan_loop_sends_no_marker st frames :
  Forall (fun x => GoString.HasPrefix (render (payload x)) doneSignal = false)
    (snd (scan_loop relayMode fixedContent st frames)).
Proof using All.
  revert st; induction frames as [|d l IH]; intros st; [constructor|].
  rewrite scan_loop_cons. cbn [snd]. apply Forall_app. split; [|apply IH].
  destruct (accepted d) eqn:Hacc.
  - rewrite (loop_body_accepted _ _ _ _ Hacc). cbn [snd].
    apply Forall_app. split.
    + destruct (_ && negb _); constructor; [|constructor].
      apply render_no_marker, synthetic_not_marker.
    + destruct (forwardable relayMode d) eqn:Hf;
        [|rewrite andb_false_r; constructor].
      destruct (negb _); constructor; [|constructor].
      apply render_no_marker. cbn [payload].
      destruct (GoString.HasPrefix d doneSignal) eqn:E; [|reflexivity].
      rewrite (marker_prefixed_not_forwardable _ E) in Hf. discriminate.
  - rewrite (loop_body_ignored _ _ _ _ Hacc). constructor.
Qed.

End MarkerPrefix.

(** C4 (amended).  In chat or completions mode, with a JSON codec that
    rejects payloads beginning with [[DONE]] and encodes objects to texts
    that do not begin with it: the client stream ends with the canonical
    12-character marker [data: [DONE]], and no other event is spelled
    with that prefix, however many markers of that spelling upstream
    sent (none, one or several).  So exactly one event carries the
    event-form marker. *)
Theorem one_canonical_closing_marker `{Collaborators}
    (relayMode : Z) (fixedContent : string) (frames : list string) :
  relayMode = RelayModeChatCompletions \/ relayMode = RelayModeCompletions ->
  (forall j, GoString.HasPrefix j "[DONE]" = true -> unmarshalChat j = None) ->
  (forall j, GoString.HasPrefix j "[DONE]" = true ->
             unmarshalCompletions j = None) ->
  (forall fields j, jsonMarshal (JObj fields) = Ok j ->
                    GoString.HasPrefix j "[DONE]" = false) ->
  exists events,
    client_stream relayMode fixedContent frames = events ++ [doneSignal]
    /\ Forall (fun e => GoString.HasPrefix e doneSignal = false) events
    /\ length (List.filter (fun e => GoString.HasPrefix e doneSignal)
                 (client_stream relayMode fixedContent frames)) = 1%nat
    /\ String.length doneSignal = 12%nat.
Proof.
  intros Hmode Hchat Hcompletions Hobject.
  exists (map (fun x => render (payload x))
            (snd (scan_loop relayMode fixedContent scan_init frames))).
  assert (Hstream :
    client_stream relayMode fixedContent frames
    = map (fun x => render (payload x))
        (snd (scan_loop relayMode fixedContent scan_init frames))
      ++ [doneSignal]).
  { unfold client_stream, producer.
    destruct (scan_loop relayMode fixedContent scan_init frames) as [st out].
    cbn [snd]. rewrite map_app. reflexivity. }
  assert (Hnone :
    Forall (fun e => GoString.HasPrefix e doneSignal = false)
      (map (fun x => render (payload x))
         (snd (scan_loop relayMode fixedContent scan_init frames)))).
  { apply Forall_map.
    apply (scan_loop_sends_no_marker relayMode fixedContent
             Hmode Hchat Hcompletions Hobject). }
  split; [exact Hstream|]. split; [exact Hnone|]. split; [|reflexivity].
  rewrite Hstream, List.filter_app, length_app.
  rewrite (filter_none _ _ Hnone). reflexivity.
Qed.

(** C4, as stated, fails on the code: a bare [[DONE]] frame from upstream
    is forwarded as it is, so the client sees two terminal markers, one of
    them not in canonical form. *)
Lemma bare_marker_counterexample :
  client_stream (H := RefCodec.reference) 1 "" ["[DONE]"]
  = ["[DONE]"; "data: [DONE]"]
  /\ ~ exactly_one_canonical_marker
         (client_stream (H := RefCodec.reference) 1 "" ["[DONE]"]).
Proof.
  split; [vm_compute; reflexivity|].
  intros [Hlen _]. vm_compute in Hlen. discriminate Hlen.
Qed.

(** The reference codec meets the assumptions of C4. *)
Module RefCodecFacts.
Import RefCodec.

Lemma read_value_letter_D fuel j : read_value fuel (String "D" j) = None.
Proof. destruct fuel; reflexivity. Qed.

Lemma read_elements_letter_D fuel j :
  read_elements fuel (String "D" j) = None.
Proof.
  destruct fuel as [|fuel]; [reflexivity|].
  cbn [read_elements]. now rewrite read_value_letter_D.
Qed.

Lemma read_value_marker fuel j :
  read_value fuel (String "[" (String "D" j)) = None.
Proof.
  destruct fuel as [|fuel]; [reflexivity|].
  cbn [read_value skip_ws].
  change (is_ws "[") with false. cbn iota.
  change (nat_of_ascii "[") with 91%nat. cbn iota.
  cbn [skip_ws]. change (is_ws "D") with false. cbn iota.
  change (nat_of_ascii "D" =? 93)%nat with false. cbn iota.
  now rewrite read_elements_letter_D.
Qed.

Lemma parse_marker j :
  GoString.HasPrefix j "[DONE]" = true -> parse j = None.
Proof.
  intros Hp. destruct j as [|c j]; [discriminate|].
  apply GoStringFacts.HasPrefix_cons in Hp as [<- Hp].
  destruct j as [|c j]; [discriminate|].
  apply GoStringFacts.HasPrefix_cons in Hp as [<- _].
  unfold parse. now rewrite read_value_marker.
Qed.

Lemma decodeChat_marker j :
  GoString.HasPrefix j "[DONE]" = true -> decodeChat j = None.
Proof. intros Hp. unfold decodeChat. now rewrite (parse_marker _ Hp). Qed.

Lemma decodeCompletions_marker j :
  GoString.HasPrefix j "[DONE]" = true -> decodeCompletions j = None.
Proof.
  intros Hp. unfold decodeCompletions. now rewrite (parse_marker _ Hp).
Qed.

Lemma print_object_not_marker fields j :
  jsonMarshal (JObj fields) = Ok j -> GoString.HasPrefix j "[DONE]" = false.
Proof. intros Hj. injection Hj as <-. reflexivity. Qed.

End RefCodecFacts.

Lemma one_canonical_closing_marker_witness :
  exists events,
    client_stream (H := RefCodec.reference) 1 "Ad text"
      [ Samples.frame_hi; doneSignal; Samples.frame_there_stop;
        doneSignal +:+ String GoString.CR ""; doneSignal ]
    = events ++ [doneSignal]
    /\ Forall (fun e => GoString.HasPrefix e doneSignal = false) events
    /\ length (List.filter (fun e => GoString.HasPrefix e doneSignal)
                 (client_stream (H := RefCodec.reference) 1 "Ad text"
                    [ Samples.frame_hi; doneSignal; Samples.frame_there_stop;
                      doneSignal +:+ String GoString.CR ""; doneSignal ]))
       = 1%nat
    /\ String.length doneSignal = 12%nat.
Proof.
  apply (one_canonical_closing_marker (H := RefCodec.reference) 1 "Ad text").
  - left. reflexivity.
  - exact RefCodecFacts.decodeChat_marker.
  - exact RefCodecFacts.decodeCompletions_marker.
  - exact RefCodecFacts.print_object_not_marker.
Defined.

(** ** The full-body relay *)


Section HandlerFacts.
Context `{Collaborators}.

Lemma append_fixed_trace fixedContent choices :
  Forall (fun e => is_marshal e = true)
    (snd (append_fixed fixedContent choices)).
Proof.
  induction choices as [|c cs IH]; [constructor|].
  cbn [append_fixed]. destruct (jsonMarshal _) as [enc|err].
  - destruct (append_fixed fixedContent cs) as [r trace].
    cbn [snd] in *. constructor; [reflexivity | exact IH].
  - constructor; [reflexivity | constructor].
Qed.

Lemma inject_fixed_trace fixedContent r :
  Forall (fun e => is_marshal e = true) (snd (inject_fixed fixedContent r)).
Proof.
  unfold inject_fixed. destruct (negb _); [|constructor].
  pose proof (append_fixed_trace fixedContent (TChoices r)) as Ht.
  destruct (append_fixed fixedContent (TChoices r)) as [cs trace].
  exact Ht.
Qed.

(** Injection leaves the usage and the error record alone. *)
Lemma inject_fixed_keeps fixedContent r r' trace :
  inject_fixed fixedContent r = (Ok r', trace) ->
  TUsage r' = TUsage r /\ TError r' = TError r.
Proof.
  unfold inject_fixed. destruct (negb _).
  - destruct (append_fixed fixedContent (TChoices r)) as [[cs|err] t];
      intros E; inversion E; subst; split; reflexivity.
  - intros E; inversion E; subst; split; reflexivity.
Qed.

Lemma inject_fixed_empty r : inject_fixed "" r = (Ok r, []).
Proof. reflexivity. Qed.

Lemma copy_headers_sets entries sets :
  copy_headers entries = (true, sets) ->
  Forall (fun e => is_header_set e = true) sets
  /\ forall k vs, In (k, vs) entries ->
       exists v0 rest, vs = v0 :: rest /\ In (EHeaderSet k v0) sets.
Proof.
  revert sets; induction entries as [|[k v] l IH]; intros sets E.
  - inversion E; subst. split; [constructor | intros ? ? []].
  - cbn [copy_headers] in E. destruct v as [|v0 rest]; [discriminate|].
    destruct (copy_headers l) as [ok trace].
    inversion E; subst. destruct (IH trace eq_refl) as [IH1 IH2].
    split; [constructor; [reflexivity | exact IH1]|].
    intros k' vs [Hin | Hin].
    + inversion Hin; subst. exists v0, rest. split; [reflexivity | now left].
    + destruct (IH2 _ _ Hin) as (w0 & r0 & -> & Hs).
      exists w0, r0. split; [reflexivity | now right].
Qed.

Lemma copy_headers_keys entries sets :
  copy_headers entries = (true, sets) ->
  forall k v, In (EHeaderSet k v) sets -> In k (map fst entries).
Proof.
  revert sets; induction entries as [|[k v] l IH]; intros sets E k' v' Hin.
  - inversion E; subst. destruct Hin.
  - cbn [copy_headers] in E. destruct v as [|v0 rest]; [discriminate|].
    destruct (copy_headers l) as [ok trace].
    inversion E; subst. destruct Hin as [Hin | Hin].
    + inversion Hin; subst. now left.
    + right. eapply IH; [reflexivity | exact Hin].
Qed.

(** The successful runs of [Handler], taken apart. *)
Lemma Handler_success resp writeErr promptTokens model fixedContent
    usage text trace :
  Handler resp writeErr promptTokens model fixedContent
  = (Return None usage text, trace) ->
  exists responseBody textResponse injected trace1 modified trace2 out sets,
    resp_Body resp = Ok responseBody
    /\ resp_Close resp = None
    /\ unmarshalResponse responseBody = Ok textResponse
    /\ Error_Type (TError textResponse) = ""
    /\ inject_fixed fixedContent textResponse = (Ok injected, trace1)
    /\ backfill_usage promptTokens model
         (lastChoiceText (TChoices textResponse)) injected
       = (modified, trace2)
    /\ marshalResponse modified = Ok out
    /\ copy_headers (map_to_list (resp_Header resp)) = (true, sets)
    /\ writeErr = None
    /\ usage = Some (TUsage modified)
    /\ text = lastChoiceText (TChoices textResponse)
    /\ trace = trace1 ++ trace2
               ++ ([EMarshalResponse modified;
                    EWriteHeader (resp_StatusCode resp)] ++ sets)
               ++ [EWrite out].
Proof.
  unfold Handler, wrapped.
  destruct (resp_Body resp) as [responseBody|err]; [|discriminate].
  destruct (resp_Close resp) as [err|]; [discriminate|].
  destruct (unmarshalResponse responseBody) as [textResponse|err] eqn:Hun;
    [|discriminate].
  destruct (String.eqb (Error_Type (TError textResponse)) "") eqn:Hty;
    [|discriminate].
  cbn [negb].
  destruct (inject_fixed fixedContent textResponse)
    as [[injected|err] trace1] eqn:Hinj; [|discriminate].
  destruct (backfill_usage _ _ _ injected) as [modified trace2] eqn:Hback.
  unfold write_response, wrapped.
  destruct (marshalResponse modified) as [out|err] eqn:Hm; [|discriminate].
  destruct (copy_headers _) as [ok sets] eqn:Hcopy.
  destruct ok; [|discriminate].
  destruct writeErr as [err|]; [discriminate|].
  intros E. inversion E; subst.
  exists responseBody, textResponse, injected, trace1, modified, trace2,
         out, sets.
  apply String.eqb_eq in Hty.
  repeat split; reflexivity || assumption.
Qed.

(** Conversely, [Handler] succeeds whenever the body is read, closed and
    decoded without an upstream error, every encoding succeeds, no header
    has an empty value list and the write succeeds. *)
Lemma Handler_returns resp promptTokens model fixedContent
    responseBody textResponse injected trace1 out sets :
  resp_Body resp = Ok responseBody ->
  resp_Close resp = None ->
  unmarshalResponse responseBody = Ok textResponse ->
  Error_Type (TError textResponse) = "" ->
  inject_fixed fixedContent textResponse = (Ok injected, trace1) ->
  marshalResponse
    (fst (backfill_usage promptTokens model
            (lastChoiceText (TChoices textResponse)) injected)) = Ok out ->
  copy_headers (map_to_list (resp_Header resp)) = (true, sets) ->
  fst (Handler resp None promptTokens model fixedContent)
  = Return None
      (Some (TUsage
               (fst (backfill_usage promptTokens model
                       (lastChoiceText (TChoices textResponse)) injected))))
      (lastChoiceText (TChoices textResponse)).
Proof.
  intros Hb Hc Hun Hty Hinj Hm Hcopy.
  unfold Handler. rewrite Hb, Hc, Hun, Hty, Hinj. cbn [String.eqb negb].
  destruct (backfill_usage _ _ _ injected) as [modified trace2].
  cbn [fst] in Hm. unfold write_response. rewrite Hm, Hcopy. reflexivity.
Qed.

End HandlerFacts.

(** ** What the client's writer holds *)

Section WriterFacts.
Context `{Collaborators}.

Lemma client_view_app w a b :
  client_view w (a ++ b) = client_view (client_view w a) b.
Proof. unfold client_view. apply fold_left_app. Qed.

Lemma client_view_silent w trace :
  Forall (fun e => is_writer_effect e = false) trace ->
  client_view w trace = w.
Proof.
  intros Hs. revert w. induction Hs as [|e l He _ IH]; intros w.
  - reflexivity.
  - cbn [client_view fold_left]. fold (client_view (apply_effect w e) l).
    rewrite IH. destruct e; try discriminate; reflexivity.
Qed.

Lemma marshal_silent trace :
  Forall (fun e => is_marshal e = true) trace ->
  Forall (fun e => is_writer_effect e = false) trace
  /\ Forall (fun e => is_count_tokens e = false) trace.
Proof.
  induction 1 as [|e l He _ [IH1 IH2]]; [split; constructor|].
  destruct e; try discriminate. split; constructor; auto.
Qed.

Lemma backfill_trace promptTokens model text r :
  Forall (fun e => is_writer_effect e = false)
    (snd (backfill_usage promptTokens model text r)).
Proof.
  unfold backfill_usage. destruct (_ =? _)%Z; repeat constructor.
Qed.

Lemma sets_keep w sets :
  Forall (fun e => is_header_set e = true) sets ->
  rw_status (client_view w sets) = rw_status w
  /\ rw_body (client_view w sets) = rw_body w.
Proof.
  intros Hs. revert w. induction Hs as [|e l He _ IH]; intros w.
  - split; reflexivity.
  - cbn [client_view fold_left]. fold (client_view (apply_effect w e) l).
    destruct (IH (apply_effect w e)) as [-> ->].
    destruct e; try discriminate; split; reflexivity.
Qed.

Lemma sets_other_key w sets k :
  Forall (fun e => is_header_set e = true) sets ->
  (forall v, ~ In (EHeaderSet k v) sets) ->
  rw_header (client_view w sets) !! k = rw_header w !! k.
Proof.
  intros Hs. revert w. induction Hs as [|e l He _ IH]; intros w Hk.
  - reflexivity.
  - cbn [client_view fold_left]. fold (client_view (apply_effect w e) l).
    rewrite IH by (intros v Hin; apply (Hk v); now right).
    destruct e as [| | | |k' v'| |]; try discriminate.
    cbn [apply_effect rw_header].
    apply lookup_insert_ne. intros ->. apply (Hk v'). now left.
Qed.

(** After the copy loop every upstream key holds the first of its
    values, in whatever order the map was walked. *)
Lemma copy_headers_view entries sets w k v0 rest :
  copy_headers entries = (true, sets) ->
  NoDup (map fst entries) ->
  In (k, v0 :: rest) entries ->
  rw_header (client_view w sets) !! k = Some v0.
Proof.
  revert sets w; induction entries as [|[k1 v1] l IH]; intros sets w E Hnd Hin.
  - destruct Hin.
  - cbn [copy_headers] in E. destruct v1 as [|x xs]; [discriminate|].
    destruct (copy_headers l) as [ok trace] eqn:Hl.
    inversion E; subst. cbn [map fst] in Hnd.
    apply NoDup_cons in Hnd as [Hfresh Hnd].
    cbn [client_view fold_left].
    fold (client_view (apply_effect w (EHeaderSet k1 x)) trace).
    destruct Hin as [Hin | Hin].
    + inversion Hin; subst.
      destruct (copy_headers_sets _ _ Hl) as [Hsets _].
      rewrite sets_other_key; [apply lookup_insert_eq | exact Hsets |].
      intros v Hv. apply Hfresh. apply list_elem_of_In.
      eapply copy_headers_keys; [exact Hl | exact Hv].
    + eapply IH; [reflexivity | exact Hnd | exact Hin].
Qed.

(** The order in which the header map is walked does not matter. *)
Lemma copy_headers_order_irrelevant entries entries' sets sets' w k :
  Permutation entries entries' ->
  NoDup (map fst entries) ->
  copy_headers entries = (true, sets) ->
  copy_headers entries' = (true, sets') ->
  rw_header (client_view w sets) !! k = rw_header (client_view w sets') !! k.
Proof.
  intros Hperm Hnd Hc Hc'.
  assert (Hnd' : NoDup (map fst entries'))
    by (now rewrite <- Hperm).
  destruct (copy_headers_sets _ _ Hc) as [Hsets Hfirst].
  destruct (copy_headers_sets _ _ Hc') as [Hsets' Hfirst'].
  destruct (decide (k ∈ map fst entries)) as [Hin | Hout].
  - apply list_elem_of_fmap in Hin as ([k0 vs] & -> & Hin). cbn [fst].
    apply list_elem_of_In in Hin.
    destruct (Hfirst _ _ Hin) as (v0 & rest & -> & _).
    rewrite (copy_headers_view _ _ w _ _ _ Hc Hnd Hin).
    symmetry. apply (copy_headers_view _ _ w _ _ rest Hc' Hnd').
    apply list_elem_of_In. rewrite <- Hperm. now apply list_elem_of_In.
  - rewrite !sets_other_key; [reflexivity | exact Hsets' | | exact Hsets |].
    + intros v Hv. apply Hout. rewrite Hperm. apply list_elem_of_In.
      eapply copy_headers_keys; [exact Hc' | exact Hv].
    + intros v Hv. apply Hout. apply list_elem_of_In.
      eapply copy_headers_keys; [exact Hc | exact Hv].
Qed.

Lemma map_to_list_keys {A} (m : gmap string A) :
  NoDup (map fst (map_to_list m)).
Proof. apply (NoDup_fst_map_to_list m). Qed.

End WriterFacts.


(** ** Claims C6 and C7 *)

Lemma int_add_exact (a b : Z) :
  (- 2 ^ 63 <= a + b < 2 ^ 63)%Z -> int_add a b = (a + b)%Z.
Proof.
  intros Hr. unfold int_add.
  rewrite Z.mod_small by lia. lia.
Qed.

Section ClaimC6.
Context `{Collaborators}.

(** C6.  When [Handler] returns a usage: if the decoded upstream
    [TotalTokens] is 0 the usage is [promptTokens], the token count of
    the last choice's text as decoded from upstream (before any
    injection), and their sum, so it does not depend on the fixed
    content; otherwise it is the upstream usage as decoded, and the token
    counter is not called. *)
Theorem returned_usage resp writeErr promptTokens model fixedContent
    usage text trace :
  Handler resp writeErr promptTokens model fixedContent
  = (Return None (Some usage) text, trace) ->
  exists responseBody textResponse,
    resp_Body resp = Ok responseBody
    /\ unmarshalResponse responseBody = Ok textResponse
    /\ (TotalTokens (TUsage textResponse) = 0%Z ->
        usage
        = {| PromptTokens := promptTokens;
             CompletionTokens :=
               CountTokenText (lastChoiceText (TChoices textResponse)) model;
             TotalTokens :=
               int_add promptTokens
                 (CountTokenText (lastChoiceText (TChoices textResponse))
                    model) |})
    /\ (TotalTokens (TUsage textResponse) <> 0%Z ->
        usage = TUsage textResponse
        /\ Forall (fun e => is_count_tokens e = false) trace).
Proof.
  intros Hrun.
  destruct (Handler_success _ _ _ _ _ _ _ _ Hrun)
    as (body & tr & inj & t1 & modified & t2 & out & sets
        & Hb & _ & Hun & _ & Hinj & Hback & _ & Hcopy & _ & Hu & _ & Htrace).
  exists body, tr. split; [exact Hb|]. split; [exact Hun|].
  destruct (inject_fixed_keeps _ _ _ _ Hinj) as [Husage _].
  injection Hu as ->.
  unfold backfill_usage in Hback. rewrite Husage in Hback.
  split; intros Htot.
  - rewrite Htot in Hback. cbn [Z.eqb] in Hback.
    injection Hback as <- _. reflexivity.
  - apply Z.eqb_neq in Htot. rewrite Htot in Hback.
    injection Hback as <- <-. split; [exact Husage|].
    rewrite Htrace. cbn [app].
    pose proof (inject_fixed_trace fixedContent tr) as Ht1.
    rewrite Hinj in Ht1. cbn [snd] in Ht1.
    apply Forall_app. split; [apply (marshal_silent _ Ht1)|].
    constructor; [reflexivity|]. constructor; [reflexivity|].
    apply Forall_app. split; [|constructor; [reflexivity | constructor]].
    destruct (copy_headers_sets _ _ Hcopy) as [Hsets _].
    eapply Forall_impl; [exact Hsets|].
    intros e He. destruct e; try discriminate; reflexivity.
Qed.

End ClaimC6.

Lemma returned_usage_witness :
  exists responseBody textResponse,
    resp_Body (ResponseSamples.response 200 ResponseSamples.body_no_usage)
    = Ok responseBody
    /\ unmarshalResponse (Collaborators := RefCodec.reference) responseBody
       = Ok textResponse
    /\ (TotalTokens (TUsage textResponse) = 0%Z ->
        {| PromptTokens := 7; CompletionTokens := 2; TotalTokens := 9 |}
        = {| PromptTokens := 7;
             CompletionTokens :=
               CountTokenText (Collaborators := RefCodec.reference)
                 (lastChoiceText (H := RefCodec.reference)
                    (TChoices textResponse)) "gpt";
             TotalTokens :=
               int_add 7
                 (CountTokenText (Collaborators := RefCodec.reference)
                    (lastChoiceText (H := RefCodec.reference)
                       (TChoices textResponse)) "gpt") |})
    /\ (TotalTokens (TUsage textResponse) <> 0%Z ->
        {| PromptTokens := 7; CompletionTokens := 2; TotalTokens := 9 |}
        = TUsage textResponse
        /\ Forall (fun e => is_count_tokens e = false)
             (snd (Handler (H := RefCodec.reference)
                     (ResponseSamples.response 200
                        ResponseSamples.body_no_usage)
                     None 7 "gpt" "Ad text"))).
Proof.
  apply (returned_usage (H := RefCodec.reference)
           (ResponseSamples.response 200 ResponseSamples.body_no_usage)
           None 7 "gpt" "Ad text"
           {| PromptTokens := 7; CompletionTokens := 2; TotalTokens := 9 |}
           "Hello").
  vm_compute. reflexivity.
Defined.

Section ClaimC7.
Context `{Collaborators}.

(** C7.  If the body was read and closed, decodes, and carries a
    non-empty error type, [Handler] returns that error record with the
    upstream status code, no usage and empty text, and makes no call at
    all on its collaborators: no content is encoded, no tokens are
    counted, nothing reaches the client's writer. *)
Theorem upstream_error_propagated resp writeErr promptTokens model
    fixedContent responseBody textResponse :
  resp_Body resp = Ok responseBody ->
  resp_Close resp = None ->
  unmarshalResponse responseBody = Ok textResponse ->
  Error_Type (TError textResponse) <> "" ->
  Handler resp writeErr promptTokens model fixedContent
  = (Return (Some {| Err := TError textResponse;
                     StatusCode := resp_StatusCode resp |}) None "",
     [])
  /\ forall w,
       client_view w
         (snd (Handler resp writeErr promptTokens model fixedContent)) = w.
Proof.
  intros Hb Hc Hun Hty.
  assert (Hrun :
    Handler resp writeErr promptTokens model fixedContent
    = (Return (Some {| Err := TError textResponse;
                       StatusCode := resp_StatusCode resp |}) None "",
       [])).
  { unfold Handler. rewrite Hb, Hc, Hun.
    apply String.eqb_neq in Hty. rewrite Hty. reflexivity. }
  split; [exact Hrun|]. intros w. rewrite Hrun. reflexivity.
Qed.

End ClaimC7.

Lemma upstream_error_propagated_witness :
  Handler (H := RefCodec.reference)
    (ResponseSamples.response 401 ResponseSamples.body_error)
    None 7 "gpt" "Ad text"
  = (Return
       (Some {| Err := {| Error_Message := "bad key";
                          Error_Type := "invalid_request_error" |};
                StatusCode := 401 |})
       None "",
     [])
  /\ forall w,
       client_view w
         (snd (Handler (H := RefCodec.reference)
                 (ResponseSamples.response 401 ResponseSamples.body_error)
                 None 7 "gpt" "Ad text")) = w.
Proof.
  apply (upstream_error_propagated (H := RefCodec.reference)
           (ResponseSamples.response 401 ResponseSamples.body_error)
           None 7 "gpt" "Ad text" ResponseSamples.body_error
           {| TChoices := [];
              TUsage := {| PromptTokens := 0; CompletionTokens := 0;
                           TotalTokens := 0 |};
              TError := {| Error_Message := "bad key";
                           Error_Type := "invalid_request_error" |} |}).
  - reflexivity.
  - reflexivity.
  - vm_compute. reflexivity.
  - discriminate.
Defined.

(** ** Claims C8 and C9 *)

Section ClaimC8.
Context `{Collaborators}.

(** C8.  On a successful run the calls on the client's writer are, in
    this order: the upstream status code, one header set per upstream
    key, and the body, which is the encoding of the modified response.
    Afterwards the writer holds the upstream status code, under every
    upstream key the first of its values, and its previous body followed
    by that encoding. *)
Theorem response_written resp writeErr promptTokens model fixedContent
    usage text trace :
  Handler resp writeErr promptTokens model fixedContent
  = (Return None usage text, trace) ->
  exists before modified sets out,
    trace = before
            ++ EMarshalResponse modified
               :: EWriteHeader (resp_StatusCode resp)
               :: sets ++ [EWrite out]
    /\ Forall (fun e => is_writer_effect e = false) before
    /\ Forall (fun e => is_header_set e = true) sets
    /\ marshalResponse modified = Ok out
    /\ usage = Some (TUsage modified)
    /\ forall w,
         rw_status (client_view w trace) = resp_StatusCode resp
         /\ (forall k vs,
                resp_Header resp !! k = Some vs ->
                exists v0 rest,
                  vs = v0 :: rest
                  /\ rw_header (client_view w trace) !! k = Some v0)
         /\ rw_body (client_view w trace) = rw_body w +:+ out.
Proof.
  intros Hrun.
  destruct (Handler_success _ _ _ _ _ _ _ _ Hrun)
    as (body & tr & inj & t1 & modified & t2 & out & sets
        & Hb & _ & Hun & _ & Hinj & Hback & Hm & Hcopy & _ & Hu & _ & Htrace).
  exists (t1 ++ t2), modified, sets, out.
  assert (Hsilent : Forall (fun e => is_writer_effect e = false) (t1 ++ t2)).
  { apply Forall_app. split.
    - pose proof (inject_fixed_trace fixedContent tr) as Ht1.
      rewrite Hinj in Ht1. apply (marshal_silent _ Ht1).
    - pose proof (backfill_trace promptTokens model
                    (lastChoiceText (TChoices tr)) inj) as Ht2.
      now rewrite Hback in Ht2. }
  destruct (copy_headers_sets _ _ Hcopy) as [Hsets Hfirst].
  assert (Htrace' :
    trace = (t1 ++ t2)
            ++ EMarshalResponse modified
               :: EWriteHeader (resp_StatusCode resp)
               :: sets ++ [EWrite out]).
  { rewrite Htrace, <- !app_assoc. reflexivity. }
  split; [exact Htrace'|]. split; [exact Hsilent|].
  split; [exact Hsets|]. split; [exact Hm|]. split; [exact Hu|].
  intros w. rewrite Htrace', client_view_app.
  rewrite (client_view_silent _ _ Hsilent).
  cbn [client_view fold_left apply_effect].
  set (w1 := {| rw_status := resp_StatusCode resp;
                rw_header := rw_header w; rw_body := rw_body w |}).
  fold (client_view w1 (sets ++ [EWrite out])).
  rewrite client_view_app.
  destruct (sets_keep w1 sets Hsets) as [Hst Hbody].
  cbn [client_view fold_left apply_effect rw_status rw_header rw_body].
  fold (client_view w1 sets).
  split; [exact Hst|]. split; [|now rewrite Hbody].
  intros k vs Hk.
  assert (Hin : In (k, vs) (map_to_list (resp_Header resp))).
  { apply list_elem_of_In. now apply elem_of_map_to_list. }
  destruct (Hfirst _ _ Hin) as (v0 & rest & -> & _).
  exists v0, rest. split; [reflexivity|].
  eapply copy_headers_view;
    [exact Hcopy | apply map_to_list_keys | exact Hin].
Qed.

End ClaimC8.

Lemma response_written_witness :
  exists before modified sets out,
    snd (Handler (H := RefCodec.reference)
           (ResponseSamples.response 200 ResponseSamples.body_no_usage)
           None 7 "gpt" "Ad text")
    = before
      ++ EMarshalResponse modified
         :: EWriteHeader
              (resp_StatusCode
                 (ResponseSamples.response 200 ResponseSamples.body_no_usage))
         :: sets ++ [EWrite out]
    /\ Forall (fun e => is_writer_effect e = false) before
    /\ Forall (fun e => is_header_set e = true) sets
    /\ marshalResponse (Collaborators := RefCodec.reference) modified = Ok out
    /\ Some {| PromptTokens := 7; CompletionTokens := 2; TotalTokens := 9 |}
       = Some (TUsage modified)
    /\ forall w,
         rw_status
           (client_view w
              (snd (Handler (H := RefCodec.reference)
                      (ResponseSamples.response 200
                         ResponseSamples.body_no_usage)
                      None 7 "gpt" "Ad text")))
         = resp_StatusCode
             (ResponseSamples.response 200 ResponseSamples.body_no_usage)
         /\ (forall k vs,
                resp_Header
                  (ResponseSamples.response 200 ResponseSamples.body_no_usage)
                  !! k = Some vs ->
                exists v0 rest,
                  vs = v0 :: rest
                  /\ rw_header
                       (client_view w
                          (snd (Handler (H := RefCodec.reference)
                                  (ResponseSamples.response 200
                                     ResponseSamples.body_no_usage)
                                  None 7 "gpt" "Ad text")))
                       !! k = Some v0)
         /\ rw_body
              (client_view w
                 (snd (Handler (H := RefCodec.reference)
                         (ResponseSamples.response 200
                            ResponseSamples.body_no_usage)
                         None 7 "gpt" "Ad text")))
            = rw_body w +:+ out.
Proof.
  apply (response_written (H := RefCodec.reference)
           (ResponseSamples.response 200 ResponseSamples.body_no_usage)
           None 7 "gpt" "Ad text"
           (Some {| PromptTokens := 7; CompletionTokens := 2;
                    TotalTokens := 9 |})
           "Hello").
  vm_compute. reflexivity.
Defined.

Section ClaimC9.
Context `{Collaborators}.

(** C9 (amended).  With empty fixed content and a non-zero upstream
    total, the response handed to the encoder is the decoded upstream
    response itself: its choices and its usage are those decoded from the
    upstream body (the members the response record declares), untouched,
    and the body written to the client is its encoding.  Whenever the
    codec reads back what it wrote for this response, the body written
    decodes to the very choices and usage the upstream body decodes to.
    What the decoder does not keep and what the encoder spells otherwise
    is not given back, so the bytes written need not be those received. *)
Theorem untouched_round_trip resp writeErr promptTokens model usage text
    trace responseBody textResponse :
  Handler resp writeErr promptTokens model "" = (Return None usage text, trace) ->
  resp_Body resp = Ok responseBody ->
  unmarshalResponse responseBody = Ok textResponse ->
  TotalTokens (TUsage textResponse) <> 0%Z ->
  exists sets out,
    marshalResponse textResponse = Ok out
    /\ trace = EMarshalResponse textResponse
               :: EWriteHeader (resp_StatusCode resp)
               :: sets ++ [EWrite out]
    /\ Forall (fun e => is_header_set e = true) sets
    /\ usage = Some (TUsage textResponse)
    /\ (forall w, rw_body (client_view w trace) = rw_body w +:+ out)
    /\ ((forall o, marshalResponse textResponse = Ok o ->
                   unmarshalResponse o = Ok textResponse) ->
        unmarshalResponse out = unmarshalResponse responseBody).
Proof.
  intros Hrun Hb Hun Htot.
  destruct (Handler_success _ _ _ _ _ _ _ _ Hrun)
    as (body & tr & inj & t1 & modified & t2 & out & sets
        & Hb' & _ & Hun' & _ & Hinj & Hback & Hm & Hcopy & _ & Hu & _
        & Htrace).
  rewrite Hb in Hb'. injection Hb' as <-.
  rewrite Hun in Hun'. injection Hun' as <-.
  rewrite inject_fixed_empty in Hinj. injection Hinj as <- <-.
  unfold backfill_usage in Hback.
  apply Z.eqb_neq in Htot. rewrite Htot in Hback.
  injection Hback as <- <-.
  exists sets, out.
  destruct (copy_headers_sets _ _ Hcopy) as [Hsets _].
  split; [exact Hm|]. split; [exact Htrace|]. split; [exact Hsets|].
  split; [exact Hu|].
  split; [|intros Hread; rewrite Hun; now apply Hread].
  intros w. rewrite Htrace.
  change (EMarshalResponse textResponse
          :: EWriteHeader (resp_StatusCode resp) :: sets ++ [EWrite out])
    with ([EMarshalResponse textResponse;
           EWriteHeader (resp_StatusCode resp)] ++ sets ++ [EWrite out]).
  rewrite !client_view_app.
  cbn [client_view fold_left apply_effect rw_body].
  set (w1 := {| rw_status := resp_StatusCode resp;
                rw_header := rw_header w; rw_body := rw_body w |}).
  fold (client_view w1 sets).
  destruct (sets_keep w1 sets Hsets) as [_ ->]. reflexivity.
Qed.

End ClaimC9.

Lemma untouched_round_trip_witness :
  exists sets out,
    marshalResponse (Collaborators := RefCodec.reference)
      ResponseSamples.hello = Ok out
    /\ snd (Handler (H := RefCodec.reference)
              (ResponseSamples.response 200 ResponseSamples.body_with_usage)
              None 7 "gpt" "")
       = EMarshalResponse ResponseSamples.hello
         :: EWriteHeader
              (resp_StatusCode
                 (ResponseSamples.response 200
                    ResponseSamples.body_with_usage))
         :: sets ++ [EWrite out]
    /\ Forall (fun e => is_header_set e = true) sets
    /\ Some {| PromptTokens := 9; CompletionTokens := 2; TotalTokens := 11 |}
       = Some (TUsage ResponseSamples.hello)
    /\ (forall w,
         rw_body
           (client_view w
              (snd (Handler (H := RefCodec.reference)
                      (ResponseSamples.response 200
                         ResponseSamples.body_with_usage)
                      None 7 "gpt" "")))
         = rw_body w +:+ out)
    /\ ((forall o,
           marshalResponse (Collaborators := RefCodec.reference)
             ResponseSamples.hello = Ok o ->
           unmarshalResponse (Collaborators := RefCodec.reference) o
           = Ok ResponseSamples.hello) ->
        unmarshalResponse (Collaborators := RefCodec.reference) out
        = unmarshalResponse (Collaborators := RefCodec.reference)
            ResponseSamples.body_with_usage).
Proof.
  apply (untouched_round_trip (H := RefCodec.reference)
           (ResponseSamples.response 200 ResponseSamples.body_with_usage)
           None 7 "gpt"
           (Some {| PromptTokens := 9; CompletionTokens := 2;
                    TotalTokens := 11 |})
           "Hello" _ ResponseSamples.body_with_usage ResponseSamples.hello).
  - vm_compute. reflexivity.
  - reflexivity.
  - vm_compute. reflexivity.
  - discriminate.
Defined.

(** C9, as stated, fails on the code: the body is decoded into the
    response record and encoded again, so a member of a choice that the
    record does not declare (here [logprobs]) is missing from the body
    written.  The choices written differ from the choices received by more
    than the order of their fields, with empty fixed content and a
    non-zero upstream total. *)
Lemma dropped_member_counterexample :
  fst (Handler (H := RefCodec.reference)
         (ResponseSamples.response 200 MoreSamples.body_with_logprobs)
         None 7 "gpt" "")
  = Return None
      (Some {| PromptTokens := 9; CompletionTokens := 2; TotalTokens := 11 |})
      "Hello"
  /\ last (snd (Handler (H := RefCodec.reference)
                  (ResponseSamples.response 200
                     MoreSamples.body_with_logprobs)
                  None 7 "gpt" ""))
     = Some (EWrite MoreSamples.written_hello)
  /\ canonical_member "choices" MoreSamples.body_with_logprobs
     = Some (RefCodec.dq
               ("[{'finish_reason':'stop','index':0,'logprobs':null,"
                +:+ "'message':{'content':'Hello','role':'assistant'}}]"))
  /\ canonical_member "choices" MoreSamples.written_hello
     = Some (RefCodec.dq
               ("[{'finish_reason':'stop','index':0,"
                +:+ "'message':{'content':'Hello','role':'assistant'}}]"))
  /\ canonical_member "choices" MoreSamples.written_hello
     <> canonical_member "choices" MoreSamples.body_with_logprobs.
Proof.
  split; [vm_compute; reflexivity|].
  split; [vm_compute; reflexivity|].
  split; [vm_compute; reflexivity|].
  split; [vm_compute; reflexivity|].
  intros Heq. vm_compute in Heq. discriminate Heq.
Qed.

(** The reference codec reads back what it writes for the sample response,
    so the premise of the last part of C9 holds there. *)
Example reference_reads_back_hello :
  forall o,
    marshalResponse (Collaborators := RefCodec.reference)
      ResponseSamples.hello = Ok o ->
    unmarshalResponse (Collaborators := RefCodec.reference) o
    = Ok ResponseSamples.hello.
Proof. intros o Ho. injection Ho as <-. vm_compute. reflexivity. Qed.

(** ** Claim C10 *)

Section ClaimC10.
Context `{Collaborators}.

(** The text [StreamHandler] returns is a function of the frames and of
    the relay mode alone. *)
Lemma stream_text_frames relayMode fixedContent frames :
  stream_text relayMode fixedContent frames
  = joined (map (frame_text relayMode) frames).
Proof.
  unfold stream_text, producer.
  pose proof (scan_loop_text relayMode fixedContent scan_init frames) as Ht.
  destruct (scan_loop relayMode fixedContent scan_init frames) as [st out].
  exact Ht.
Qed.

(** C10.  For one upstream input and two values of the fixed content:
    [StreamHandler] returns the same error and the same accumulated text
    in both runs, and two successful runs of [Handler] return the same
    usage and the same response text.  Only what is written to the
    client differs. *)
Theorem fixed_content_does_not_change_results
    (fixedContent1 fixedContent2 : string)
    resp writeErr1 writeErr2 promptTokens model
    usage1 text1 trace1 usage2 text2 trace2 :
  Handler resp writeErr1 promptTokens model fixedContent1
  = (Return None usage1 text1, trace1) ->
  Handler resp writeErr2 promptTokens model fixedContent2
  = (Return None usage2 text2, trace2) ->
  (usage1 = usage2 /\ text1 = text2)
  /\ forall relayMode body closeErr,
       fst (StreamHandler relayMode fixedContent1 body closeErr)
       = fst (StreamHandler relayMode fixedContent2 body closeErr).
Proof.
  intros Hrun1 Hrun2. split.
  - destruct (Handler_success _ _ _ _ _ _ _ _ Hrun1)
      as (body & tr & inj & t1 & modified & t2 & out & sets
          & Hb & _ & Hun & _ & Hinj & Hback & _ & _ & _ & Hu & Ht & _).
    destruct (Handler_success _ _ _ _ _ _ _ _ Hrun2)
      as (body' & tr' & inj' & t1' & modified' & t2' & out' & sets'
          & Hb' & _ & Hun' & _ & Hinj' & Hback' & _ & _ & _ & Hu' & Ht' & _).
    rewrite Hb in Hb'. injection Hb' as <-.
    rewrite Hun in Hun'. injection Hun' as <-.
    split; [|congruence].
    destruct (inject_fixed_keeps _ _ _ _ Hinj) as [Husage _].
    destruct (inject_fixed_keeps _ _ _ _ Hinj') as [Husage' _].
    unfold backfill_usage in Hback, Hback'.
    rewrite Husage in Hback. rewrite Husage' in Hback'.
    destruct (TotalTokens (TUsage tr) =? 0)%Z.
    + injection Hback as <- _. injection Hback' as <- _.
      rewrite Hu, Hu'. reflexivity.
    + injection Hback as <- _. injection Hback' as <- _.
      rewrite Hu, Hu'. cbn. congruence.
  - intros relayMode body closeErr.
    unfold StreamHandler, StreamHandler_frames.
    destruct closeErr as [err|]; [reflexivity|].
    cbn [fst]. now rewrite !stream_text_frames.
Qed.

End ClaimC10.

Lemma fixed_content_does_not_change_results_witness :
  (Some {| PromptTokens := 7; CompletionTokens := 2; TotalTokens := 9 |}
   = Some {| PromptTokens := 7; CompletionTokens := 2; TotalTokens := 9 |}
   /\ "Hello" = "Hello")
  /\ forall relayMode body closeErr,
       fst (StreamHandler (H := RefCodec.reference) relayMode "" body closeErr)
       = fst (StreamHandler (H := RefCodec.reference) relayMode "Ad text"
                body closeErr).
Proof.
  apply (fixed_content_does_not_change_results (H := RefCodec.reference)
           "" "Ad text"
           (ResponseSamples.response 200 ResponseSamples.body_no_usage)
           None None 7 "gpt"
           (Some {| PromptTokens := 7; CompletionTokens := 2;
                    TotalTokens := 9 |}) "Hello"
           (snd (Handler (H := RefCodec.reference)
                   (ResponseSamples.response 200 ResponseSamples.body_no_usage)
                   None 7 "gpt" ""))
           (Some {| PromptTokens := 7; CompletionTokens := 2;
                    TotalTokens := 9 |}) "Hello"
           (snd (Handler (H := RefCodec.reference)
                   (ResponseSamples.response 200 ResponseSamples.body_no_usage)
                   None 7 "gpt" "Ad text"))).
  - vm_compute. reflexivity.
  - vm_compute. reflexivity.
Defined.

(** * Further properties *)

(** ** The frame splitter *)

Section SplitterFacts.
Import GoString.
Variable eofWithData : bool.

Lemma buffer_full_false cur :
  (N.of_nat (String.length cur) < MaxScanTokenSize)%N ->
  buffer_full cur = false.
Proof. intros Hlt. unfold buffer_full. now apply N.leb_gt. Qed.

Lemma length_snoc cur c :
  String.length (cur +:+ String c "") = S (String.length cur).
Proof. rewrite GoStringFacts.length_app. cbn [String.length]. lia. Qed.

Lemma contains_char_snoc cur c :
  contains_char LF cur = false -> Ascii.eqb c LF = false ->
  contains_char LF (cur +:+ String c "") = false.
Proof.
  intros Hcur Hc. induction cur as [|a cur IHc].
  - change ("" +:+ String c "") with (String c "").
    cbn [contains_char]. now rewrite Hc.
  - rewrite GoStringFacts.app_cons. cbn [contains_char] in *.
    apply orb_false_iff in Hcur as [-> Hcur]. now apply IHc.
Qed.

(** A line that fits the buffer is a token, whatever follows it. *)
Lemma scan_from_line cur l rest :
  contains_char LF l = false ->
  (N.of_nat (String.length (cur +:+ l)) < MaxScanTokenSize)%N ->
  scan_from eofWithData cur (l +:+ String LF rest)
  = (cur +:+ l) :: scan_from eofWithData "" rest.
Proof.
  revert cur; induction l as [|c l IH]; intros cur Hl Hlen.
  - rewrite GoStringFacts.app_nil_r in Hlen |- *.
    change ("" +:+ String LF rest) with (String LF rest).
    cbn [scan_from]. rewrite (buffer_full_false _ Hlen).
    change (Ascii.eqb LF LF) with true. reflexivity.
  - cbn [contains_char] in Hl. apply orb_false_iff in Hl as [Hc Hl].
    rewrite GoStringFacts.app_cons. cbn [scan_from].
    rewrite buffer_full_false.
    2:{ rewrite GoStringFacts.length_app in Hlen. lia. }
    rewrite Hc.
    assert (Hassoc : (cur +:+ String c "") +:+ l = cur +:+ String c l).
    { now rewrite GoStringFacts.app_assoc. }
    rewrite (IH (cur +:+ String c "") Hl); rewrite Hassoc; [reflexivity|].
    exact Hlen.
Qed.

(** A last line that fits the buffer and has no line feed is a token,
    unless it is empty. *)
Lemma scan_from_last cur l :
  contains_char LF l = false ->
  (N.of_nat (String.length (cur +:+ l)) < MaxScanTokenSize)%N ->
  scan_from eofWithData cur l
  = if String.eqb (cur +:+ l) "" then [] else [cur +:+ l].
Proof.
  revert cur; induction l as [|c l IH]; intros cur Hl Hlen.
  - rewrite GoStringFacts.app_nil_r in Hlen |- *.
    cbn [scan_from]. now rewrite (buffer_full_false _ Hlen).
  - cbn [contains_char] in Hl. apply orb_false_iff in Hl as [Hc Hl].
    cbn [scan_from]. rewrite buffer_full_false.
    2:{ rewrite GoStringFacts.length_app in Hlen. lia. }
    rewrite Hc.
    assert (Hassoc : (cur +:+ String c "") +:+ l = cur +:+ String c l).
    { now rewrite GoStringFacts.app_assoc. }
    rewrite (IH (cur +:+ String c "") Hl); rewrite Hassoc; [reflexivity|].
    exact Hlen.
Qed.

(** A line that fills the buffer before its line feed ends the scan: it
    is no token, and nothing after it is read. *)
Lemma scan_from_too_long cur l rest :
  contains_char LF l = false ->
  (MaxScanTokenSize <= N.of_nat (String.length (cur +:+ l)))%N ->
  rest <> "" ->
  scan_from eofWithData cur (l +:+ rest) = [].
Proof.
  revert cur; induction l as [|c l IH]; intros cur Hl Hlen Hrest.
  - rewrite GoStringFacts.app_nil_r in Hlen.
    change ("" +:+ rest) with rest.
    destruct rest as [|d rest]; [congruence|].
    cbn [scan_from]. unfold buffer_full.
    now rewrite (proj2 (N.leb_le _ _) Hlen).
  - cbn [contains_char] in Hl. apply orb_false_iff in Hl as [Hc Hl].
    rewrite GoStringFacts.app_cons. cbn [scan_from].
    destruct (buffer_full cur); [reflexivity|]. rewrite Hc.
    apply IH; [exact Hl | | exact Hrest].
    now rewrite GoStringFacts.app_assoc.
Qed.

(** No token holds a line feed or is longer than the buffer. *)
Lemma scan_from_tokens cur body :
  contains_char LF cur = false ->
  (N.of_nat (String.length cur) <= MaxScanTokenSize)%N ->
  Forall (fun t => contains_char LF t = false
                   /\ (N.of_nat (String.length t) <= MaxScanTokenSize)%N)
         (scan_from eofWithData cur body).
Proof.
  revert cur; induction body as [|c body IH]; intros cur Hcur Hlen.
  - cbn [scan_from]. destruct (String.eqb cur ""); [constructor|].
    destruct (buffer_full cur && negb eofWithData); repeat constructor;
      assumption.
  - cbn [scan_from]. destruct (buffer_full cur) eqn:Hfull; [constructor|].
    apply N.leb_gt in Hfull.
    destruct (Ascii.eqb c LF) eqn:Hc.
    + constructor; [now split|]. apply IH; [reflexivity|].
      unfold MaxScanTokenSize. cbn [String.length]. lia.
    + apply IH; [now apply contains_char_snoc|].
      rewrite length_snoc. lia.
Qed.

(** The tokens, each followed by a line feed, are a beginning of the
    body (closed by a line feed if it has none at its end). *)
Lemma scan_from_prefix cur body :
  exists rest,
    cur +:+ body +:+ String LF ""
    = unlines (scan_from eofWithData cur body) +:+ rest.
Proof.
  revert cur; induction body as [|c body IH]; intros cur.
  - cbn [scan_from].
    destruct (String.eqb cur ""); [now eexists|].
    destruct (buffer_full cur && negb eofWithData); [now eexists|].
    exists "". cbn [unlines fold_right].
    now rewrite !GoStringFacts.app_assoc.
  - cbn [scan_from]. destruct (buffer_full cur); [now eexists|].
    destruct (Ascii.eqb c LF) eqn:Hc.
    + apply Ascii.eqb_eq in Hc. subst c.
      destruct (IH "") as [rest Hrest]. exists rest.
      cbn [unlines fold_right]. fold (unlines (scan_from eofWithData "" body)).
      rewrite GoStringFacts.app_assoc. f_equal.
      rewrite !GoStringFacts.app_cons. f_equal. exact Hrest.
    + destruct (IH (cur +:+ String c "")) as [rest Hrest]. exists rest.
      rewrite <- Hrest. now rewrite GoStringFacts.app_assoc.
Qed.

(** Lines that fit the buffer are split exactly, up to the first line
    that does not. *)
Lemma scan_from_unlines lines tail :
  Forall short_line lines ->
  scan_from eofWithData "" (unlines lines +:+ tail)
  = lines ++ scan_from eofWithData "" tail.
Proof.
  induction 1 as [|l ls [Hl Hlen] _ IH]; [reflexivity|].
  cbn [unlines fold_right]. fold (unlines ls).
  rewrite GoStringFacts.app_assoc, GoStringFacts.app_cons.
  rewrite (scan_from_line "" l (unlines ls +:+ tail) Hl Hlen).
  now rewrite IH.
Qed.

End SplitterFacts.

(** X1.  Whatever the body, no token of the splitter holds a line feed or
    is longer than the 64 KiB buffer of the scanner, and the tokens, each
    followed by a line feed, are a beginning of the body (closed by a line
    feed if it lacks one): the splitter invents nothing and changes no
    order; what it can lose is the end of the body. *)
Theorem scanLines_tokens_begin_body `{Collaborators} (body : string) :
  Forall (fun t => contains_char GoString.LF t = false
                   /\ (N.of_nat (String.length t) <= MaxScanTokenSize)%N)
         (scanLines body)
  /\ GoString.HasPrefix (body +:+ String GoString.LF "")
       (unlines (scanLines body)) = true.
Proof.
  split.
  - apply scan_from_tokens; [reflexivity | discriminate].
  - unfold scanLines.
    destruct (scan_from_prefix EOFWithLastRead "" body) as [rest Hrest].
    change ("" +:+ body +:+ String GoString.LF "")
      with (body +:+ String GoString.LF "") in Hrest.
    rewrite Hrest. apply GoStringFacts.HasPrefix_app.
Qed.

(** X2.  A body whose lines all fit the scanner (no line feed inside,
    fewer than 65536 bytes each) is split into exactly those lines, blank
    ones included; a last line without line feed is a token too, unless it
    is empty. *)
Theorem scanLines_short_lines `{Collaborators}
    (lines : list string) (last : string) :
  Forall short_line lines ->
  short_line last ->
  scanLines (unlines lines +:+ last)
  = lines ++ (if String.eqb last "" then [] else [last]).
Proof.
  intros Hlines [Hlast Hlen]. unfold scanLines.
  rewrite (scan_from_unlines _ lines last Hlines). f_equal.
  now rewrite (scan_from_last _ "" last Hlast Hlen).
Qed.

Lemma scanLines_short_lines_witness :
  scanLines (H := RefCodec.reference)
    (unlines ["data: a"; ""; "[DONE]"] +:+ "data: b")
  = ["data: a"; ""; "[DONE]"] ++ ["data: b"].
Proof.
  apply (scanLines_short_lines (H := RefCodec.reference)
           ["data: a"; ""; "[DONE]"] "data: b").
  - repeat (apply List.Forall_cons; [split; reflexivity|]).
    apply List.Forall_nil.
  - split; reflexivity.
Defined.

(** X21.  A line that does not fit the scanner (65536 bytes or more before
    its line feed) ends the stream silently: the lines before it are the
    only frames, the long line and everything after it are dropped, and
    [StreamHandler] answers as it would to the body cut before that line,
    closing signal and absent error included. *)
Theorem long_line_truncates_stream `{Collaborators}
    (relayMode : Z) (fixedContent : string) (closeErr : option string)
    (lines : list string) (long rest : string) :
  Forall short_line lines ->
  too_long_line long ->
  rest <> "" ->
  scanLines (unlines lines +:+ long +:+ rest) = lines
  /\ StreamHandler relayMode fixedContent
       (unlines lines +:+ long +:+ rest) closeErr
     = StreamHandler relayMode fixedContent (unlines lines) closeErr.
Proof.
  intros Hlines [Hlong Hlen] Hrest.
  assert (Hcut : scanLines (unlines lines +:+ long +:+ rest) = lines).
  { unfold scanLines.
    rewrite (scan_from_unlines _ lines (long +:+ rest) Hlines).
    rewrite (scan_from_too_long _ "" long rest Hlong Hlen Hrest).
    apply app_nil_r. }
  assert (Hwhole : scanLines (unlines lines) = lines).
  { unfold scanLines.
    rewrite <- (GoStringFacts.app_nil_r (unlines lines)).
    rewrite (scan_from_unlines _ lines "" Hlines). apply app_nil_r. }
  split; [exact Hcut|].
  unfold StreamHandler. now rewrite Hcut, Hwhole.
Qed.

Lemma long_line_truncates_stream_witness :
  scanLines (H := RefCodec.reference)
    (unlines [Samples.frame_hi] +:+ MoreSamples.long_line
     +:+ String GoString.LF Samples.frame_there)
  = [Samples.frame_hi]
  /\ StreamHandler (H := RefCodec.reference) 1 "" 
       (unlines [Samples.frame_hi] +:+ MoreSamples.long_line
        +:+ String GoString.LF Samples.frame_there) None
     = StreamHandler (H := RefCodec.reference) 1 ""
         (unlines [Samples.frame_hi]) None.
Proof.
  apply (long_line_truncates_stream (H := RefCodec.reference) 1 "" None
           [Samples.frame_hi] MoreSamples.long_line
           (String GoString.LF Samples.frame_there)).
  - apply List.Forall_cons; [split; vm_compute; reflexivity|].
    apply List.Forall_nil.
  - split; vm_compute; [reflexivity | discriminate].
  - discriminate.
Defined.

(** ** The consumer *)

Lemma TrimSuffix_char (c : ascii) (s : string) :
  (ends_with_char c s = true ->
   s = GoString.TrimSuffix s (String c "") +:+ String c "")
  /\ (ends_with_char c s = false ->
      GoString.TrimSuffix s (String c "") = s).
Proof.
  induction s as [|a s [IH1 IH2]]; [split; [discriminate | reflexivity]|].
  cbn [GoString.TrimSuffix String.eqb].
  destruct s as [|b s].
  - cbn [ends_with_char String.eqb].
    destruct (Ascii.eqb a c) eqn:Hac; split; try discriminate; intros _.
    + apply Ascii.eqb_eq in Hac. now subst.
    + reflexivity.
  - change (String.eqb (String b s) "") with false.
    replace (if Ascii.eqb a c then false else false) with false
      by (now destruct (Ascii.eqb a c)).
    change (ends_with_char c (String a (String b s)))
      with (ends_with_char c (String b s)).
    split; intros He.
    + rewrite GoStringFacts.app_cons. f_equal. now apply IH1.
    + f_equal. now apply IH2.
Qed.

(** X3.  Whatever follows the prefix [data: [DONE]] in a value received
    from the channel, the event written to the client is exactly the
    12-byte marker. *)
Theorem render_marker_canonical (data : string) :
  GoString.HasPrefix data doneSignal = true -> render data = doneSignal.
Proof.
  intros Hp. unfold render. unfold doneSignal in Hp. rewrite Hp.
  apply GoStringFacts.HasPrefix_split in Hp. rewrite Hp.
  change 12%nat with (String.length "data: [DONE]").
  rewrite GoStringFacts.take_app_exact. reflexivity.
Qed.

Lemma render_marker_canonical_witness :
  render ("data: [DONE] trailing" +:+ String GoString.CR "") = doneSignal.
Proof.
  apply (render_marker_canonical
           ("data: [DONE] trailing" +:+ String GoString.CR "")).
  reflexivity.
Defined.

(** X4.  A value that does not start with [data: [DONE]] reaches the
    client unchanged, except that one carriage return at its end is
    removed: exactly one, and only there. *)
Theorem render_strips_one_CR (data : string) :
  GoString.HasPrefix data doneSignal = false ->
  (ends_with_char GoString.CR data = false -> render data = data)
  /\ (ends_with_char GoString.CR data = true ->
      data = render data +:+ String GoString.CR "").
Proof.
  intros Hp. unfold render. unfold doneSignal in Hp. rewrite Hp.
  destruct (TrimSuffix_char GoString.CR data) as [H1 H2].
  split; assumption.
Qed.

Lemma render_strips_one_CR_witness :
  (ends_with_char GoString.CR
     ("data: x" +:+ String GoString.CR (String GoString.CR "")) = false ->
   render ("data: x" +:+ String GoString.CR (String GoString.CR ""))
   = "data: x" +:+ String GoString.CR (String GoString.CR ""))
  /\ (ends_with_char GoString.CR
        ("data: x" +:+ String GoString.CR (String GoString.CR "")) = true ->
      "data: x" +:+ String GoString.CR (String GoString.CR "")
      = render ("data: x" +:+ String GoString.CR (String GoString.CR ""))
        +:+ String GoString.CR "").
Proof.
  apply (render_strips_one_CR
           ("data: x" +:+ String GoString.CR (String GoString.CR ""))).
  reflexivity.
Defined.

(** ** The frame loop, further *)

Section LoopFurther.
Context `{Collaborators}.
Variable relayMode : Z.
Variable fixedContent : string.

Abbreviation need := needInjectFixedMessageBeforeNextSend.
Abbreviation loop := (scan_loop relayMode fixedContent).

Lemma scan_loop_filter st frames :
  loop st frames = loop st (List.filter accepted frames).
Proof.
  revert st; induction frames as [|d l IH]; intros st; [reflexivity|].
  cbn [List.filter]. destruct (accepted d) eqn:Hacc.
  - rewrite !scan_loop_cons. now rewrite !IH.
  - rewrite scan_loop_cons, (loop_body_ignored _ _ _ _ Hacc). cbn [fst snd].
    rewrite IH. now destruct (loop st (List.filter accepted l)).
Qed.

Lemma forwardable_facts d :
  forwardable relayMode d = true ->
  accepted d = true /\ d <> doneSignal /\ carries_stop relayMode d = false.
Proof.
  unfold forwardable, carries_stop. intros Hf.
  apply andb_true_iff in Hf as [Hacc Hf]. rewrite Hacc.
  split; [reflexivity|]. split.
  - intros ->. cbv in Hf. discriminate.
  - destruct (parse_frame relayMode d scan_init) as [s0|]; [|reflexivity].
    now apply negb_true_iff in Hf.
Qed.

Lemma forwarded_frames_app a b :
  forwarded_frames (a ++ b) = forwarded_frames a ++ forwarded_frames b.
Proof. unfold forwarded_frames. apply flat_map_app. Qed.

Lemma scan_loop_forwarded st frames :
  sublist (forwarded_frames (snd (loop st frames))) frames
  /\ Forall (fun d => forwardable relayMode d = true)
       (forwarded_frames (snd (loop st frames))).
Proof.
  revert st; induction frames as [|d l IH]; intros st.
  - split; constructor.
  - rewrite scan_loop_cons. cbn [snd]. rewrite forwarded_frames_app.
    destruct (IH (fst (loop_body relayMode fixedContent st d))) as [IH1 IH2].
    destruct (accepted d) eqn:Hacc.
    + rewrite (loop_body_accepted _ _ _ _ Hacc) in *. cbn [fst snd] in *.
      rewrite forwarded_frames_app.
      replace (forwarded_frames
                 (if need st && negb (String.eqb fixedContent "")
                  then [Injected (GenerateFixedContentMessage (generated st)
                                    fixedContent)]
                  else []))
        with (@nil string) by (now destruct (_ && negb _)).
      cbn [app].
      destruct (negb (need st && String.eqb fixedContent "")
                && forwardable relayMode d) eqn:Hsend.
      * apply andb_true_iff in Hsend as [_ Hf]. cbn.
        split; [now apply sublist_skip | now constructor].
      * cbn. split; [now apply sublist_cons | assumption].
    + rewrite (loop_body_ignored _ _ _ _ Hacc) in *. cbn [fst snd app] in *.
      cbn. split; [now apply sublist_cons | assumption].
Qed.

(** Each stop-carrying frame pays for at most one synthetic message: what
    was injected, plus what is still owed at the end, is at most what was
    owed at the start plus the number of stop-carrying frames. *)
Lemma scan_loop_injection_budget st frames :
  (count_injected (snd (loop st frames))
   + (if need (fst (loop st frames)) then 1 else 0)
   <= (if need st then 1 else 0)
      + length (List.filter (carries_stop relayMode) frames))%nat.
Proof.
  unfold count_injected.
  revert st; induction frames as [|d l IH]; intros st.
  - cbn. lia.
  - rewrite scan_loop_cons. cbn [fst snd List.filter].
    rewrite List.filter_app, length_app.
    specialize (IH (fst (loop_body relayMode fixedContent st d))).
    destruct (accepted d) eqn:Hacc.
    + rewrite (loop_body_accepted _ _ _ _ Hacc) in *. cbn [fst snd need] in *.
      rewrite List.filter_app, length_app.
      replace (length (List.filter is_injected
                 (if negb (need st && String.eqb fixedContent "")
                     && forwardable relayMode d
                  then [Forwarded d] else [])))
        with 0%nat by (now destruct (negb _ && _)).
      destruct (need st), (String.eqb fixedContent ""),
               (carries_stop relayMode d); cbn in *; lia.
    + rewrite (loop_body_ignored _ _ _ _ Hacc) in *. cbn [fst snd] in *.
      assert (Hs : carries_stop relayMode d = false)
        by (unfold carries_stop; now rewrite Hacc).
      rewrite Hs. cbn. lia.
Qed.

End LoopFurther.

(** X5.  Lines the filter rejects (shorter than six bytes, or starting
    with neither [data: ] nor [[DONE]]) are invisible: [StreamHandler]
    returns and writes the same with or without them, wherever they stand.
    In particular a body without any accepted line, the empty body
    included, gives the client the single event [data: [DONE]] and returns
    the empty text. *)
Theorem ignored_frames_invisible `{Collaborators} (relayMode : Z)
    (fixedContent : string) (frames : list string) (closeErr : option string) :
  StreamHandler_frames relayMode fixedContent frames closeErr
  = StreamHandler_frames relayMode fixedContent
      (List.filter accepted frames) closeErr
  /\ (List.filter accepted frames = [] ->
      StreamHandler_frames relayMode fixedContent frames None
      = (None, "", [doneSignal])).
Proof.
  assert (Hp : producer relayMode fixedContent frames
               = producer relayMode fixedContent (List.filter accepted frames)).
  { unfold producer. now rewrite scan_loop_filter. }
  assert (Hs : forall ce,
             StreamHandler_frames relayMode fixedContent frames ce
             = StreamHandler_frames relayMode fixedContent
                 (List.filter accepted frames) ce).
  { intros ce. unfold StreamHandler_frames, client_stream, stream_text.
    now rewrite Hp. }
  split; [apply Hs|].
  intros Hnone. rewrite Hs, Hnone. reflexivity.
Qed.

Lemma ignored_frames_invisible_witness :
  StreamHandler_frames (H := RefCodec.reference) 1 "Ad text"
    [""; "event: ping"; ": keep-alive"] None
  = StreamHandler_frames (H := RefCodec.reference) 1 "Ad text"
      (List.filter accepted [""; "event: ping"; ": keep-alive"]) None
  /\ (List.filter accepted [""; "event: ping"; ": keep-alive"] = [] ->
      StreamHandler_frames (H := RefCodec.reference) 1 "Ad text"
        [""; "event: ping"; ": keep-alive"] None
      = (None, "", [doneSignal])).
Proof.
  apply (ignored_frames_invisible (H := RefCodec.reference) 1 "Ad text"
           [""; "event: ping"; ": keep-alive"] None).
Defined.

(** X6.  The upstream frames handed to the client are a subsequence of the
    input: never reordered, never duplicated, never altered before the
    consumer renders them.  Each of them passed the filter, is not the
    frame [data: [DONE]] and does not carry finish-reason stop. *)
Theorem forwarded_is_subsequence `{Collaborators} (relayMode : Z)
    (fixedContent : string) (frames : list string) :
  sublist
    (forwarded_frames (snd (producer relayMode fixedContent frames))) frames
  /\ Forall (fun d => accepted d = true /\ d <> doneSignal
                      /\ carries_stop relayMode d = false)
       (forwarded_frames (snd (producer relayMode fixedContent frames))).
Proof.
  destruct (scan_loop_forwarded relayMode fixedContent scan_init frames)
    as [Hsub Hall].
  assert (Hout :
    forwarded_frames (snd (producer relayMode fixedContent frames))
    = forwarded_frames
        (snd (scan_loop relayMode fixedContent scan_init frames))).
  { unfold producer.
    destruct (scan_loop relayMode fixedContent scan_init frames) as [st out].
    cbn [snd]. rewrite forwarded_frames_app. cbn. now rewrite app_nil_r. }
  rewrite Hout. split; [exact Hsub|].
  eapply Forall_impl; [exact Hall|].
  intros d Hd. now apply (forwardable_facts relayMode).
Qed.

(** X7.  With empty fixed content no synthetic message is ever sent,
    whatever the frames and the relay mode. *)
Theorem empty_content_sends_no_synthetic `{Collaborators} (relayMode : Z)
    (frames : list string) :
  Forall (fun x => is_injected x = false)
    (snd (producer relayMode "" frames)).
Proof.
  assert (Hcount : count_injected (snd (producer relayMode "" frames)) = 0%nat).
  { unfold producer.
    pose proof (empty_content_never_injects relayMode "" scan_init frames
                  eq_refl) as Hc.
    destruct (scan_loop relayMode "" scan_init frames) as [st out].
    cbn [snd] in *. unfold count_injected in *.
    rewrite List.filter_app, length_app, Hc. reflexivity. }
  unfold count_injected in Hcount.
  induction (snd (producer relayMode "" frames)) as [|x l IH];
    [constructor|].
  cbn [List.filter] in Hcount. destruct (is_injected x) eqn:Hx.
  - discriminate.
  - constructor; [exact Hx | now apply IH].
Qed.

(** X8.  For every fixed content, relay mode and input, the client never
    receives more synthetic messages than the input has stop-carrying
    frames. *)
Theorem at_most_one_synthetic_per_stop `{Collaborators} (relayMode : Z)
    (fixedContent : string) (frames : list string) :
  (count_injected (snd (producer relayMode fixedContent frames))
   <= length (List.filter (carries_stop relayMode) frames))%nat.
Proof.
  pose proof (scan_loop_injection_budget relayMode fixedContent scan_init
                frames) as Hb.
  unfold producer.
  destruct (scan_loop relayMode fixedContent scan_init frames) as [st out].
  cbn [fst snd needInjectFixedMessageBeforeNextSend scan_init] in *.
  unfold count_injected in *.
  rewrite List.filter_app, length_app. cbn [List.filter is_injected length].
  destruct (needInjectFixedMessageBeforeNextSend st); lia.
Qed.

(** ** The two decoding modes and the others *)

Section ModeFacts.
Context `{Collaborators}.

Abbreviation need := needInjectFixedMessageBeforeNextSend.

Lemma taken_prefix data p :
  String.eqb (GoString.take (String.length p) data) p = true ->
  GoString.HasPrefix data p = true.
Proof.
  intros Ht. apply String.eqb_eq in Ht.
  now apply (GoStringFacts.take_take_prefix (String.length p) data p).
Qed.

Lemma chat_frame_view data :
  carries_stop RelayModeChatCompletions data
  = match chat_delta data with Some r => has_stop r | None => false end
  /\ frame_text RelayModeChatCompletions data = joined (delta_contents data).
Proof.
  destruct (chat_delta data) as [r|] eqn:Hd.
  - destruct (chat_delta_frame _ _ Hd) as (_ & Hs & _ & Ht).
    unfold delta_contents. rewrite Hd. split; assumption.
  - unfold carries_stop, frame_text, delta_contents. rewrite Hd.
    destruct (accepted data); [|split; reflexivity].
    cbn [andb]. unfold parse_frame.
    destruct (String.eqb (GoString.take 6 data) "data: ") eqn:Ht;
      [|split; reflexivity].
    destruct (String.eqb data "data: [DONE]") eqn:Hm; [split; reflexivity|].
    unfold chat_delta in Hd.
    rewrite (taken_prefix data "data: " Ht) in Hd.
    unfold doneSignal in Hd. rewrite Hm in Hd. cbn [andb negb] in Hd.
    rewrite Z.eqb_refl, Hd. split; reflexivity.
Qed.

Lemma completions_fold_init cs :
  fold_left completions_choice cs scan_init =
  {| need := existsb (fun c => String.eqb (CFinishReason c) "stop") cs;
     responseText := joined (map Text cs);
     generated := 0 |}.
Proof.
  induction cs as [|c cs IH]; [reflexivity|].
  cbn [fold_left]. rewrite completions_fold_shift, IH.
  unfold completions_choice. cbn. f_equal.
  now destruct (String.eqb (CFinishReason c) "stop").
Qed.

Lemma completions_frame_view data :
  RelayModeCompletions <> RelayModeChatCompletions ->
  carries_stop RelayModeCompletions data
  = match completions_delta data with
    | Some r => completions_has_stop r
    | None => false
    end
  /\ frame_text RelayModeCompletions data = joined (completions_texts data).
Proof.
  intros Hdistinct. apply Z.eqb_neq in Hdistinct.
  unfold carries_stop, frame_text, completions_texts, completions_delta.
  destruct (GoString.HasPrefix data "data: ") eqn:Hp.
  - destruct (prefixed_accepted _ Hp) as [Hlen Htake].
    assert (Hacc : accepted data = true)
      by (unfold accepted; now rewrite Hlen, Htake).
    rewrite Hacc. cbn [andb]. unfold parse_frame, doneSignal. rewrite Htake.
    destruct (String.eqb data "data: [DONE]"); [split; reflexivity|].
    cbn [negb]. rewrite Hdistinct, Z.eqb_refl.
    destruct (unmarshalCompletions _) as [r|]; [|split; reflexivity].
    rewrite completions_fold_init. split; reflexivity.
  - cbn [andb]. unfold parse_frame.
    destruct (String.eqb (GoString.take 6 data) "data: ") eqn:Ht.
    + rewrite (taken_prefix data "data: " Ht) in Hp. discriminate.
    + cbn. rewrite andb_false_r. now destruct (accepted data).
Qed.

(** In a mode that is neither of the two, frames are not decoded. *)
Lemma other_mode_frame_view relayMode data :
  relayMode <> RelayModeChatCompletions ->
  relayMode <> RelayModeCompletions ->
  carries_stop relayMode data = false
  /\ forwardable relayMode data
     = accepted data && negb (String.eqb data doneSignal)
  /\ frame_text relayMode data = "".
Proof.
  intros H1 H2. apply Z.eqb_neq in H1. apply Z.eqb_neq in H2.
  unfold carries_stop, forwardable, frame_text, parse_frame, doneSignal.
  rewrite H1, H2.
  destruct (String.eqb (GoString.take 6 data) "data: ") eqn:Ht.
  - destruct (String.eqb data "data: [DONE]"); cbn;
      rewrite ?andb_false_r, ?andb_true_r;
      repeat split; try reflexivity; now destruct (accepted data).
  - assert (Hm : String.eqb data "data: [DONE]" = false).
    { apply String.eqb_neq. intros ->. cbv in Ht. discriminate. }
    rewrite Hm. cbn. rewrite ?andb_false_r, ?andb_true_r.
    repeat split; try reflexivity; now destruct (accepted data).
Qed.

Lemma joined_all_empty (l : list string) :
  Forall (fun t => t = "") l -> joined l = "".
Proof. induction 1 as [|t l -> _ IH]; [reflexivity | exact IH]. Qed.

End ModeFacts.

(** X9.  In chat mode, for every input and every fixed content, the text
    returned is the in-order concatenation of the delta contents of all
    decodable event frames, those withheld from the client included; the
    terminal marker, undecodable frames, bare [[DONE]] lines and ignored
    lines add nothing. *)
Theorem chat_text_is_all_deltas `{Collaborators} (fixedContent : string)
    (frames : list string) :
  StreamHandler_frames RelayModeChatCompletions fixedContent frames None
  = (None,
     joined (flat_map delta_contents frames),
     client_stream RelayModeChatCompletions fixedContent frames).
Proof.
  unfold StreamHandler_frames. rewrite stream_text_frames.
  f_equal. f_equal.
  induction frames as [|d l IH]; [reflexivity|].
  cbn [map flat_map joined fold_right]. fold (joined (map (frame_text RelayModeChatCompletions) l)).
  rewrite joined_app, <- IH.
  now destruct (chat_frame_view d) as [_ ->].
Qed.

(** X10.  In chat mode a frame raises the injection flag exactly when it
    is a decodable event frame, other than the terminal marker, one of
    whose choices has a non-null finish reason equal to [stop]: a null
    finish reason, another reason, an undecodable payload or a bare
    [[DONE]] line never does. *)
Theorem chat_stop_detection `{Collaborators} (data : string) :
  carries_stop RelayModeChatCompletions data
  = match chat_delta data with
    | Some r => existsb (fun c => match FinishReason c with
                                  | Some reason => String.eqb reason "stop"
                                  | None => false
                                  end) (Choices r)
    | None => false
    end.
Proof. now destruct (chat_frame_view data) as [-> _]. Qed.

(** X11.  In legacy-completion mode (its constant differing from the chat
    one) the text returned is the in-order concatenation of the [Text] of
    every choice of every decodable event frame, and a frame raises the
    injection flag exactly when one of its choices has finish reason
    [stop]. *)
Theorem completions_text_and_stop `{Collaborators} (fixedContent : string)
    (frames : list string) :
  RelayModeCompletions <> RelayModeChatCompletions ->
  StreamHandler_frames RelayModeCompletions fixedContent frames None
  = (None,
     joined (flat_map completions_texts frames),
     client_stream RelayModeCompletions fixedContent frames)
  /\ forall data,
       carries_stop RelayModeCompletions data
       = match completions_delta data with
         | Some r => completions_has_stop r
         | None => false
         end.
Proof.
  intros Hdistinct. split.
  - unfold StreamHandler_frames. rewrite stream_text_frames.
    f_equal. f_equal.
    induction frames as [|d l IH]; [reflexivity|].
    cbn [map flat_map joined fold_right].
    fold (joined (map (frame_text RelayModeCompletions) l)).
    rewrite joined_app, <- IH.
    now destruct (completions_frame_view d Hdistinct) as [_ ->].
  - intros data. now destruct (completions_frame_view data Hdistinct).
Qed.

(** X12.  In a relay mode that is neither chat nor legacy completion no
    frame is decoded: every accepted frame other than the exact frame
    [data: [DONE]] is forwarded in order, nothing is injected, the flag is
    never raised and the text returned is empty. *)
Theorem other_modes_pass_through `{Collaborators} (relayMode : Z)
    (fixedContent : string) (frames : list string) :
  relayMode <> RelayModeChatCompletions ->
  relayMode <> RelayModeCompletions ->
  producer relayMode fixedContent frames
  = ({| needInjectFixedMessageBeforeNextSend := false;
        responseText := "";
        generated := 0 |},
     map Forwarded
       (List.filter (fun d => accepted d && negb (String.eqb d doneSignal))
          frames)
     ++ [DoneSignal]).
Proof.
  intros H1 H2. unfold producer.
  rewrite scan_loop_plain; [|reflexivity|].
  - f_equal.
    + f_equal. cbn [responseText scan_init].
      apply joined_all_empty. apply Forall_map.
      apply Forall_forall. intros d _.
      now destruct (other_mode_frame_view relayMode d H1 H2) as (_ & _ & ->).
    + f_equal. f_equal. apply List.filter_ext. intros d.
      now destruct (other_mode_frame_view relayMode d H1 H2) as (_ & -> & _).
  - apply Forall_forall. intros d _.
    now destruct (other_mode_frame_view relayMode d H1 H2) as (-> & _).
Qed.

Lemma completions_text_and_stop_witness :
  StreamHandler_frames (H := RefCodec.reference) 2 "Ad text"
    [ MoreSamples.completion_hi;
      "data: garbage";
      MoreSamples.completion_there_stop;
      doneSignal ] None
  = (None,
     joined
       (flat_map (completions_texts (H := RefCodec.reference))
          [ MoreSamples.completion_hi;
            "data: garbage";
            MoreSamples.completion_there_stop;
            doneSignal ]),
     client_stream (H := RefCodec.reference) 2 "Ad text"
       [ MoreSamples.completion_hi;
         "data: garbage";
         MoreSamples.completion_there_stop;
         doneSignal ])
  /\ forall data,
       carries_stop (H := RefCodec.reference) 2 data
       = match completions_delta (H := RefCodec.reference) data with
         | Some r => completions_has_stop r
         | None => false
         end.
Proof.
  apply (completions_text_and_stop (H := RefCodec.reference) "Ad text").
  discriminate.
Defined.

(** On that input the text is [Hi there]. *)
Example completions_text_run :
  joined
    (flat_map (completions_texts (H := RefCodec.reference))
       [ MoreSamples.completion_hi;
         "data: garbage";
         MoreSamples.completion_there_stop;
         doneSignal ])
  = "Hi there".
Proof. vm_compute. reflexivity. Qed.

Lemma other_modes_pass_through_witness :
  producer (H := RefCodec.reference) 3 "Ad text"
    [ Samples.frame_there_stop; "data: not json"; ""; doneSignal; "[DONE]" ]
  = ({| needInjectFixedMessageBeforeNextSend := false;
        responseText := "";
        generated := 0 |},
     map Forwarded
       (List.filter (fun d => accepted d && negb (String.eqb d doneSignal))
          [ Samples.frame_there_stop; "data: not json"; ""; doneSignal;
            "[DONE]" ])
     ++ [DoneSignal]).
Proof.
  apply (other_modes_pass_through (H := RefCodec.reference) 3 "Ad text");
    discriminate.
Defined.

(** ** The full-body relay, further *)

Section HandlerFurther.
Context `{Collaborators}.

Lemma copy_headers_empty_value entries k :
  In (k, []) entries -> fst (copy_headers entries) = false.
Proof.
  induction entries as [|[k' v] l IH]; [intros []|].
  cbn [copy_headers]. intros [Hin | Hin].
  - inversion Hin; subst. reflexivity.
  - destruct v as [|v0 rest]; [reflexivity|].
    specialize (IH Hin). destruct (copy_headers l) as [ok trace].
    exact IH.
Qed.

Lemma copy_headers_all_sets entries :
  Forall (fun e => is_header_set e = true) (snd (copy_headers entries)).
Proof.
  induction entries as [|[k v] l IH]; [constructor|].
  cbn [copy_headers]. destruct v as [|v0 rest]; [constructor|].
  destruct (copy_headers l) as [ok trace]. cbn [snd] in *.
  constructor; [reflexivity | exact IH].
Qed.

Lemma append_fixed_ok fixedContent choices choices' trace :
  append_fixed fixedContent choices = (Ok choices', trace) ->
  Forall2
    (fun c c' =>
       Index c' = Index c
       /\ TFinishReason c' = TFinishReason c
       /\ Role (Message_ c') = Role (Message_ c)
       /\ jsonMarshal
            (JStr (StringContent (Message_ c) +:+ LFLF +:+ fixedContent))
          = Ok (Content (Message_ c')))
    choices choices'.
Proof.
  revert choices' trace; induction choices as [|c cs IH];
    intros choices' trace E.
  - cbn in E. injection E as <- _. constructor.
  - cbn [append_fixed] in E.
    destruct (jsonMarshal _) as [enc|err] eqn:Hm; [|discriminate].
    destruct (append_fixed fixedContent cs) as [[rest|err] t] eqn:Hrest;
      [|discriminate].
    injection E as <- _.
    constructor; [|now eapply IH].
    cbn. repeat split; try reflexivity. exact Hm.
Qed.

Lemma lastChoiceText_last choices :
  lastChoiceText choices
  = match last choices with
    | Some c => StringContent (Message_ c)
    | None => ""
    end.
Proof.
  unfold lastChoiceText. generalize "" as acc.
  induction choices as [|c cs IH]; intros acc; [reflexivity|].
  cbn [fold_left]. rewrite IH. destruct cs as [|c1 cs]; [reflexivity|].
  change (last (c :: c1 :: cs)) with (last (c1 :: cs)).
  destruct (last (c1 :: cs)) as [x|] eqn:Hl; [reflexivity|].
  apply last_None in Hl. discriminate.
Qed.

End HandlerFurther.

(** X13.  Whatever [Handler] returns, an error comes with no usage and an
    empty text, and no error comes with a usage.  The error is either the
    upstream error record with the upstream status code, or one of the six
    wrapped failures, each with status 500. *)
Theorem handler_result_shape `{Collaborators} resp writeErr promptTokens
    model fixedContent err usage text trace :
  Handler resp writeErr promptTokens model fixedContent
  = (Return err usage text, trace) ->
  match err with
  | None => exists u, usage = Some u
  | Some e =>
      usage = None /\ text = ""
      /\ ((exists responseBody textResponse,
              resp_Body resp = Ok responseBody
              /\ unmarshalResponse responseBody = Ok textResponse
              /\ Error_Type (TError textResponse) <> ""
              /\ e = {| Err := TError textResponse;
                        StatusCode := resp_StatusCode resp |})
          \/ (exists msg code,
                 In code handler_error_codes
                 /\ e = ErrorWrapper msg code StatusInternalServerError))
  end.
Proof.
  unfold Handler, wrapped.
  assert (Hcodes : forall msg code, In code handler_error_codes ->
            (exists responseBody textResponse,
                resp_Body resp = Ok responseBody
                /\ unmarshalResponse responseBody = Ok textResponse
                /\ Error_Type (TError textResponse) <> ""
                /\ ErrorWrapper msg code StatusInternalServerError
                   = {| Err := TError textResponse;
                        StatusCode := resp_StatusCode resp |})
            \/ (exists msg' code',
                   In code' handler_error_codes
                   /\ ErrorWrapper msg code StatusInternalServerError
                      = ErrorWrapper msg' code' StatusInternalServerError)).
  { intros msg code Hin. right. now exists msg, code. }
  destruct (resp_Body resp) as [responseBody|e0] eqn:Hb.
  2:{ intros E; inversion E; subst. repeat split; try reflexivity.
      apply Hcodes. cbn. tauto. }
  destruct (resp_Close resp) as [e0|].
  { intros E; inversion E; subst. repeat split; try reflexivity.
    apply Hcodes. cbn. tauto. }
  destruct (unmarshalResponse responseBody) as [textResponse|e0] eqn:Hun.
  2:{ intros E; inversion E; subst. repeat split; try reflexivity.
      apply Hcodes. cbn. tauto. }
  destruct (String.eqb (Error_Type (TError textResponse)) "") eqn:Hty.
  2:{ cbn [negb]. intros E; inversion E; subst.
      repeat split; try reflexivity. left.
      exists responseBody, textResponse. apply String.eqb_neq in Hty.
      repeat split; assumption || reflexivity. }
  cbn [negb].
  destruct (inject_fixed fixedContent textResponse) as [[injected|e0] trace1].
  2:{ intros E; inversion E; subst. repeat split; try reflexivity.
      apply Hcodes. cbn. tauto. }
  destruct (backfill_usage _ _ _ injected) as [modified trace2].
  unfold write_response, wrapped.
  destruct (marshalResponse modified) as [out|e0].
  2:{ intros E; inversion E; subst. repeat split; try reflexivity.
      apply Hcodes. cbn. tauto. }
  destruct (copy_headers _) as [ok sets].
  destruct ok; [|discriminate].
  destruct writeErr as [e0|].
  - intros E; inversion E; subst. repeat split; try reflexivity.
    apply Hcodes. cbn. tauto.
  - intros E; inversion E; subst. now eexists.
Qed.

Lemma handler_result_shape_witness :
  @None Usage = None /\ "" = ""
  /\ ((exists responseBody textResponse,
          resp_Body (ResponseSamples.response 200 "not json")
          = Ok responseBody
          /\ unmarshalResponse (Collaborators := RefCodec.reference)
               responseBody = Ok textResponse
          /\ Error_Type (TError textResponse) <> ""
          /\ ErrorWrapper (Collaborators := RefCodec.reference)
               "invalid character" "unmarshal_response_body_failed" 500
             = {| Err := TError textResponse;
                  StatusCode :=
                    resp_StatusCode
                      (ResponseSamples.response 200 "not json") |})
      \/ (exists msg code,
             In code handler_error_codes
             /\ ErrorWrapper (Collaborators := RefCodec.reference)
                  "invalid character" "unmarshal_response_body_failed" 500
                = ErrorWrapper (Collaborators := RefCodec.reference)
                    msg code StatusInternalServerError)).
Proof.
  apply (handler_result_shape (H := RefCodec.reference)
           (ResponseSamples.response 200 "not json") None 7 "gpt" "Ad text"
           (Some (ErrorWrapper (Collaborators := RefCodec.reference)
                    "invalid character" "unmarshal_response_body_failed" 500))
           None "" []).
  vm_compute. reflexivity.
Defined.

(** X14.  When the write to the client does not fail, an error return of
    [Handler] means that nothing was done on the client's writer: no
    status code, no header, no body.  A failure to read, close, decode or
    encode never leaves a partial response. *)
Theorem handler_error_writes_nothing `{Collaborators} resp promptTokens
    model fixedContent e usage text trace :
  Handler resp None promptTokens model fixedContent
  = (Return (Some e) usage text, trace) ->
  Forall (fun x => is_writer_effect x = false) trace
  /\ forall w, client_view w trace = w.
Proof.
  intros Hrun.
  assert (Hsilent : Forall (fun x => is_writer_effect x = false) trace).
  { revert Hrun. unfold Handler, wrapped.
    destruct (resp_Body resp) as [responseBody|e0];
      [|intros E; inversion E; constructor].
    destruct (resp_Close resp) as [e0|];
      [intros E; inversion E; constructor|].
    destruct (unmarshalResponse responseBody) as [textResponse|e0];
      [|intros E; inversion E; constructor].
    destruct (negb _); [intros E; inversion E; constructor|].
    pose proof (inject_fixed_trace fixedContent textResponse) as Ht1.
    destruct (inject_fixed fixedContent textResponse)
      as [[injected|e0] trace1]; cbn [snd] in Ht1.
    2:{ intros E; inversion E; subst. apply (marshal_silent _ Ht1). }
    pose proof (backfill_trace promptTokens model
                  (lastChoiceText (TChoices textResponse)) injected) as Ht2.
    destruct (backfill_usage _ _ _ injected) as [modified trace2].
    cbn [snd] in Ht2. unfold write_response, wrapped.
    destruct (marshalResponse modified) as [out|e0].
    - destruct (copy_headers _) as [ok sets].
      destruct ok; discriminate.
    - intros E; inversion E; subst.
      apply Forall_app. split; [apply (marshal_silent _ Ht1)|].
      apply Forall_app. split; [exact Ht2|]. repeat constructor. }
  split; [exact Hsilent|]. intros w. now apply client_view_silent.
Qed.

Lemma handler_error_writes_nothing_witness :
  Forall (fun x => is_writer_effect x = false)
    (snd (Handler (H := RefCodec.reference)
            (ResponseSamples.response 200 "not json") None 7 "gpt" "Ad text"))
  /\ forall w,
       client_view w
         (snd (Handler (H := RefCodec.reference)
                 (ResponseSamples.response 200 "not json")
                 None 7 "gpt" "Ad text")) = w.
Proof.
  apply (handler_error_writes_nothing (H := RefCodec.reference)
           (ResponseSamples.response 200 "not json") 7 "gpt" "Ad text"
           (ErrorWrapper (Collaborators := RefCodec.reference)
              "invalid character" "unmarshal_response_body_failed" 500)
           None "").
  vm_compute. reflexivity.
Defined.

(** X15.  An upstream header key with an empty list of values is never
    relayed: [Handler] does not succeed on such a response, and where it
    would have succeeded on the same body under other headers it panics at
    [v[0]] of the header loop (line 208), after the status is set and
    before any byte of the body is written. *)
Theorem empty_header_value_panics `{Collaborators} resp writeErr
    promptTokens model fixedContent k :
  resp_Header resp !! k = Some [] ->
  (forall usage text,
     fst (Handler resp writeErr promptTokens model fixedContent)
     <> Return None usage text)
  /\ (forall resp' usage text,
        resp_Body resp' = resp_Body resp ->
        resp_Close resp' = resp_Close resp ->
        fst (Handler resp' writeErr promptTokens model fixedContent)
        = Return None usage text ->
        fst (Handler resp writeErr promptTokens model fixedContent) = Panic
        /\ forall w,
             rw_body
               (client_view w
                  (snd (Handler resp writeErr promptTokens model
                          fixedContent)))
             = rw_body w).
Proof.
  intros Hk.
  assert (Hin : In (k, []) (map_to_list (resp_Header resp))).
  { apply list_elem_of_In. now apply elem_of_map_to_list. }
  split.
  - intros usage text Hres.
    destruct (Handler resp writeErr promptTokens model fixedContent)
      as [res trace] eqn:Hrun.
    cbn [fst] in Hres. subst res.
    destruct (Handler_success _ _ _ _ _ _ _ _ Hrun)
      as (body & tr & inj & t1 & modified & t2 & out & sets
          & _ & _ & _ & _ & _ & _ & _ & Hcopy & _).
    pose proof (copy_headers_empty_value _ _ Hin) as Hfail.
    rewrite Hcopy in Hfail. discriminate Hfail.
  - intros resp' usage text Hbody Hclose Hres.
    destruct (Handler resp' writeErr promptTokens model fixedContent)
      as [res trace] eqn:Hrun.
    cbn [fst] in Hres. subst res.
    destruct (Handler_success _ _ _ _ _ _ _ _ Hrun)
      as (body & tr & inj & t1 & modified & t2 & out & sets
          & Hb & Hc & Hun & Hty & Hinj & Hback & Hm & _).
    rewrite Hbody in Hb. rewrite Hclose in Hc.
    pose proof (copy_headers_empty_value _ _ Hin) as Hfail.
    pose proof (copy_headers_all_sets (map_to_list (resp_Header resp)))
      as Hsets.
    pose proof (inject_fixed_trace fixedContent tr) as Ht1.
    pose proof (backfill_trace promptTokens model
                  (lastChoiceText (TChoices tr)) inj) as Ht2.
    unfold Handler. rewrite Hb, Hc, Hun, Hty.
    change (negb (String.eqb "" "")) with false. cbn iota.
    rewrite Hinj in Ht1 |- *. rewrite Hback in Ht2 |- *.
    cbn [snd] in Ht1, Ht2.
    unfold write_response. rewrite Hm.
    destruct (copy_headers (map_to_list (resp_Header resp)))
      as [ok sets0].
    cbn [fst snd] in Hfail, Hsets. subst ok.
    cbn [fst snd]. split; [reflexivity|].
    intros w. rewrite !client_view_app.
    rewrite (client_view_silent w t1) by apply (marshal_silent _ Ht1).
    rewrite (client_view_silent w t2) by exact Ht2.
    cbn [client_view fold_left apply_effect].
    set (w1 := {| rw_status := resp_StatusCode resp;
                  rw_header := rw_header w; rw_body := rw_body w |}).
    fold (client_view w1 sets0).
    destruct (sets_keep w1 sets0 Hsets) as [_ ->]. reflexivity.
Qed.

Lemma empty_header_value_panics_witness :
  (forall usage text,
     fst (Handler (H := RefCodec.reference)
            (MoreSamples.response_empty_header 200
               ResponseSamples.body_with_usage)
            None 7 "gpt" "Ad text")
     <> Return None usage text)
  /\ (forall resp' usage text,
        resp_Body resp'
        = resp_Body (MoreSamples.response_empty_header 200
                       ResponseSamples.body_with_usage) ->
        resp_Close resp'
        = resp_Close (MoreSamples.response_empty_header 200
                        ResponseSamples.body_with_usage) ->
        fst (Handler (H := RefCodec.reference) resp' None 7 "gpt" "Ad text")
        = Return None usage text ->
        fst (Handler (H := RefCodec.reference)
               (MoreSamples.response_empty_header 200
                  ResponseSamples.body_with_usage)
               None 7 "gpt" "Ad text") = Panic
        /\ forall w,
             rw_body
               (client_view w
                  (snd (Handler (H := RefCodec.reference)
                          (MoreSamples.response_empty_header 200
                             ResponseSamples.body_with_usage)
                          None 7 "gpt" "Ad text")))
             = rw_body w).
Proof.
  apply (empty_header_value_panics (H := RefCodec.reference)
           (MoreSamples.response_empty_header 200
              ResponseSamples.body_with_usage)
           None 7 "gpt" "Ad text" "X-Empty").
  vm_compute. reflexivity.
Defined.

(** The sample response is relayed under its other headers, and panics
    with the empty one. *)
Example empty_header_value_run :
  fst (Handler (H := RefCodec.reference)
         (ResponseSamples.response 200 ResponseSamples.body_with_usage)
         None 7 "gpt" "Ad text")
  = Return None
      (Some {| PromptTokens := 9; CompletionTokens := 2; TotalTokens := 11 |})
      "Hello"
  /\ fst (Handler (H := RefCodec.reference)
            (MoreSamples.response_empty_header 200
               ResponseSamples.body_with_usage)
            None 7 "gpt" "Ad text") = Panic.
Proof. split; vm_compute; reflexivity. Qed.

(** X16.  On success with non-empty fixed content, the response encoded
    and written to the client has as many choices as the upstream one, in
    the same order, each with its index, role and finish reason unchanged
    and with, as content, the JSON encoding of its own upstream text
    followed by two line feeds and the fixed content.  Every choice is
    extended, not only the last one; the error record is unchanged. *)
Theorem every_choice_extended `{Collaborators} resp writeErr promptTokens
    model fixedContent usage text trace responseBody textResponse :
  Handler resp writeErr promptTokens model fixedContent
  = (Return None usage text, trace) ->
  fixedContent <> "" ->
  resp_Body resp = Ok responseBody ->
  unmarshalResponse responseBody = Ok textResponse ->
  exists modified out,
    In (EMarshalResponse modified) trace
    /\ marshalResponse modified = Ok out
    /\ In (EWrite out) trace
    /\ TError modified = TError textResponse
    /\ Forall2
         (fun c c' =>
            Index c' = Index c
            /\ TFinishReason c' = TFinishReason c
            /\ Role (Message_ c') = Role (Message_ c)
            /\ jsonMarshal
                 (JStr (StringContent (Message_ c) +:+ LFLF +:+ fixedContent))
               = Ok (Content (Message_ c')))
         (TChoices textResponse) (TChoices modified).
Proof.
  intros Hrun Hfc Hb Hun.
  destruct (Handler_success _ _ _ _ _ _ _ _ Hrun)
    as (body & tr & inj & t1 & modified & t2 & out & sets
        & Hb' & _ & Hun' & _ & Hinj & Hback & Hm & _ & _ & _ & _ & Htrace).
  rewrite Hb in Hb'. injection Hb' as <-.
  rewrite Hun in Hun'. injection Hun' as <-.
  exists modified, out.
  assert (Hchoices : TChoices modified = TChoices inj
                     /\ TError modified = TError inj).
  { unfold backfill_usage in Hback.
    destruct (_ =? _)%Z; injection Hback as <- _; split; reflexivity. }
  destruct Hchoices as [Hc He].
  split; [rewrite Htrace, !in_app_iff; cbn [In]; tauto|].
  split; [exact Hm|].
  split; [rewrite Htrace, !in_app_iff; cbn [In]; tauto|].
  destruct (inject_fixed_keeps _ _ _ _ Hinj) as [_ Herr].
  split; [congruence|].
  rewrite Hc. unfold inject_fixed in Hinj.
  apply String.eqb_neq in Hfc. rewrite Hfc in Hinj. cbn [negb] in Hinj.
  destruct (append_fixed fixedContent (TChoices textResponse))
    as [[cs|e0] t] eqn:Happ; [|discriminate].
  injection Hinj as <- _. cbn [TChoices].
  now apply (append_fixed_ok _ _ _ _ Happ).
Qed.

(** X17.  The text [Handler] returns on success is the string content of
    the last upstream choice, as decoded before any injection, and the
    empty text when the response has no choice; earlier choices do not
    contribute. *)
Theorem returned_text_is_last_choice `{Collaborators} resp writeErr
    promptTokens model fixedContent usage text trace responseBody
    textResponse :
  Handler resp writeErr promptTokens model fixedContent
  = (Return None usage text, trace) ->
  resp_Body resp = Ok responseBody ->
  unmarshalResponse responseBody = Ok textResponse ->
  text = match last (TChoices textResponse) with
         | Some c => StringContent (Message_ c)
         | None => ""
         end.
Proof.
  intros Hrun Hb Hun.
  destruct (Handler_success _ _ _ _ _ _ _ _ Hrun)
    as (body & tr & inj & t1 & modified & t2 & out & sets
        & Hb' & _ & Hun' & _ & _ & _ & _ & _ & _ & _ & Ht & _).
  rewrite Hb in Hb'. injection Hb' as <-.
  rewrite Hun in Hun'. injection Hun' as <-.
  rewrite Ht. apply lastChoiceText_last.
Qed.

(** X18.  The header loop gives the same result in whatever order the map
    is walked: as long as no value list is empty, every upstream key ends
    up holding the first of its values (later values of that key are
    dropped, a previous client value is overwritten), and every other key
    keeps what the writer held. *)
Theorem headers_copied_in_any_order `{Collaborators}
    (upstream : gmap string (list string))
    (entries : list (string * list string)) (sets : list effect)
    (w : ResponseWriter) (k : string) :
  Permutation entries (map_to_list upstream) ->
  copy_headers entries = (true, sets) ->
  rw_header (client_view w sets) !! k
  = match upstream !! k with
    | Some vs => head vs
    | None => rw_header w !! k
    end.
Proof.
  intros Hperm Hcopy.
  assert (Hnd : NoDup (map fst entries)).
  { rewrite Hperm. apply map_to_list_keys. }
  destruct (copy_headers_sets _ _ Hcopy) as [Hsets Hfirst].
  destruct (upstream !! k) as [vs|] eqn:Hk.
  - assert (Hin : In (k, vs) entries).
    { apply list_elem_of_In. rewrite Hperm. now apply elem_of_map_to_list. }
    destruct (Hfirst _ _ Hin) as (v0 & rest & -> & _).
    cbn [head]. eapply copy_headers_view; eassumption.
  - apply sets_other_key; [exact Hsets|].
    intros v Hv.
    pose proof (copy_headers_keys _ _ Hcopy _ _ Hv) as Hkey.
    apply list_elem_of_In in Hkey.
    apply list_elem_of_fmap in Hkey as ([k0 vs] & Hk0 & Hin).
    cbn [fst] in Hk0. subst k0.
    rewrite Hperm in Hin. apply elem_of_map_to_list in Hin. congruence.
Qed.

(** X19.  A successful [Handler] leaves alone every header of the client's
    writer whose key upstream did not send. *)
Theorem other_headers_kept `{Collaborators} resp writeErr promptTokens model
    fixedContent usage text trace w k :
  Handler resp writeErr promptTokens model fixedContent
  = (Return None usage text, trace) ->
  resp_Header resp !! k = None ->
  rw_header (client_view w trace) !! k = rw_header w !! k.
Proof.
  intros Hrun Hk.
  destruct (Handler_success _ _ _ _ _ _ _ _ Hrun)
    as (body & tr & inj & t1 & modified & t2 & out & sets
        & _ & _ & _ & _ & Hinj & Hback & _ & Hcopy & _ & _ & _ & Htrace).
  assert (Hs1 : Forall (fun e => is_writer_effect e = false) t1).
  { pose proof (inject_fixed_trace fixedContent tr) as Ht1.
    rewrite Hinj in Ht1. apply (marshal_silent _ Ht1). }
  assert (Hs2 : Forall (fun e => is_writer_effect e = false) t2).
  { pose proof (backfill_trace promptTokens model
                  (lastChoiceText (TChoices tr)) inj) as Ht2.
    now rewrite Hback in Ht2. }
  destruct (copy_headers_sets _ _ Hcopy) as [Hsets _].
  rewrite Htrace, !client_view_app.
  rewrite (client_view_silent _ _ Hs1), (client_view_silent _ _ Hs2).
  cbn [client_view fold_left apply_effect rw_header].
  set (w1 := {| rw_status := resp_StatusCode resp;
                rw_header := rw_header w; rw_body := rw_body w |}).
  fold (client_view w1 sets).
  apply (sets_other_key w1 sets k Hsets).
  intros v Hv.
  pose proof (copy_headers_keys _ _ Hcopy _ _ Hv) as Hkey.
  apply list_elem_of_In in Hkey.
  apply list_elem_of_fmap in Hkey as ([k0 vs] & Hk0 & Hin).
  cbn [fst] in Hk0. subst k0.
  apply elem_of_map_to_list in Hin. congruence.
Qed.

Lemma every_choice_extended_witness :
  exists modified out,
    In (EMarshalResponse modified)
      (snd (Handler (H := RefCodec.reference)
              (ResponseSamples.response 200 MoreSamples.body_two_choices)
              None 7 "gpt" "Ad text"))
    /\ marshalResponse (Collaborators := RefCodec.reference) modified = Ok out
    /\ In (EWrite out)
         (snd (Handler (H := RefCodec.reference)
                 (ResponseSamples.response 200 MoreSamples.body_two_choices)
                 None 7 "gpt" "Ad text"))
    /\ TError modified = TError MoreSamples.two_choices
    /\ Forall2
         (fun c c' =>
            Index c' = Index c
            /\ TFinishReason c' = TFinishReason c
            /\ Role (Message_ c') = Role (Message_ c)
            /\ jsonMarshal (Collaborators := RefCodec.reference)
                 (JStr (StringContent (Collaborators := RefCodec.reference)
                          (Message_ c) +:+ LFLF +:+ "Ad text"))
               = Ok (Content (Message_ c')))
         (TChoices MoreSamples.two_choices) (TChoices modified).
Proof.
  apply (every_choice_extended (H := RefCodec.reference)
           (ResponseSamples.response 200 MoreSamples.body_two_choices)
           None 7 "gpt" "Ad text"
           (Some {| PromptTokens := 9; CompletionTokens := 3;
                    TotalTokens := 12 |})
           "Bye" _ MoreSamples.body_two_choices MoreSamples.two_choices).
  - vm_compute. reflexivity.
  - discriminate.
  - reflexivity.
  - vm_compute. reflexivity.
Defined.

Lemma returned_text_is_last_choice_witness :
  "Bye"
  = match last (TChoices MoreSamples.two_choices) with
    | Some c => StringContent (Collaborators := RefCodec.reference) (Message_ c)
    | None => ""
    end.
Proof.
  apply (returned_text_is_last_choice (H := RefCodec.reference)
           (ResponseSamples.response 200 MoreSamples.body_two_choices)
           None 7 "gpt" "Ad text"
           (Some {| PromptTokens := 9; CompletionTokens := 3;
                    TotalTokens := 12 |})
           "Bye"
           (snd (Handler (H := RefCodec.reference)
                   (ResponseSamples.response 200 MoreSamples.body_two_choices)
                   None 7 "gpt" "Ad text"))
           MoreSamples.body_two_choices MoreSamples.two_choices).
  - vm_compute. reflexivity.
  - reflexivity.
  - vm_compute. reflexivity.
Defined.

Lemma headers_copied_in_any_order_witness :
  rw_header
    (client_view MoreSamples.writer_with_cors
       (snd (copy_headers (rev (map_to_list ResponseSamples.headers)))))
    !! "X-Request-Id"
  = match ResponseSamples.headers !! "X-Request-Id" with
    | Some vs => head vs
    | None => rw_header MoreSamples.writer_with_cors !! "X-Request-Id"
    end.
Proof.
  apply (headers_copied_in_any_order (H := RefCodec.reference)
           ResponseSamples.headers
           (rev (map_to_list ResponseSamples.headers))).
  - symmetry. apply Permutation_rev.
  - vm_compute. reflexivity.
Defined.

Lemma other_headers_kept_witness :
  rw_header
    (client_view MoreSamples.writer_with_cors
       (snd (Handler (H := RefCodec.reference)
               (ResponseSamples.response 200 MoreSamples.body_two_choices)
               None 7 "gpt" "Ad text")))
    !! "Access-Control-Allow-Origin"
  = rw_header MoreSamples.writer_with_cors !! "Access-Control-Allow-Origin".
Proof.
  apply (other_headers_kept (H := RefCodec.reference)
           (ResponseSamples.response 200 MoreSamples.body_two_choices)
           None 7 "gpt" "Ad text"
           (Some {| PromptTokens := 9; CompletionTokens := 3;
                    TotalTokens := 12 |})
           "Bye").
  - vm_compute. reflexivity.
  - vm_compute. reflexivity.
Defined.

(** X20.  The outcome of the write to the client matters only at the very
    end: on an input for which [Handler] succeeds when the write succeeds,
    a failing write makes it return the failure wrapped under the code
    [write_modified_response_body_failed] with status 500, no usage and an
    empty text, after the same status code and the same headers have been
    set on the writer. *)
Theorem write_failure_reported `{Collaborators} resp promptTokens model
    fixedContent usage text trace (msg : string) :
  Handler resp None promptTokens model fixedContent
  = (Return None usage text, trace) ->
  fst (Handler resp (Some msg) promptTokens model fixedContent)
  = Return (Some (ErrorWrapper msg "write_modified_response_body_failed"
                    StatusInternalServerError)) None ""
  /\ forall w,
       rw_status
         (client_view w
            (snd (Handler resp (Some msg) promptTokens model fixedContent)))
       = rw_status (client_view w trace)
       /\ rw_header
            (client_view w
               (snd (Handler resp (Some msg) promptTokens model fixedContent)))
          = rw_header (client_view w trace).
Proof.
  intros Hrun.
  destruct (Handler_success _ _ _ _ _ _ _ _ Hrun)
    as (body & tr & inj & t1 & modified & t2 & out & sets
        & Hb & Hc & Hun & Hty & Hinj & Hback & Hm & Hcopy & _ & _ & _
        & Htrace).
  assert (Hfail :
    Handler resp (Some msg) promptTokens model fixedContent
    = (Return (Some (ErrorWrapper msg "write_modified_response_body_failed"
                       StatusInternalServerError)) None "",
       t1 ++ t2
       ++ ([EMarshalResponse modified; EWriteHeader (resp_StatusCode resp)]
           ++ sets)
       ++ [EWriteFailed out])).
  { unfold Handler. rewrite Hb, Hc, Hun, Hty, Hinj. cbn [String.eqb negb].
    rewrite Hback. unfold write_response. rewrite Hm, Hcopy. reflexivity. }
  rewrite Hfail. split; [reflexivity|].
  intros w. cbn [snd]. rewrite Htrace, !app_assoc, !client_view_app.
  split; reflexivity.
Qed.

Lemma write_failure_reported_witness :
  fst (Handler (H := RefCodec.reference)
         (ResponseSamples.response 200 MoreSamples.body_two_choices)
         (Some "broken pipe") 7 "gpt" "Ad text")
  = Return (Some (ErrorWrapper (Collaborators := RefCodec.reference)
                    "broken pipe" "write_modified_response_body_failed"
                    StatusInternalServerError)) None ""
  /\ forall w,
       rw_status
         (client_view w
            (snd (Handler (H := RefCodec.reference)
                    (ResponseSamples.response 200 MoreSamples.body_two_choices)
                    (Some "broken pipe") 7 "gpt" "Ad text")))
       = rw_status
           (client_view w
              (snd (Handler (H := RefCodec.reference)
                      (ResponseSamples.response 200
                         MoreSamples.body_two_choices)
                      None 7 "gpt" "Ad text")))
       /\ rw_header
            (client_view w
               (snd (Handler (H := RefCodec.reference)
                       (ResponseSamples.response 200
                          MoreSamples.body_two_choices)
                       (Some "broken pipe") 7 "gpt" "Ad text")))
          = rw_header
              (client_view w
                 (snd (Handler (H := RefCodec.reference)
                         (ResponseSamples.response 200
                            MoreSamples.body_two_choices)
                         None 7 "gpt" "Ad text"))).
Proof.
  apply (write_failure_reported (H := RefCodec.reference)
           (ResponseSamples.response 200 MoreSamples.body_two_choices)
           7 "gpt" "Ad text"
           (Some {| PromptTokens := 9; CompletionTokens := 3;
                    TotalTokens := 12 |})
           "Bye").
  vm_compute. reflexivity.
Defined.
